(** * NLP search backend: query interpretation, clause building, rescoring

    A shallow embedding of [main.py].  Python values are modelled as follows.

    - [str] is [string]; the text handled is ASCII, so [len] is the number of
      characters, [lower] maps [A-Z] to [a-z], and the whitespace class of
      [str.split], [str.strip] and the regex escape [\s] is the ASCII part of
      [str.isspace] (codes 9-13, 28-32).
    - [int] is [Z]; [int(s)] reads a decimal literal of any length (the
      interpreter's configurable cap on the number of digits is left out).
    - [float] is the kernel's binary64 ([PrimFloat.float]); [min] and [max]
      compare with [<] and [>] the way the builtins do.
    - a [dict] whose iteration order matters is an association list in
      insertion order.
    - [re] is a backtracking matcher for the pattern syntax the source uses:
      literal characters, [\s], [\d], [+], [*] and one capturing group.
    - the interpreter functions return an [option]: [None] stands for an
      exception, or for a CARDINAL entity text that, once appended to a
      pattern, leaves that syntax.
    - the linguistic annotator (spaCy) is an input: a function from the query
      to a [Doc] carrying tokens and entity spans.
    - numbers stored in the document store and combined by its aggregation
      pipeline are exact rationals ([Q]). *)

From Stdlib Require Import List String Ascii ZArith NArith Bool Lia.
From Stdlib Require Import Permutation Sorted QArith Lqa Floats.
Import ListNotations.

Local Open Scope string_scope.
Local Open Scope list_scope.

(** ** Python strings *)

Module PyStr.

Definition is_space (c : ascii) : bool :=
  let n := N_of_ascii c in
  (((9 <=? n) && (n <=? 13)) || ((28 <=? n) && (n <=? 32)))%N.

Definition is_digit (c : ascii) : bool :=
  let n := N_of_ascii c in ((48 <=? n) && (n <=? 57))%N.

Definition digit_value (c : ascii) : Z := Z.of_N (N_of_ascii c) - 48.

Definition lower_char (c : ascii) : ascii :=
  let n := N_of_ascii c in
  if ((65 <=? n) && (n <=? 90))%N then ascii_of_N (n + 32) else c.

(** [s.lower()] *)
Fixpoint lower (s : string) : string :=
  match s with
  | EmptyString => EmptyString
  | String c r => String (lower_char c) (lower r)
  end.

(** [len(s)] *)
Definition len (s : string) : nat := String.length s.

(** [s.startswith(p)] *)
Fixpoint startswith (p s : string) : bool :=
  match p, s with
  | EmptyString, _ => true
  | String a p', String b s' => Ascii.eqb a b && startswith p' s'
  | String _ _, EmptyString => false
  end.

(** [sub in s] *)
Fixpoint contains (sub s : string) : bool :=
  startswith sub s ||
  match s with
  | EmptyString => false
  | String _ r => contains sub r
  end.

Fixpoint lstrip (s : string) : string :=
  match s with
  | EmptyString => EmptyString
  | String c r => if is_space c then lstrip r else s
  end.

Fixpoint rstrip (s : string) : string :=
  match s with
  | EmptyString => EmptyString
  | String c r =>
      match rstrip r with
      | EmptyString => if is_space c then EmptyString else String c EmptyString
      | r' => String c r'
      end
  end.

(** [s.strip()] *)
Definition strip (s : string) : string := rstrip (lstrip s).

(** [s.split()]: the maximal runs of non-whitespace characters.  [cur] is the
    run being read, reversed. *)
Fixpoint split_from (cur : list ascii) (s : string) : list string :=
  let flush := match cur with
               | [] => []
               | _ => [string_of_list_ascii (rev cur)]
               end in
  match s with
  | EmptyString => flush
  | String c r => if is_space c then flush ++ split_from [] r
                  else split_from (c :: cur) r
  end.

Definition split (s : string) : list string := split_from [] s.

(** [x in xs] for a list of strings *)
Definition mem (x : string) (xs : list string) : bool :=
  existsb (String.eqb x) xs.

(** Truthiness of an optional string: [None] and [""] are falsy. *)
Definition truthy (o : option string) : bool :=
  match o with
  | Some s => negb (String.eqb s "")
  | None => false
  end.

(** The digits of an integer literal: underscores may separate digits. *)
Fixpoint int_body (acc : Z) (after_digit : bool) (s : string) : option Z :=
  match s with
  | EmptyString => if after_digit then Some acc else None
  | String c r =>
      if is_digit c then int_body (10 * acc + digit_value c) true r
      else if Ascii.eqb c "_" && after_digit then int_body acc false r
      else None
  end.

(** [int(s)]: surrounding whitespace, an optional sign, decimal digits;
    [None] is [ValueError]. *)
Definition int (s : string) : option Z :=
  match strip s with
  | EmptyString => None
  | String c r =>
      if Ascii.eqb c "+" then int_body 0 false r
      else if Ascii.eqb c "-" then option_map Z.opp (int_body 0 false r)
      else int_body 0 false (String c r)
  end.

End PyStr.

(** ** The fragment of Python's [re] the patterns use *)

Module Re.

Inductive cls := CChar (c : ascii) | CSpace | CDigit.

Inductive quant := One | Star | Plus.

Inductive node :=
| Atom (c : cls) (q : quant)
| GroupOpen
| GroupClose.

Definition regex := list node.

Definition cls_match (c : cls) (a : ascii) : bool :=
  match c with
  | CChar x => Ascii.eqb x a
  | CSpace => PyStr.is_space a
  | CDigit => PyStr.is_digit a
  end.

(** Characters with a special meaning in a pattern. *)
Definition is_meta (a : ascii) : bool :=
  PyStr.contains (String a EmptyString) ".^$*+?{}[]\|()".

(** Pattern syntax, read left to right: literal characters, the escapes [\s]
    and [\d], [+] and [*] after a one-character atom, and parentheses.
    [pending] is the atom read last, still waiting for its quantifier; [esc]
    says that the previous character was a backslash. *)
Fixpoint parse (pending : option cls) (esc : bool) (p : string) : option regex :=
  let flush (r : regex) : regex :=
    match pending with
    | Some c => Atom c One :: r
    | None => r
    end in
  match p with
  | EmptyString => if esc then None else Some (flush [])
  | String a r =>
      if esc then
        if Ascii.eqb a "s" then option_map flush (parse (Some CSpace) false r)
        else if Ascii.eqb a "d" then option_map flush (parse (Some CDigit) false r)
        else None
      else if Ascii.eqb a "\" then parse pending true r
      else if Ascii.eqb a "+" then
        match pending with
        | Some c => option_map (cons (Atom c Plus)) (parse None false r)
        | None => None
        end
      else if Ascii.eqb a "*" then
        match pending with
        | Some c => option_map (cons (Atom c Star)) (parse None false r)
        | None => None
        end
      else if Ascii.eqb a "(" then
        option_map (fun t => flush (GroupOpen :: t)) (parse None false r)
      else if Ascii.eqb a ")" then
        option_map (fun t => flush (GroupClose :: t)) (parse None false r)
      else if is_meta a then None
      else option_map flush (parse (Some (CChar a)) false r)
  end.

(** At most one group, opened before it is closed. *)
Fixpoint grouping (state : nat) (r : regex) : bool :=
  match r, state with
  | [], 0%nat | [], 2%nat => true
  | [], _ => false
  | Atom _ _ :: r', _ => grouping state r'
  | GroupOpen :: r', 0%nat => grouping 1 r'
  | GroupClose :: r', 1%nat => grouping 2 r'
  | _, _ => false
  end.

(** [re.compile(p)]; [None] when [p] is outside the fragment. *)
Definition compile (p : string) : option regex :=
  match parse None false p with
  | Some r => if grouping 0 r then Some r else None
  | None => None
  end.

(** Group 1 while matching: [None] before the group opens, then the text
    consumed inside it (reversed while the group is open). *)
Record capture := { cap_open : bool; cap_text : option (list ascii) }.

Definition cap_init : capture := {| cap_open := false; cap_text := None |}.

Definition cap_push (a : ascii) (st : capture) : capture :=
  if cap_open st
  then {| cap_open := true;
          cap_text := Some (a :: match cap_text st with Some t => t | None => [] end) |}
  else st.

Definition cap_start (st : capture) : capture :=
  {| cap_open := true; cap_text := Some [] |}.

Definition cap_stop (st : capture) : capture :=
  {| cap_open := false; cap_text := option_map (@rev ascii) (cap_text st) |}.

(** Greedy repetition of a class with backtracking: take as many characters
    as possible and give back one at a time until the continuation [k]
    succeeds. *)
Fixpoint greedy (c : cls) (k : string -> capture -> option capture)
         (s : string) (st : capture) : option capture :=
  match s with
  | String a r =>
      if cls_match c a then
        match greedy c k r (cap_push a st) with
        | Some res => Some res
        | None => k s st
        end
      else k s st
  | EmptyString => k s st
  end.

(** Match [r] at the start of [s]. *)
Fixpoint match_here (r : regex) (s : string) (st : capture) : option capture :=
  match r with
  | [] => Some st
  | GroupOpen :: r' => match_here r' s (cap_start st)
  | GroupClose :: r' => match_here r' s (cap_stop st)
  | Atom c One :: r' =>
      match s with
      | String a t => if cls_match c a then match_here r' t (cap_push a st) else None
      | EmptyString => None
      end
  | Atom c Star :: r' => greedy c (match_here r') s st
  | Atom c Plus :: r' =>
      match s with
      | String a t =>
          if cls_match c a then greedy c (match_here r') t (cap_push a st) else None
      | EmptyString => None
      end
  end.

(** A match object: only [group(1)] is ever read. *)
Record rmatch := { group1 : option string }.

Definition mk_match (st : capture) : rmatch :=
  {| group1 := option_map string_of_list_ascii (cap_text st) |}.

(** Leftmost match of a compiled pattern. *)
Fixpoint search_compiled (r : regex) (s : string) : option rmatch :=
  match match_here r s cap_init with
  | Some st => Some (mk_match st)
  | None =>
      match s with
      | EmptyString => None
      | String _ t => search_compiled r t
      end
  end.

(** [re.search(p, s)]: the outer [None] is a pattern outside the fragment,
    the inner one is "no match". *)
Definition search (p s : string) : option (option rmatch) :=
  option_map (fun r => search_compiled r s) (compile p).

End Re.

(** ** Python floats and dicts *)

Module Py.

(** [min(a, b)] on floats: the first argument is kept unless the second is
    strictly smaller. *)
Definition min (a b : float) : float := if PrimFloat.ltb b a then b else a.

(** A dict with string keys, in insertion order. *)
Definition dict (V : Type) : Type := list (string * V).

(** [d.get(k)] *)
Fixpoint get {V : Type} (k : string) (d : dict V) : option V :=
  match d with
  | [] => None
  | (k', v) :: r => if String.eqb k' k then Some v else get k r
  end.

(** [d.get(k, default)] *)
Definition get_default {V : Type} (k : string) (default : V) (d : dict V) : V :=
  match get k d with
  | Some v => v
  | None => default
  end.

(** [d[k] = v]: an existing key keeps its place. *)
Fixpoint set {V : Type} (k : string) (v : V) (d : dict V) : dict V :=
  match d with
  | [] => [(k, v)]
  | (k', v') :: r =>
      if String.eqb k' k then (k', v) :: r else (k', v') :: set k v r
  end.

(** [max(d.items(), key=lambda x: x[1])[0]] on a non-empty dict: the first
    item whose value no later item exceeds. *)
Fixpoint argmax_from (best : string * float) (d : dict float) : string :=
  match d with
  | [] => fst best
  | item :: r =>
      argmax_from (if PrimFloat.ltb (snd best) (snd item) then item else best) r
  end.

Definition argmax (d : dict float) : option string :=
  match d with
  | [] => None
  | item :: r => Some (argmax_from item r)
  end.

End Py.

(** ** Data model *)

(** The annotator's output: coarse part-of-speech tags, tokens with their
    syntactic children, and entity spans in document order. *)
Inductive POS :=
| ADJ | ADP | ADV | AUX | CCONJ | DET | INTJ | NOUN | NUM | PART | PRON
| PROPN | PUNCT | SCONJ | SYM | VERB | X | SPACE.

Record Child := { child_pos : POS; child_text : string }.

Record Token := {
  text : string;
  pos_ : POS;
  lemma_ : string;
  is_stop : bool;
  children : list Child
}.

Record Ent := { label_ : string; ent_text : string }.

Record Doc := { ents : list Ent; tokens : list Token }.

Record Semantic := {
  noun_phrases : list string;
  adjective_modifiers : list (string * string);
  brand_confidence : Py.dict float;
  color_confidence : Py.dict float;
  category_confidence : Py.dict float
}.

(** The filters dict.  The keys [entities] and [semantic_analysis] exist only
    in the dict the annotated algorithm returns. *)
Record Filters := {
  category : option string;
  brand : option string;
  color : option string;
  price_max : option Z;
  price_min : option Z;
  gender : option string;
  keywords : list string;
  entities : option (Py.dict string);
  semantic_analysis : option Semantic
}.

(** Truthiness of a price bound: [None] and [0] are falsy. *)
Definition price_truthy (o : option Z) : bool :=
  match o with
  | Some n => negb (n =? 0)%Z
  | None => false
  end.

(** A synonym table: canonical value and its variants, in declared order. *)
Definition table := list (string * list string).

(** [any(v in query_lower for v in variants)] *)
Definition any_in (variants : list string) (query_lower : string) : bool :=
  existsb (fun v => PyStr.contains v query_lower) variants.

Notation "x <- e ;; k" :=
  (match e with Some x => k | None => None end)
  (at level 61, e at next level, right associativity, only parsing).

Set Warnings "-inexact-float,-register-all".
Local Open Scope float_scope.

(** ** Price patterns *)

(** [for pattern in patterns: match = re.search(pattern, s); if match:
    ... int(match.group(1)); break].  The result is the integer of the first
    pattern that matches, if any. *)
Fixpoint first_price (patterns : list string) (s : string) : option (option Z) :=
  match patterns with
  | [] => Some None
  | pattern :: rest =>
      m <- Re.search pattern s ;;
      match m with
      | Some mt => g <- Re.group1 mt ;; n <- PyStr.int g ;; Some (Some n)
      | None => first_price rest s
      end
  end.

(** The loops of the CARDINAL branch: a matching pattern sets the bound to
    [int(cardinal_text)] and stops; when that raises [ValueError] the loop
    goes on to the next pattern. *)
Fixpoint cardinal_price (patterns : list string) (query_lower cardinal_text : string)
  : option (option Z) :=
  match patterns with
  | [] => Some None
  | pattern :: rest =>
      m <- Re.search pattern query_lower ;;
      match m, PyStr.int cardinal_text with
      | Some _, Some n => Some (Some n)
      | _, _ => cardinal_price rest query_lower cardinal_text
      end
  end.

(** The plain patterns, under-list before over-list, starting from the
    bounds [(price_max, price_min)] already in the filters. *)
Definition regex_prices (under_patterns over_patterns : list string)
           (query_lower : string) (bounds : option Z * option Z)
  : option (option Z * option Z) :=
  under <- first_price under_patterns query_lower ;;
  let pmax := match under with Some n => Some n | None => fst bounds end in
  if negb (price_truthy pmax) then
    over <- first_price over_patterns query_lower ;;
    Some (pmax, match over with Some n => Some n | None => snd bounds end)
  else Some (pmax, snd bounds).

(** ** Query interpreter: degraded algorithm *)

Module Fallback.

Definition category_synonyms : table :=
  [ ("sneakers", ["sneakers"; "trainers"; "athletic shoes"; "sports shoes"; "running shoes"]);
    ("flats", ["flats"; "ballet flats"; "loafers"]);
    ("boots", ["boots"; "ankle boots"; "combat boots"; "winter boots"]);
    ("sandals", ["sandals"; "flip flops"; "slippers"]);
    ("heels", ["heels"; "high heels"; "stilettos"; "pumps"]);
    ("casual shoes", ["casual"; "everyday shoes"]);
    ("formal shoes", ["formal"; "dress shoes"; "office shoes"]) ].

Definition brand_synonyms : table :=
  [ ("nike", ["nike"; "air jordan"; "jordan"]);
    ("adidas", ["adidas"; "three stripes"]);
    ("puma", ["puma"]);
    ("reebok", ["reebok"]);
    ("converse", ["converse"; "chuck taylor"; "all star"]);
    ("vans", ["vans"]);
    ("new balance", ["new balance"; "nb"]);
    ("mizuno", ["mizuno"]);
    ("asics", ["asics"]);
    ("under armour", ["under armour"; "ua"]) ].

Definition color_synonyms : table :=
  [ ("red", ["red"; "crimson"; "burgundy"; "scarlet"]);
    ("blue", ["blue"; "navy"; "cobalt"; "azure"]);
    ("black", ["black"; "ebony"; "charcoal"]);
    ("white", ["white"; "ivory"; "cream"; "off-white"]);
    ("green", ["green"; "emerald"; "olive"]);
    ("yellow", ["yellow"; "gold"; "golden"]);
    ("pink", ["pink"; "rose"; "magenta"]);
    ("purple", ["purple"; "violet"; "lavender"]);
    ("brown", ["brown"; "tan"; "beige"; "khaki"]);
    ("grey", ["grey"; "gray"; "silver"]);
    ("orange", ["orange"; "coral"; "peach"]) ].

Definition gender_synonyms : table :=
  [ ("women", ["women"; "female"; "girls"; "ladies"; "womens"]);
    ("men", ["men"; "male"; "boys"; "mens"; "guys"]);
    ("unisex", ["unisex"; "both"; "all"]) ].

Definition under_patterns : list string :=
  [ "under\s+(\d+)"; "below\s+(\d+)"; "less\s+than\s+(\d+)"; "<\s*(\d+)";
    "price\s+<\s*(\d+)"; "max\s+(\d+)"; "maximum\s+(\d+)"; "budget\s+(\d+)" ].

Definition over_patterns : list string :=
  [ "over\s+(\d+)"; "above\s+(\d+)"; "more\s+than\s+(\d+)"; ">\s*(\d+)";
    "price\s+>\s*(\d+)"; "min\s+(\d+)"; "minimum\s+(\d+)" ].

(** [for main, synonyms in tbl.items(): for synonym in synonyms: if synonym
    in query_lower: filters[key] = main; break ... if filters[key]: break].
    [cur] is the value of [filters[key]] so far. *)
Fixpoint resolve (tbl : table) (query_lower : string) (cur : option string)
  : option string :=
  match tbl with
  | [] => cur
  | (main, synonyms) :: rest =>
      let cur' := if any_in synonyms query_lower then Some main else cur in
      if PyStr.truthy cur' then cur' else resolve rest query_lower cur'
  end.

(** [[word.strip() for word in query_lower.split() if len(word.strip()) > 2]] *)
Definition words (query_lower : string) : list string :=
  map PyStr.strip
      (filter (fun word => (2 <? PyStr.len (PyStr.strip word))%nat)
              (PyStr.split query_lower)).

(** The loop over [shoes_general_terms] has an empty body and is left out. *)
Definition parse_query_fallback (query_lower : string) : option Filters :=
  let category := resolve category_synonyms query_lower None in
  let brand := resolve brand_synonyms query_lower None in
  let color := resolve color_synonyms query_lower None in
  let gender := resolve gender_synonyms query_lower None in
  bounds <- regex_prices under_patterns over_patterns query_lower (None, None) ;;
  Some {| category := category;
          brand := brand;
          color := color;
          price_max := fst bounds;
          price_min := snd bounds;
          gender := gender;
          keywords := words query_lower;
          entities := None;
          semantic_analysis := None |}.

End Fallback.

(** ** Query interpreter: annotated algorithm *)

Module Annotated.

Definition brand_entities : table :=
  [ ("nike", ["nike"; "air jordan"; "jordan brand"; "swoosh"]);
    ("adidas", ["adidas"; "three stripes"; "trefoil"; "adi"]);
    ("puma", ["puma"; "cat"; "fuma"]);
    ("reebok", ["reebok"; "rbk"]);
    ("converse", ["converse"; "chuck taylor"; "all star"; "chuck"]);
    ("vans", ["vans"; "off the wall"]);
    ("new balance", ["new balance"; "nb"; "newbalance"]);
    ("mizuno", ["mizuno"]);
    ("asics", ["asics"; "tiger"]);
    ("under armour", ["under armour"; "ua"; "underarmour"]) ].

Definition color_entities : table :=
  [ ("black", ["black"; "ebony"; "charcoal"; "dark"; "jet black"]);
    ("white", ["white"; "ivory"; "cream"; "off-white"; "snow"; "pearl"]);
    ("red", ["red"; "crimson"; "burgundy"; "scarlet"; "cherry"; "rose red"]);
    ("blue", ["blue"; "navy"; "cobalt"; "azure"; "royal blue"; "sky blue"]);
    ("green", ["green"; "emerald"; "olive"; "forest"; "lime"]);
    ("yellow", ["yellow"; "gold"; "golden"; "amber"; "sunshine"]);
    ("pink", ["pink"; "rose"; "magenta"; "fuchsia"; "blush"]);
    ("purple", ["purple"; "violet"; "lavender"; "plum"; "indigo"]);
    ("brown", ["brown"; "tan"; "beige"; "khaki"; "chocolate"; "camel"]);
    ("grey", ["grey"; "gray"; "silver"; "slate"; "charcoal gray"]);
    ("orange", ["orange"; "coral"; "peach"; "burnt orange"]) ].

Definition category_entities : table :=
  [ ("sneakers", ["sneakers"; "trainers"; "athletic shoes"; "sports shoes";
                  "running shoes"; "runners"; "kicks"]);
    ("flats", ["flats"; "ballet flats"; "loafers"; "slip-ons"]);
    ("boots", ["boots"; "ankle boots"; "combat boots"; "winter boots"; "hiking boots"]);
    ("sandals", ["sandals"; "flip flops"; "slippers"; "slides"]);
    ("heels", ["heels"; "high heels"; "stilettos"; "pumps"; "wedges"]);
    ("casual shoes", ["casual"; "everyday shoes"; "walking shoes"]);
    ("formal shoes", ["formal"; "dress shoes"; "office shoes"; "oxfords"]) ].

Definition gender_entities : table :=
  [ ("women", ["women"; "female"; "girls"; "ladies"; "womens"; "woman"]);
    ("men", ["men"; "male"; "boys"; "mens"; "guys"; "man"]);
    ("unisex", ["unisex"; "both"; "all"; "universal"]) ].

Definition shoe_terms : list string :=
  ["shoes"; "sneakers"; "boots"; "footwear"; "kicks"].

(** [for ent in doc.ents: entities_found[ent.label_] = ent.text.lower()] *)
Definition entities_of (doc : Doc) : Py.dict string :=
  fold_left (fun d ent => Py.set (label_ ent) (PyStr.lower (ent_text ent)) d)
            (ents doc) [].

(** The state of the token loop. *)
Record Scan := {
  scan_noun_phrases : list string;
  scan_adjective_modifiers : list (string * string);
  scan_keywords : list string
}.

(** The inner loop over [token.children]: every adjective child is recorded
    against the phrase built so far and then prefixed to it. *)
Definition scan_children (cs : list Child) (start : list (string * string) * string)
  : list (string * string) * string :=
  fold_left
    (fun '(mods, noun_phrase) child =>
       match child_pos child with
       | ADJ =>
           let adj := PyStr.lower (child_text child) in
           (mods ++ [(adj, noun_phrase)], (adj ++ " " ++ noun_phrase)%string)
       | _ => (mods, noun_phrase)
       end)
    cs start.

Definition is_keyword_pos (p : POS) : bool :=
  match p with
  | NOUN | ADJ | PROPN => true
  | _ => false
  end.

Definition scan_token (st : Scan) (token : Token) : Scan :=
  let '(phrases, mods) :=
    match pos_ token with
    | NOUN =>
        let '(mods, noun_phrase) :=
          scan_children (children token)
                        (scan_adjective_modifiers st, PyStr.lower (text token)) in
        (scan_noun_phrases st ++ [noun_phrase], mods)
    | _ => (scan_noun_phrases st, scan_adjective_modifiers st)
    end in
  {| scan_noun_phrases := phrases;
     scan_adjective_modifiers := mods;
     scan_keywords :=
       if is_keyword_pos (pos_ token) && negb (is_stop token)
          && (2 <? PyStr.len (text token))%nat
       then scan_keywords st ++ [PyStr.lower (lemma_ token)]
       else scan_keywords st |}.

Definition scan_tokens (doc : Doc) : Scan :=
  fold_left scan_token (tokens doc)
            {| scan_noun_phrases := [];
               scan_adjective_modifiers := [];
               scan_keywords := [] |}.

(** The confidence loops: [for canon, variants in tbl.items(): for variant in
    variants: if variant in query_lower: conf[canon] = conf.get(canon, 0) +
    score(variant)]. *)
Definition accumulate (score : string -> float) (tbl : table) (query_lower : string)
  : Py.dict float :=
  fold_left
    (fun conf '(canon, variants) =>
       fold_left
         (fun conf variant =>
            if PyStr.contains variant query_lower
            then Py.set canon (Py.get_default canon 0 conf + score variant) conf
            else conf)
         variants conf)
    tbl [].

Definition brand_score (query_lower variant : string) : float :=
  let context_score := 1.0 in
  let context_score :=
    if any_in shoe_terms query_lower then context_score + 0.5 else context_score in
  if String.eqb variant (PyStr.strip query_lower)
     || PyStr.contains (" " ++ variant ++ " ")%string (" " ++ query_lower ++ " ")%string
  then context_score + 0.3 else context_score.

Definition color_score (adjective_modifiers : list (string * string))
           (variant : string) : float :=
  fold_left
    (fun confidence '(adj, noun) =>
       if PyStr.contains variant adj
          && existsb (fun shoe_word => PyStr.contains shoe_word noun)
                     ["shoe"; "sneaker"; "boot"]
       then confidence + 0.5 else confidence)
    adjective_modifiers 1.0.

Definition category_score (noun_phrases : list string) (variant : string) : float :=
  let confidence := 1.0 in
  if PyStr.mem variant noun_phrases then confidence + 0.3 else confidence.

(** [for gender, variants in gender_entities.items(): if any(...): ...; break] *)
Definition gender_of (query_lower : string) : option string :=
  option_map fst (find (fun '(_, variants) => any_in variants query_lower) gender_entities).

Definition under_patterns : list string :=
  [ "under\s+(\d+)"; "below\s+(\d+)"; "less\s+than\s+(\d+)"; "<\s*(\d+)";
    "max\s+(\d+)"; "budget\s+(\d+)" ].

Definition over_patterns : list string :=
  [ "over\s+(\d+)"; "above\s+(\d+)"; "more\s+than\s+(\d+)"; ">\s*(\d+)";
    "min\s+(\d+)"; "minimum\s+(\d+)" ].

(** The pattern lists of the CARDINAL branch: the entity text is appended to
    each prefix as it is. *)
Definition cardinal_under_patterns (cardinal_text : string) : list string :=
  [ "under\s+" ++ cardinal_text; "below\s+" ++ cardinal_text;
    "less\s+than\s+" ++ cardinal_text; "<\s*" ++ cardinal_text;
    "max\s+" ++ cardinal_text; "budget\s+" ++ cardinal_text ]%string.

Definition cardinal_over_patterns (cardinal_text : string) : list string :=
  [ "over\s+" ++ cardinal_text; "above\s+" ++ cardinal_text;
    "more\s+than\s+" ++ cardinal_text; ">\s*" ++ cardinal_text;
    "min\s+" ++ cardinal_text; "minimum\s+" ++ cardinal_text ]%string.

(** Price bounds [(price_max, price_min)] from the entities: MONEY first,
    else CARDINAL with its text appended to each pattern prefix. *)
Definition entity_prices (entities_found : Py.dict string) (query_lower : string)
  : option (option Z * option Z) :=
  if PyStr.truthy (Py.get "MONEY" entities_found) then
    let money_text := Py.get_default "MONEY" "" entities_found in
    price_match <- Re.search "(\d+)" money_text ;;
    match price_match with
    | Some mt => g <- Re.group1 mt ;; n <- PyStr.int g ;; Some (Some n, None)
    | None => Some (None, None)
    end
  else if PyStr.truthy (Py.get "CARDINAL" entities_found) then
    let cardinal_text := Py.get_default "CARDINAL" "" entities_found in
    under <- cardinal_price (cardinal_under_patterns cardinal_text)
                            query_lower cardinal_text ;;
    match under with
    | Some n => Some (Some n, None)
    | None =>
        over <- cardinal_price (cardinal_over_patterns cardinal_text)
                               query_lower cardinal_text ;;
        Some (None, over)
    end
  else Some (None, None).

(** The whole price extraction: the entity branches, then the plain
    patterns when neither bound is truthy. *)
Definition price_bounds (entities_found : Py.dict string) (query_lower : string)
  : option (option Z * option Z) :=
  bounds <- entity_prices entities_found query_lower ;;
  if negb (price_truthy (fst bounds)) && negb (price_truthy (snd bounds))
  then regex_prices under_patterns over_patterns query_lower bounds
  else Some bounds.

Definition parse_annotated (doc : Doc) (query : string) : option Filters :=
  let query_lower := PyStr.lower query in
  let entities_found := entities_of doc in
  let scan := scan_tokens doc in
  let noun_phrases := scan_noun_phrases scan in
  let adjective_modifiers := scan_adjective_modifiers scan in
  let brand_confidence := accumulate (brand_score query_lower) brand_entities query_lower in
  let color_confidence :=
    accumulate (color_score adjective_modifiers) color_entities query_lower in
  let category_confidence :=
    accumulate (category_score noun_phrases) category_entities query_lower in
  bounds <- price_bounds entities_found query_lower ;;
  Some {| category := Py.argmax category_confidence;
          brand := Py.argmax brand_confidence;
          color := Py.argmax color_confidence;
          price_max := fst bounds;
          price_min := snd bounds;
          gender := gender_of query_lower;
          keywords := scan_keywords scan;
          entities := Some entities_found;
          semantic_analysis :=
            Some {| noun_phrases := noun_phrases;
                    adjective_modifiers := adjective_modifiers;
                    brand_confidence := brand_confidence;
                    color_confidence := color_confidence;
                    category_confidence := category_confidence |} |}.

End Annotated.

(** [parse_query_with_nlp]: [nlp] is the annotator when its model loaded. *)
Definition parse_query_with_nlp (nlp : option (string -> Doc)) (query : string)
  : option Filters :=
  let query_lower := PyStr.lower query in
  match nlp with
  | Some annotate => Annotated.parse_annotated (annotate query) query
  | None => Fallback.parse_query_fallback query_lower
  end.

(** ** Clause builder: rich backend *)

Inductive clause :=
| multi_match (query : string) (fields : list string) (fuzziness : string)
              (type : option string)
| term (field value : string) (boost : float)
| match_phrase (field query : string) (boost : float)
| range_lte (field : string) (bound : Z)
| range_gte (field : string) (bound : Z).

(** The clause over the full query text. *)
Definition full_query_clause (query : string) : clause :=
  multi_match query ["title^3"; "description^2"; "category^2"; "brand^2"; "tags"]
              "AUTO" (Some "best_fields").

Definition keyword_clause (keyword : string) : clause :=
  multi_match keyword ["title^3"; "description"; "category"; "brand"; "tags"]
              "AUTO" None.

Definition keyword_clauses (kws : list string) : list clause :=
  map keyword_clause (filter (fun keyword => (2 <? PyStr.len keyword)%nat) kws).

(** One boosted exact clause per entry of a confidence map. *)
Definition boosted_terms (field : string) (weight clamp : float)
           (confidence_map : Py.dict float) : list clause :=
  map (fun '(value, confidence) => term field value (Py.min (confidence * weight) clamp))
      confidence_map.

Definition phrase_clauses (phrases : list string) : list clause :=
  map (fun phrase => match_phrase "title" phrase 1.3)
      (filter (fun phrase => (3 <? PyStr.len phrase)%nat) phrases).

(** The branch taken when [filters.get("semantic_analysis")] is truthy. *)
Definition semantic_clauses (semantic : Semantic) : list clause :=
  boosted_terms "brand.keyword" 2.0 5.0 (brand_confidence semantic)
  ++ boosted_terms "color.keyword" 1.8 4.0 (color_confidence semantic)
  ++ boosted_terms "category.keyword" 1.5 3.0 (category_confidence semantic)
  ++ phrase_clauses (noun_phrases semantic).

Definition fixed_term (field : string) (value : option string) : list clause :=
  match value with
  | Some v => if PyStr.truthy value then [term field v 2.0] else []
  | None => []
  end.

(** The [else] branch: one clause per resolved attribute. *)
Definition plain_clauses (filters : Filters) : list clause :=
  fixed_term "category.keyword" (category filters)
  ++ fixed_term "brand.keyword" (brand filters)
  ++ fixed_term "color.keyword" (color filters).

Definition gender_should (g : string) : list string :=
  if String.eqb g "women" then ["women"; "girls"; "female"]
  else if String.eqb g "men" then ["men"; "boys"; "male"]
  else [g].

Definition gender_clauses (filters : Filters) : list clause :=
  match gender filters with
  | Some g =>
      if PyStr.truthy (gender filters)
      then map (fun gender_term => term "gender.keyword" gender_term 1.5) (gender_should g)
      else []
  | None => []
  end.

Definition should_clauses (filters : Filters) (query : string) : list clause :=
  [full_query_clause query]
  ++ keyword_clauses (keywords filters)
  ++ match semantic_analysis filters with
     | Some semantic => semantic_clauses semantic
     | None => plain_clauses filters
     end
  ++ gender_clauses filters.

Definition filter_clauses (filters : Filters) : list clause :=
  match price_max filters with
  | Some n => if price_truthy (price_max filters) then [range_lte "price" n] else []
  | None => []
  end
  ++ match price_min filters with
     | Some n => if price_truthy (price_min filters) then [range_gte "price" n] else []
     | None => []
     end.

(** ** Clause builder: simple backend *)

Inductive condition :=
| regex_i (field pattern : string)
| lte (field : string) (bound : Z)
| gte (field : string) (bound : Z)
| or_ (cs : list condition)
| and_ (cs : list condition).

Definition attribute_condition (field : string) (value : option string)
  : list condition :=
  match value with
  | Some v => if PyStr.truthy value then [regex_i field v] else []
  | None => []
  end.

Definition price_conditions (filters : Filters) : list condition :=
  match price_max filters with
  | Some n => if price_truthy (price_max filters) then [lte "price" n] else []
  | None => []
  end
  ++ match price_min filters with
     | Some n => if price_truthy (price_min filters) then [gte "price" n] else []
     | None => []
     end.

Definition term_condition (t : string) : condition :=
  or_ [ regex_i "title" t; regex_i "description" t; regex_i "category" t;
        regex_i "brand" t; regex_i "color" t; regex_i "tags" t ].

Definition text_conditions (filters : Filters) (query : string) : list condition :=
  let has_keywords := match keywords filters with [] => false | _ => true end in
  if has_keywords
     || negb (PyStr.truthy (category filters) || PyStr.truthy (brand filters)
              || PyStr.truthy (color filters) || PyStr.truthy (gender filters))
  then
    let search_terms :=
      if has_keywords then keywords filters else [PyStr.lower query] in
    match map term_condition
              (filter (fun t => (2 <? PyStr.len t)%nat) search_terms) with
    | [] => []
    | [c] => [c]
    | cs => [and_ cs]
    end
  else [].

(** The members of [mongo_query["$and"]] before the final unwrapping. *)
Definition mongo_conditions (filters : Filters) (query : string) : list condition :=
  attribute_condition "category" (category filters)
  ++ attribute_condition "brand" (brand filters)
  ++ attribute_condition "color" (color filters)
  ++ attribute_condition "gender" (gender filters)
  ++ price_conditions filters
  ++ text_conditions filters query.

(** [None] is the empty query [{}], which matches every document. *)
Definition mongo_query (filters : Filters) (query : string) : option condition :=
  match mongo_conditions filters query with
  | [] => None
  | [c] => Some c
  | cs => Some (and_ cs)
  end.

(** ** Stable sorting *)

(** [list.sort] is a stable comparison sort that only asks whether one key
    is less than another.  It is modelled by insertion from the right:
    [x] moves past [y] exactly when [x] has to come strictly after [y]. *)
Section StableSort.

Context {A : Type} (after : A -> A -> bool).

Fixpoint insert_sorted (x : A) (l : list A) : list A :=
  match l with
  | [] => [x]
  | y :: r => if after x y then y :: insert_sorted x r else x :: y :: r
  end.

Definition stable_sort (l : list A) : list A := fold_right insert_sorted [] l.

(** [x] may stand before [y]. *)
Definition in_order (x y : A) : Prop := after x y = false.

End StableSort.

(** ** Result rescorer *)

(** A hit of the rich backend: its source document and relevance score.
    A field that the document lacks is [None]. *)
Record Product := {
  title : option string;
  product_brand : option string;
  product_color : option string;
  product_category : option string;
  product_gender : option string;
  _score : option float
}.

(** [product.get(key, "").lower()] *)
Definition field_lower (v : option string) : string :=
  PyStr.lower (match v with Some s => s | None => "" end).

(** The confidence maps the rescorer sees: [semantic.get(...)] on the dict
    [filters.get("semantic_analysis", {})]. *)
Definition semantic_map (sel : Semantic -> Py.dict float) (filters : Filters)
  : Py.dict float :=
  match semantic_analysis filters with
  | Some semantic => sel semantic
  | None => []
  end.

Definition semantic_phrases (filters : Filters) : list string :=
  match semantic_analysis filters with
  | Some semantic => noun_phrases semantic
  | None => []
  end.

Definition nonempty {V : Type} (l : list V) : bool :=
  match l with
  | [] => false
  | _ => true
  end.

Definition target_of (v : option string) : string :=
  PyStr.lower (match v with Some s => s | None => "" end).

Definition score_brand (product : Product) (filters : Filters) (nlp_score : float)
  : float :=
  if PyStr.truthy (brand filters) && nonempty (semantic_map brand_confidence filters)
  then
    let product_brand := field_lower (product_brand product) in
    let target_brand := target_of (brand filters) in
    if String.eqb product_brand target_brand then
      let brand_confidence :=
        Py.get_default target_brand 1.0 (semantic_map brand_confidence filters) in
      nlp_score + brand_confidence * 3.0
    else nlp_score * 0.3
  else nlp_score.

Definition score_color (product : Product) (filters : Filters) (nlp_score : float)
  : float :=
  if PyStr.truthy (color filters) && nonempty (semantic_map color_confidence filters)
  then
    let product_color := field_lower (product_color product) in
    let target_color := target_of (color filters) in
    if String.eqb product_color target_color then
      let color_confidence :=
        Py.get_default target_color 1.0 (semantic_map color_confidence filters) in
      nlp_score + color_confidence * 2.0
    else nlp_score * 0.4
  else nlp_score.

Definition score_category (product : Product) (filters : Filters)
           (original_query : string) (nlp_score : float) : float :=
  if PyStr.truthy (category filters)
     && nonempty (semantic_map category_confidence filters)
  then
    let product_category := field_lower (product_category product) in
    let target_category := target_of (category filters) in
    if String.eqb product_category target_category then
      let category_confidence :=
        Py.get_default target_category 1.0 (semantic_map category_confidence filters) in
      nlp_score + category_confidence * 1.5
    else if PyStr.contains "shoes" (PyStr.lower original_query)
            && PyStr.mem product_category ["sneakers"; "flats"; "boots"; "sandals"; "heels"]
    then nlp_score + 0.5
    else nlp_score * 0.7
  else nlp_score.

Definition score_gender (product : Product) (filters : Filters) (nlp_score : float)
  : float :=
  if PyStr.truthy (gender filters) then
    let product_gender := field_lower (product_gender product) in
    let target_gender := target_of (gender filters) in
    let gender_match :=
      if String.eqb target_gender "women"
         && PyStr.mem product_gender ["women"; "girls"; "female"] then true
      else if String.eqb target_gender "men"
              && PyStr.mem product_gender ["men"; "boys"; "male"] then true
      else if String.eqb target_gender product_gender then true
      else false in
    if gender_match then nlp_score + 1.0 else nlp_score * 0.6
  else nlp_score.

Definition score_phrases (product : Product) (filters : Filters) (nlp_score : float)
  : float :=
  let product_title := field_lower (title product) in
  fold_left
    (fun nlp_score phrase =>
       if PyStr.contains phrase product_title then nlp_score + 0.8 else nlp_score)
    (semantic_phrases filters) nlp_score.

(** [product.get("_score", 1.0)] *)
Definition base_score (product : Product) : float :=
  match _score product with
  | Some s => s
  | None => 1.0
  end.

(** The body of the loop over the products: the value stored in
    [product["_nlp_score"]]. *)
Definition nlp_score_of (filters : Filters) (original_query : string)
           (product : Product) : float :=
  let nlp_score := base_score product in
  let nlp_score := score_brand product filters nlp_score in
  let nlp_score := score_color product filters nlp_score in
  let nlp_score := score_category product filters original_query nlp_score in
  let nlp_score := score_gender product filters nlp_score in
  score_phrases product filters nlp_score.

(** A product after the loop, with the two fields the loop writes. *)
Record Scored := {
  product : Product;
  _nlp_score : float;
  _original_score : float
}.

Definition score_product (filters : Filters) (original_query : string)
           (p : Product) : Scored :=
  {| product := p;
     _nlp_score := nlp_score_of filters original_query p;
     _original_score := base_score p |}.

(** [products.sort(key=lambda x: x.get("_nlp_score", 0), reverse=True)]:
    a product moves past another only when its key is strictly smaller. *)
Definition sort_by_nlp_score (l : list Scored) : list Scored :=
  stable_sort (fun x y => PrimFloat.ltb (_nlp_score x) (_nlp_score y)) l.

Definition apply_nlp_scoring (products : list Product) (filters : Filters)
           (original_query : string) : list Scored :=
  match products with
  | [] => []
  | _ => sort_by_nlp_score (map (score_product filters original_query) products)
  end.

(** ** Simple backend: the aggregation pipeline *)

Module Mongo.

Local Open Scope Q_scope.

(** A stored product, reduced to the numeric fields the pipeline reads. *)
Record Item := { rating : Q; stock : Q; price : Q }.

Inductive value := VNum (q : Q) | VBool (b : bool).

(** Aggregation expressions: [$field], constants, [$add], [$multiply],
    [$divide], [$gt] and [$cond]. *)
Inductive expr :=
| Field (name : string)
| Const (q : Q)
| Add (es : list expr)
| Multiply (es : list expr)
| Divide (a b : expr)
| Gt (a b : expr)
| Cond (c t e : expr).

Definition field (name : string) (d : Item) : option Q :=
  if String.eqb name "rating" then Some (rating d)
  else if String.eqb name "stock" then Some (stock d)
  else if String.eqb name "price" then Some (price d)
  else None.

Definition as_num (v : option value) : option Q :=
  match v with
  | Some (VNum q) => Some q
  | _ => None
  end.

Definition as_bool (v : option value) : option bool :=
  match v with
  | Some (VBool b) => Some b
  | _ => None
  end.

(** Evaluation on a document; [None] is an evaluation failure, such as
    the server's refusal to [$divide] by zero. *)
Fixpoint eval (e : expr) (d : Item) : option value :=
  match e with
  | Field name => option_map VNum (field name d)
  | Const q => Some (VNum q)
  | Add es =>
      option_map VNum
        ((fix sum (es : list expr) : option Q :=
            match es with
            | [] => Some 0
            | e :: r => x <- as_num (eval e d) ;; y <- sum r ;; Some (x + y)
            end) es)
  | Multiply es =>
      option_map VNum
        ((fix prod (es : list expr) : option Q :=
            match es with
            | [] => Some 1
            | e :: r => x <- as_num (eval e d) ;; y <- prod r ;; Some (x * y)
            end) es)
  | Divide a b =>
      x <- as_num (eval a d) ;;
      y <- as_num (eval b d) ;;
      if Qeq_bool y 0 then None else Some (VNum (x / y))
  | Gt a b =>
      x <- as_num (eval a d) ;;
      y <- as_num (eval b d) ;;
      Some (VBool (negb (Qle_bool x y)))
  | Cond c t e =>
      b <- as_bool (eval c d) ;;
      if b then eval t d else eval e d
  end.

(** The [score] field added by [$addFields]. *)
Definition score_expr : expr :=
  Add [ Multiply [Field "rating"; Const 2];
        Cond (Gt (Field "stock") (Const 0)) (Const 5) (Const 0);
        Divide (Const 100) (Add [Field "price"; Const 1]) ].

(** A document after [$addFields]. *)
Record Ranked := { item : Item; score : Q }.

Definition add_fields (d : Item) : option Ranked :=
  s <- as_num (eval score_expr d) ;; Some {| item := d; score := s |}.

Definition ranked_field (name : string) (r : Ranked) : option Q :=
  if String.eqb name "score" then Some (score r) else field name (item r).

(** The [$sort] document: keys in order, [-1] descending, [1] ascending. *)
Definition sort_spec : list (string * Z) :=
  [("score", (-1)%Z); ("price", 1%Z); ("rating", (-1)%Z)].

(** [x] has to come strictly after [y] under a sort document. *)
Fixpoint sorts_after (spec : list (string * Z)) (x y : Ranked) : bool :=
  match spec with
  | [] => false
  | (key, dir) :: rest =>
      match ranked_field key x, ranked_field key y with
      | Some vx, Some vy =>
          if Qeq_bool vx vy then sorts_after rest x y
          else if (dir <? 0)%Z then negb (Qle_bool vy vx) else negb (Qle_bool vx vy)
      | _, _ => sorts_after rest x y
      end
  end.

Fixpoint add_fields_all (ds : list Item) : option (list Ranked) :=
  match ds with
  | [] => Some []
  | d :: r => x <- add_fields d ;; xs <- add_fields_all r ;; Some (x :: xs)
  end.

(** The stages after [$match], on the documents that matched:
    [$addFields], [$sort], [$limit]. *)
Definition pipeline (matched : list Item) : option (list Ranked) :=
  rs <- add_fields_all matched ;;
  Some (firstn 50 (stable_sort (sorts_after sort_spec) rs)).

(** Two stored products, one of them free. *)
Definition sample_items : list Item :=
  [ {| rating := 4.5; stock := 3; price := 70 |};
    {| rating := 4.8; stock := 0; price := 0 |} ].

(** The composite score in closed form. *)
Definition composite (d : Item) : Q :=
  rating d * 2 + (if Qle_bool (stock d) 0 then 0 else 5) + 100 / (price d + 1).

(** [a] may stand before [b]: score descending, then price ascending, then
    rating descending. *)
Definition ranked_before (a b : Ranked) : Prop :=
  score b < score a
  \/ (score a == score b
      /\ (price (item a) < price (item b)
          \/ (price (item a) == price (item b)
              /\ rating (item b) <= rating (item a)))).

(** [a] has to come strictly after [b]. *)
Definition strictly_after (a b : Ranked) : Prop :=
  score a < score b
  \/ (score a == score b
      /\ (price (item b) < price (item a)
          \/ (price (item a) == price (item b)
              /\ rating (item a) < rating (item b)))).

End Mongo.

(** ** The rescoring rule as the specification words it *)

Module Spec.

(** Attribute values are compared in canonical (lower-case) form; a field
    the candidate lacks reads as the empty text. *)
Definition canonical (v : option string) : string :=
  match v with
  | Some s => PyStr.lower s
  | None => ""
  end.

(** Steps 1 to 3 share one shape.  The step applies when the attribute is set
    and its confidence map exists; an exact match adds the target's
    confidence times [weight], anything else goes through [miss]. *)
Definition attribute_step (target : option string)
           (confidence_map : option (Py.dict float))
           (candidate : option string) (weight : float)
           (miss : float -> float) (running : float) : float :=
  match target, confidence_map with
  | Some t, Some conf =>
      if String.eqb (canonical candidate) t then
        match Py.get t conf with
        | Some c => running + c * weight
        | None => running
        end
      else miss running
  | _, _ => running
  end.

Definition shoe_categories : list string :=
  ["sneakers"; "flats"; "boots"; "sandals"; "heels"].

Definition step_brand (f : Filters) (p : Product) : float -> float :=
  attribute_step (brand f) (option_map brand_confidence (semantic_analysis f))
                 (product_brand p) 3.0 (fun s => s * 0.3).

Definition step_color (f : Filters) (p : Product) : float -> float :=
  attribute_step (color f) (option_map color_confidence (semantic_analysis f))
                 (product_color p) 2.0 (fun s => s * 0.4).

Definition step_category (f : Filters) (query : string) (p : Product)
  : float -> float :=
  attribute_step (category f) (option_map category_confidence (semantic_analysis f))
                 (product_category p) 1.5
                 (fun s =>
                    if PyStr.contains "shoes" (PyStr.lower query)
                       && PyStr.mem (canonical (product_category p)) shoe_categories
                    then s + 0.5 else s * 0.7).

(** Step 4: the candidate's gender is one of the terms the clause builder
    expands the target to. *)
Definition step_gender (f : Filters) (p : Product) (running : float) : float :=
  match gender f with
  | Some g =>
      if PyStr.mem (canonical (product_gender p)) (gender_should g)
      then running + 1.0 else running * 0.6
  | None => running
  end.

(** Step 5: one bonus per noun phrase found in the title. *)
Definition step_phrases (f : Filters) (p : Product) (running : float) : float :=
  let found :=
    filter (fun phrase => PyStr.contains phrase (canonical (title p)))
           (match semantic_analysis f with
            | Some sem => noun_phrases sem
            | None => []
            end) in
  fold_left (fun s _ => s + 0.8) found running.

(** The five steps in their fixed order, each fed the score of the one
    before, starting from the backend relevance score. *)
Definition rescore (f : Filters) (query : string) (p : Product)
           (backend_score : float) : float :=
  fold_left (fun running step => step running)
            [ step_brand f p; step_color f p; step_category f query p;
              step_gender f p; step_phrases f p ]
            backend_score.

End Spec.

(** ** Vocabulary of the statements *)

(** *** Filter sets *)

(** A resolved attribute is a non-empty lower-case text. *)
Definition canonical_value (v : option string) : bool :=
  match v with
  | Some s => negb (String.eqb s "") && String.eqb (PyStr.lower s) s
  | None => true
  end.

(** A resolved attribute has an entry in its confidence map, when the
    semantic analysis is there. *)
Definition has_confidence (v : option string) (sel : Semantic -> Py.dict float)
           (f : Filters) : bool :=
  match v, semantic_analysis f with
  | Some s, Some sem =>
      match Py.get s (sel sem) with
      | Some _ => true
      | None => false
      end
  | _, _ => true
  end.

(** The shape of every filter set the interpreter builds. *)
Definition well_formed (f : Filters) : bool :=
  canonical_value (brand f) && canonical_value (color f)
  && canonical_value (category f) && canonical_value (gender f)
  && has_confidence (brand f) brand_confidence f
  && has_confidence (color f) color_confidence f
  && has_confidence (category f) category_confidence f.

(** The attributes and bounds a filter set resolves to. *)
Definition resolved (f : Filters) (b c cat : option string) (pmax pmin : option Z)
  : Prop :=
  brand f = b /\ color f = c /\ category f = cat
  /\ price_max f = pmax /\ price_min f = pmin.

(** No canonical value of a table is the empty text. *)
Definition keys_nonempty (tbl : table) : bool :=
  forallb (fun '(k, _) => negb (String.eqb k "")) tbl.

(** Every canonical value of a table is a non-empty lower-case text. *)
Definition keys_canonical (tbl : table) : bool :=
  forallb (fun '(k, _) => canonical_value (Some k)) tbl.

(** An attribute as the degraded algorithm leaves it: unset, or truthy. *)
Definition resolve_result_ok (r : option string) : Prop :=
  r = None \/ PyStr.truthy r = true.

(** *** Clauses and conditions *)

(** The exact-match clauses of a clause list on one field. *)
Definition exact_on (field : string) (cs : list clause) : list clause :=
  filter (fun c => match c with
                   | term fld _ _ => String.eqb fld field
                   | _ => false
                   end) cs.

(** The fuzzy multi-field clauses. *)
Definition is_fuzzy (c : clause) : bool :=
  match c with
  | multi_match _ _ _ _ => true
  | _ => false
  end.

(** Upper and lower price bounds among clauses and conditions. *)
Definition is_range_lte (c : clause) : bool :=
  match c with
  | range_lte _ _ => true
  | _ => false
  end.

Definition is_range_gte (c : clause) : bool :=
  match c with
  | range_gte _ _ => true
  | _ => false
  end.

Definition is_lte (c : condition) : bool :=
  match c with
  | lte _ _ => true
  | _ => false
  end.

Definition is_gte (c : condition) : bool :=
  match c with
  | gte _ _ => true
  | _ => false
  end.

(** *** Annotations *)

(** The word spans of a text: every run of consecutive words, joined by
    single spaces.  The annotator's entity spans are of this kind. *)
Fixpoint runs_from (w : string) (rest : list string) : list string :=
  w :: match rest with
       | [] => []
       | w' :: rest' => map (fun t => (w ++ " " ++ t)%string) (runs_from w' rest')
       end.

Fixpoint word_spans_of (ws : list string) : list string :=
  match ws with
  | [] => []
  | w :: rest => runs_from w rest ++ word_spans_of rest
  end.

Definition word_spans (query : string) : list string :=
  word_spans_of (PyStr.split (PyStr.lower query)).

(** Every entity the annotator reports is a word span of the query. *)
Definition entities_are_spans (doc : Doc) (query : string) : Prop :=
  Forall (fun e => In (PyStr.lower (ent_text e)) (word_spans query)) (ents doc).

(** The annotator reports no entity under [label]. *)
Definition no_entity (label : string) (doc : Doc) : Prop :=
  Forall (fun e => label_ e <> label) (ents doc).

(** *** Patterns and digits *)

(** A compiled price pattern: one-character atoms, then the group [(\d+)]. *)
Inductive price_regex : Re.regex -> Prop :=
| price_group : price_regex [Re.GroupOpen; Re.Atom Re.CDigit Re.Plus; Re.GroupClose]
| price_atom c q r : price_regex r -> price_regex (Re.Atom c q :: r).

(** A pattern of the source that compiles to a price pattern. *)
Definition price_pattern (p : string) : Prop :=
  exists r, Re.compile p = Some r /\ price_regex r.

Fixpoint all_chars (P : ascii -> bool) (s : string) : bool :=
  match s with
  | EmptyString => true
  | String a r => P a && all_chars P r
  end.

(** A non-empty run of decimal digits. *)
Definition digit_string (s : string) : Prop :=
  s <> EmptyString /\ all_chars PyStr.is_digit s = true.

(** While group 1 reads [\d+]: the group is open and holds digits only. *)
Definition digit_run (st : Re.capture) : Prop :=
  Re.cap_open st = true /\
  exists ds, Re.cap_text st = Some ds /\ ds <> []
             /\ forallb PyStr.is_digit ds = true.

(** A text without pattern metacharacters. *)
Fixpoint plain_text (s : string) : bool :=
  match s with
  | EmptyString => true
  | String a r => negb (Re.is_meta a) && plain_text r
  end.

(** What a text without metacharacters compiles to, after a pending atom. *)
Fixpoint literal (pending : option Re.cls) (t : string) : Re.regex :=
  let flush (r : Re.regex) : Re.regex :=
    match pending with
    | Some c => Re.Atom c Re.One :: r
    | None => r
    end in
  match t with
  | EmptyString => flush []
  | String a r => flush (literal (Some (Re.CChar a)) r)
  end.

(** The pattern prefixes of the CARDINAL branch. *)
Definition cardinal_prefixes : list string :=
  [ "under\s+"; "below\s+"; "less\s+than\s+"; "<\s*"; "max\s+"; "budget\s+";
    "over\s+"; "above\s+"; "more\s+than\s+"; ">\s*"; "min\s+"; "minimum\s+" ].

(** *** Floats *)

(** A float that is zero, positive or plus infinity. *)
Definition nonneg (x : float) : Prop := PrimFloat.leb 0 x = true.

Definition not_nan (x : float) : Prop := PrimFloat.is_nan x = false.

(** *** Samples *)

Module Sample.

Definition word (t : string) (p : POS) (l : string) (stop : bool)
           (cs : list Child) : Token :=
  {| text := t; pos_ := p; lemma_ := l; is_stop := stop; children := cs |}.

(** "red nike sneakers under 80": the number is a CARDINAL entity and the
    adjective modifies the noun. *)
Definition red_nike : Doc :=
  {| ents := [ {| label_ := "CARDINAL"; ent_text := "80" |} ];
     tokens :=
       [ word "red" ADJ "red" false [];
         word "nike" PROPN "nike" false [];
         word "sneakers" NOUN "sneaker" false
              [ {| child_pos := ADJ; child_text := "red" |};
                {| child_pos := PROPN; child_text := "nike" |};
                {| child_pos := ADP; child_text := "under" |} ];
         word "under" ADP "under" true [ {| child_pos := NUM; child_text := "80" |} ];
         word "80" NUM "80" false [] ] |}.

(** "running shoes over 50" *)
Definition running_shoes : Doc :=
  {| ents := [ {| label_ := "CARDINAL"; ent_text := "50" |} ];
     tokens :=
       [ word "running" VERB "run" false [];
         word "shoes" NOUN "shoe" false [ {| child_pos := VERB; child_text := "running" |};
                                          {| child_pos := ADP; child_text := "over" |} ];
         word "over" ADP "over" true [ {| child_pos := NUM; child_text := "50" |} ];
         word "50" NUM "50" false [] ] |}.

(** An annotation without entities or tokens. *)
Definition bare : Doc := {| ents := []; tokens := [] |}.

End Sample.

(** The filter set of "red nike sneakers under 80" under [Sample.red_nike]. *)
Definition red_nike_semantic : Semantic :=
  {| noun_phrases := ["red sneakers"];
     adjective_modifiers := [("red", "sneakers")];
     brand_confidence := [("nike", 1.8)];
     color_confidence := [("red", 1.5)];
     category_confidence := [("sneakers", 1.0)] |}.

Definition red_nike_filters : Filters :=
  {| category := Some "sneakers";
     brand := Some "nike";
     color := Some "red";
     price_max := Some 80%Z;
     price_min := None;
     gender := None;
     keywords := ["red"; "nike"; "sneaker"];
     entities := Some [("CARDINAL", "80")];
     semantic_analysis := Some red_nike_semantic |}.

(** Two hits for that query. *)
Definition nike_air_max : Product :=
  {| title := Some "Nike Air Max Red Sneakers";
     product_brand := Some "Nike";
     product_color := Some "red";
     product_category := Some "sneakers";
     product_gender := Some "men";
     _score := Some 2.5 |}.

Definition adidas_runner : Product :=
  {| title := Some "Adidas Runner";
     product_brand := Some "adidas";
     product_color := Some "blue";
     product_category := Some "sneakers";
     product_gender := Some "women";
     _score := Some 3.5 |}.

(** The order of the floats that are not NaN, read off their decoding:
    sign class first, then exponent, then mantissa. *)
Module FloatOrder.

Definition rank (x : spec_float) : Z * Z * Z :=
  match x with
  | S754_zero _ => (0, 0, 0)
  | S754_infinity false => (2, 0, 0)
  | S754_infinity true => (-2, 0, 0)
  | S754_nan => (3, 0, 0)
  | S754_finite false m e => (1, e, Zpos m)
  | S754_finite true m e => (-1, - e, Zneg m)
  end%Z.

Definition lex_compare (a b : Z * Z * Z) : comparison :=
  let '(a1, a2, a3) := a in
  let '(b1, b2, b3) := b in
  match (a1 ?= b1)%Z with
  | Eq => match (a2 ?= b2)%Z with
          | Eq => (a3 ?= b3)%Z
          | c => c
          end
  | c => c
  end.

Definition lex_lt (a b : Z * Z * Z) : Prop :=
  let '(a1, a2, a3) := a in
  let '(b1, b2, b3) := b in
  (a1 < b1 \/ (a1 = b1 /\ (a2 < b2 \/ (a2 = b2 /\ a3 < b3))))%Z.

Definition frank (x : float) : Z * Z * Z := rank (Prim2SF x).

(** The decoding of a float that is zero, positive or plus infinity. *)
Definition sf_nonneg (x : spec_float) : Prop :=
  match x with
  | S754_nan => False
  | S754_infinity s => s = false
  | S754_zero _ => True
  | S754_finite s _ _ => s = false
  end.

(** A finite, strictly positive float. *)
Definition positive_constant (w : float) : Prop :=
  exists m e, Prim2SF w = S754_finite false m e.

End FloatOrder.

(** Every value of the three confidence maps is zero or more. *)
Definition confidences_nonneg (f : Filters) : Prop :=
  forall sem, semantic_analysis f = Some sem ->
              Forall (fun kv => nonneg (snd kv))
                     (brand_confidence sem ++ color_confidence sem
                      ++ category_confidence sem).

(** ** The request handler *)

(** The body of the rich backend's request. *)
Record EsQuery := {
  es_should : list clause;
  es_filter : option (list clause);
  es_minimum_should_match : nat;
  es_sort : list (string * string);
  es_size : nat
}.

(** The [filter] key is there only when a price clause was built. *)
Definition es_query (filters : Filters) (query : string) : EsQuery :=
  {| es_should := should_clauses filters query;
     es_filter := match filter_clauses filters with
                  | [] => None
                  | cs => Some cs
                  end;
     es_minimum_should_match := 1;
     es_sort := [("_score", "desc"); ("rating", "desc"); ("price", "asc")];
     es_size := 50 |}.

(** A hit of the rich backend. *)
Record Hit := { _source : Product; hit_score : float }.

(** [product = hit["_source"]; product["_score"] = hit["_score"]] *)
Definition product_of_hit (hit : Hit) : Product :=
  {| title := title (_source hit);
     product_brand := product_brand (_source hit);
     product_color := product_color (_source hit);
     product_category := product_category (_source hit);
     product_gender := product_gender (_source hit);
     _score := Some (hit_score hit) |}.

Section Handler.

(** Documents of the simple backend, and the rewriting of their [_id] into
    a string. *)
Variable MongoDoc : Type.
Variable str_id : MongoDoc -> MongoDoc.

(** What the handler answers: the products of one of the two backends, or
    the HTTP error 500. *)
Inductive response :=
| from_elasticsearch (products : list Scored)
| from_mongodb (products : list MongoDoc)
| http_500.

(** [search_products].  A backend handle is [None] when the backend is not
    configured; called, it answers [None] when it raises.  Every exception
    inside the rich backend's [try] leads on to the simple backend; every
    other exception, the "no backend configured" one included, ends in
    the error 500. *)
Definition search_products
           (nlp : option (string -> Doc))
           (es_client : option (EsQuery -> option (list Hit)))
           (mongo_client : option (option condition -> option (list MongoDoc)))
           (query : string) : response :=
  match parse_query_with_nlp nlp query with
  | None => http_500
  | Some filters =>
      let es_answer :=
        match es_client with
        | Some search =>
            option_map
              (fun hits => apply_nlp_scoring (map product_of_hit hits) filters query)
              (search (es_query filters query))
        | None => None
        end in
      match es_answer with
      | Some products => from_elasticsearch products
      | None =>
          match mongo_client with
          | Some aggregate =>
              match aggregate (mongo_query filters query) with
              | Some docs => from_mongodb (map str_id docs)
              | None => http_500
              end
          | None => http_500
          end
      end
  end.

End Handler.

Arguments from_elasticsearch {MongoDoc} products.
Arguments from_mongodb {MongoDoc} products.
Arguments http_500 {MongoDoc}.

(** ** Vocabulary of the further properties *)

Fixpoint any_char (P : ascii -> bool) (s : string) : bool :=
  match s with
  | EmptyString => false
  | String a r => P a || any_char P r
  end.

(** The text holds a decimal digit. *)
Definition has_digit (s : string) : bool := any_char PyStr.is_digit s.

(** [t] is [s] or what is left of [s] after some leading characters. *)
Fixpoint is_suffix (t s : string) : Prop :=
  t = s \/ match s with
           | EmptyString => False
           | String _ r => is_suffix t r
           end.

(** The first entry of a table one of whose variants occurs in the text. *)
Definition first_match (tbl : table) (query_lower : string) : option string :=
  option_map fst (find (fun '(_, variants) => any_in variants query_lower) tbl).

(** The entries of a table one of whose variants occurs in the text. *)
Definition matching_keys (tbl : table) (query_lower : string) : list string :=
  map fst (filter (fun '(_, variants) => any_in variants query_lower) tbl).

(** [k] holds the first greatest value of [d]: every value before it is
    strictly smaller, no value after it is greater. *)
Definition first_maximum (d : Py.dict float) (k : string) : Prop :=
  exists l1 v l2,
    d = l1 ++ (k, v) :: l2
    /\ Forall (fun kv => PrimFloat.ltb (snd kv) v = true) l1
    /\ Forall (fun kv => PrimFloat.leb (snd kv) v = true) l2.

(** The tokens whose lemma the annotated algorithm keeps as a keyword. *)
Definition keyword_token (token : Token) : bool :=
  Annotated.is_keyword_pos (pos_ token) && negb (is_stop token)
  && (2 <? PyStr.len (text token))%nat.

Definition is_noun (token : Token) : bool :=
  match pos_ token with
  | NOUN => true
  | _ => false
  end.

(** The phrase of a noun: its adjective children, each put before what is
    built so far. *)
Definition noun_phrase_of (token : Token) : string :=
  fold_left
    (fun noun_phrase child =>
       match child_pos child with
       | ADJ => (PyStr.lower (child_text child) ++ " " ++ noun_phrase)%string
       | _ => noun_phrase
       end)
    (children token) (PyStr.lower (text token)).

(** The last entity of a document under a label. *)
Definition last_entity (label : string) (doc : Doc) : option Ent :=
  find (fun e => String.eqb (label_ e) label) (rev (ents doc)).

(** The terms the simple backend searches the text fields for. *)
Definition search_terms (filters : Filters) (query : string) : list string :=
  match keywords filters with
  | [] => [PyStr.lower query]
  | kws => kws
  end.

(** "red nike sneakers" with the brand as an ORG entity. *)
Definition nike_org : Doc :=
  {| ents := [ {| label_ := "ORG"; ent_text := "Nike" |} ]; tokens := [] |}.

(** "boots over $50" with the amount as a MONEY entity. *)
Definition boots_over_money : Doc :=
  {| ents := [ {| label_ := "MONEY"; ent_text := "$50" |} ]; tokens := [] |}.

(** "big red shoes for me": both adjectives modify the noun. *)
Definition big_red_shoes : Doc :=
  {| ents := [];
     tokens :=
       [ Sample.word "big" ADJ "big" false [];
         Sample.word "red" ADJ "red" false [];
         Sample.word "shoes" NOUN "shoe" false
                     [ {| child_pos := ADJ; child_text := "big" |};
                       {| child_pos := ADJ; child_text := "red" |};
                       {| child_pos := ADP; child_text := "for" |} ];
         Sample.word "for" ADP "for" true [ {| child_pos := PRON; child_text := "me" |} ];
         Sample.word "me" PRON "I" true [] ] |}.

(** Two CARDINAL entities in one query. *)
Definition two_cardinals : Doc :=
  {| ents := [ {| label_ := "CARDINAL"; ent_text := "3" |};
               {| label_ := "CARDINAL"; ent_text := "80" |} ];
     tokens := [] |}.

(** * Proofs *)

(** ** Comparison of floats *)

Module FloatFacts.

Import FloatOrder.

Lemma SFcompare_rank (x y : spec_float) :
  x <> S754_nan -> y <> S754_nan ->
  SFcompare x y = Some (lex_compare (rank x) (rank y)).
Proof.
  intros Hx Hy.
  destruct x as [sx|sx| |sx mx ex], y as [sy|sy| |sy my ey]; try congruence;
    try destruct sx; try destruct sy; try reflexivity.
  cbn. rewrite Z.compare_opp, (Z.compare_antisym ey ex).
  destruct (ey ?= ex)%Z; reflexivity.
Qed.

Lemma not_nan_spec (x : float) : not_nan x <-> Prim2SF x <> S754_nan.
Proof.
  unfold not_nan, PrimFloat.is_nan. rewrite eqb_spec. unfold SFeqb.
  destruct (Prim2SF x) as [s|s| |s m e] eqn:E.
  1,2,4: split; [congruence|intros _].
  - reflexivity.
  - destruct s; reflexivity.
  - rewrite SFcompare_rank by congruence.
    destruct s; cbn; rewrite ?Z.compare_refl, ?Pos.compare_refl; cbn; rewrite ?Pos.compare_refl; reflexivity.
  - cbn. split; [discriminate | congruence].
Qed.

Lemma lex_compare_Lt (a b : Z * Z * Z) : lex_compare a b = Lt <-> lex_lt a b.
Proof.
  destruct a as [[a1 a2] a3], b as [[b1 b2] b3]. unfold lex_compare, lex_lt.
  destruct (Z.compare_spec a1 b1), (Z.compare_spec a2 b2), (Z.compare_spec a3 b3);
    split; intros Hc; try discriminate; try reflexivity; lia.
Qed.

Lemma lex_compare_Eq (a b : Z * Z * Z) : lex_compare a b = Eq <-> a = b.
Proof.
  destruct a as [[a1 a2] a3], b as [[b1 b2] b3]. unfold lex_compare.
  destruct (Z.compare_spec a1 b1), (Z.compare_spec a2 b2), (Z.compare_spec a3 b3);
    split; intros Hc; try discriminate; try reflexivity;
    try (injection Hc; intros; lia); subst; reflexivity.
Qed.

Lemma lex_compare_Gt (a b : Z * Z * Z) : lex_compare a b = Gt <-> lex_lt b a.
Proof.
  destruct a as [[a1 a2] a3], b as [[b1 b2] b3]. unfold lex_compare, lex_lt.
  destruct (Z.compare_spec a1 b1), (Z.compare_spec a2 b2), (Z.compare_spec a3 b3);
    split; intros Hc; try discriminate; try reflexivity; lia.
Qed.

(** The rank of a float that is not NaN. *)

Lemma ltb_rank (x y : float) :
  not_nan x -> not_nan y -> (PrimFloat.ltb x y = true <-> lex_lt (frank x) (frank y)).
Proof.
  intros Hx%not_nan_spec Hy%not_nan_spec.
  rewrite ltb_spec. unfold SFltb. rewrite SFcompare_rank by assumption.
  rewrite <- lex_compare_Lt. unfold frank.
  destruct (lex_compare (rank (Prim2SF x)) (rank (Prim2SF y))); split; congruence.
Qed.

Lemma leb_rank (x y : float) :
  not_nan x -> not_nan y ->
  (PrimFloat.leb x y = true <-> ~ lex_lt (frank y) (frank x)).
Proof.
  intros Hx%not_nan_spec Hy%not_nan_spec.
  rewrite leb_spec. unfold SFleb. rewrite SFcompare_rank by assumption.
  rewrite <- lex_compare_Gt. unfold frank.
  destruct (lex_compare (rank (Prim2SF x)) (rank (Prim2SF y)));
    split; intros H; try reflexivity; try discriminate; try congruence.
Qed.

Lemma ltb_true_not_nan (x y : float) :
  PrimFloat.ltb x y = true -> not_nan x /\ not_nan y.
Proof.
  rewrite ltb_spec. unfold SFltb. intros H.
  split; apply not_nan_spec; intros E; rewrite E in H; cbn in H;
    try discriminate; destruct (Prim2SF x); discriminate.
Qed.

Lemma eqb_true_not_nan (x y : float) :
  PrimFloat.eqb x y = true -> not_nan x /\ not_nan y.
Proof.
  rewrite eqb_spec. unfold SFeqb. intros H.
  split; apply not_nan_spec; intros E; rewrite E in H; cbn in H;
    try discriminate; destruct (Prim2SF x); discriminate.
Qed.

Lemma eqb_rank (x y : float) :
  PrimFloat.eqb x y = true <-> not_nan x /\ not_nan y /\ frank x = frank y.
Proof.
  split.
  - intros H. destruct (eqb_true_not_nan _ _ H) as [Hx Hy]. repeat split; trivial.
    apply not_nan_spec in Hx, Hy. rewrite eqb_spec in H. unfold SFeqb in H.
    rewrite SFcompare_rank in H by assumption. apply lex_compare_Eq.
    unfold frank. destruct (lex_compare (rank (Prim2SF x)) (rank (Prim2SF y))); congruence.
  - intros (Hx%not_nan_spec & Hy%not_nan_spec & E). rewrite eqb_spec. unfold SFeqb.
    rewrite SFcompare_rank by assumption. unfold frank in E.
    apply lex_compare_Eq in E. now rewrite E.
Qed.

(** Facts about [<], [<=] and [==] on floats. *)

Lemma ltb_asym (x y : float) : PrimFloat.ltb x y = true -> PrimFloat.ltb y x = false.
Proof.
  intros H. destruct (ltb_true_not_nan _ _ H) as [Hx Hy].
  apply ltb_rank in H; trivial.
  destruct (PrimFloat.ltb y x) eqn:E; trivial.
  apply ltb_rank in E; trivial.
  destruct (frank x) as [[a1 a2] a3], (frank y) as [[b1 b2] b3]. unfold lex_lt in *. lia.
Qed.

Lemma ltb_false_trans (x y z : float) :
  not_nan x -> not_nan y -> not_nan z ->
  PrimFloat.ltb x y = false -> PrimFloat.ltb y z = false -> PrimFloat.ltb x z = false.
Proof.
  intros Hx Hy Hz Hxy Hyz.
  destruct (PrimFloat.ltb x z) eqn:E; trivial.
  apply ltb_rank in E; trivial.
  assert (Nxy : ~ lex_lt (frank x) (frank y)) by (intros H; apply ltb_rank in H; trivial; congruence).
  assert (Nyz : ~ lex_lt (frank y) (frank z)) by (intros H; apply ltb_rank in H; trivial; congruence).
  destruct (frank x) as [[a1 a2] a3], (frank y) as [[b1 b2] b3], (frank z) as [[c1 c2] c3].
  unfold lex_lt in *. lia.
Qed.

Lemma ltb_false_leb (x y : float) :
  not_nan x -> not_nan y -> PrimFloat.ltb y x = false -> PrimFloat.leb x y = true.
Proof.
  intros Hx Hy H. apply leb_rank; trivial.
  intros L. apply ltb_rank in L; trivial. congruence.
Qed.

Lemma leb_ltb_false (x y : float) :
  PrimFloat.leb x y = true -> PrimFloat.ltb y x = false.
Proof.
  intros H. destruct (PrimFloat.ltb y x) eqn:E; trivial.
  destruct (ltb_true_not_nan _ _ E) as [Hy Hx].
  apply leb_rank in H; trivial. apply ltb_rank in E; trivial. contradiction.
Qed.

Lemma eqb_ltb_false (k x y : float) :
  PrimFloat.eqb k x = true -> PrimFloat.eqb k y = true -> PrimFloat.ltb x y = false.
Proof.
  intros (_ & Hx & Ex)%eqb_rank (_ & Hy & Ey)%eqb_rank.
  destruct (PrimFloat.ltb x y) eqn:E; trivial.
  apply ltb_rank in E; trivial. rewrite <- Ex, <- Ey in E.
  destruct (frank k) as [[a1 a2] a3]. unfold lex_lt in E. lia.
Qed.


(** Rounding a positive mantissa never produces NaN. *)

Lemma equal_keys_ltb_false (k x y : float) :
  PrimFloat.eqb x k = true -> PrimFloat.eqb y k = true -> PrimFloat.ltb x y = false.
Proof.
  intros (Hx & _ & Ex)%eqb_rank (Hy & _ & Ey)%eqb_rank.
  destruct (PrimFloat.ltb x y) eqn:E; trivial.
  apply ltb_rank in E; trivial. rewrite Ex, Ey in E.
  destruct (frank k) as [[a1 a2] a3]. unfold lex_lt in E. lia.
Qed.

(** Rounding a positive mantissa never produces NaN. *)

Lemma shr_1_nonneg (mrs : shr_record) : (0 <= shr_m mrs -> 0 <= shr_m (shr_1 mrs))%Z.
Proof.
  destruct mrs as [m r s]. cbn [shr_m]. intros H.
  destruct m as [|p|p]; [cbn; lia| |lia].
  destruct p; cbn; lia.
Qed.

Lemma iter_shr_1_nonneg (p : positive) (mrs : shr_record) :
  (0 <= shr_m mrs -> 0 <= shr_m (iter_pos shr_1 p mrs))%Z.
Proof.
  revert mrs. induction p as [p IH|p IH|]; intros mrs H; cbn [iter_pos].
  - apply IH, IH, shr_1_nonneg, H.
  - apply IH, IH, H.
  - apply shr_1_nonneg, H.
Qed.

Lemma shr_fexp_nonneg (pr em m e : Z) (l : location) :
  (0 <= m -> 0 <= shr_m (fst (shr_fexp pr em m e l)))%Z.
Proof.
  intros H. unfold shr_fexp, shr.
  assert (H0 : (0 <= shr_m (shr_record_of_loc m l))%Z)
    by (destruct l as [|[ | | ]]; exact H).
  destruct (_ - e)%Z; cbn [fst]; trivial.
  now apply iter_shr_1_nonneg.
Qed.

Lemma round_nearest_even_nonneg (m : Z) (l : location) :
  (0 <= m -> 0 <= round_nearest_even m l)%Z.
Proof.
  intros H. destruct l as [|[ | | ]]; cbn; try destruct (Z.even m); lia.
Qed.

Lemma binary_round_aux_shape (pr em : Z) (s : bool) (m : positive) (e : Z) :
  binary_round_aux pr em s (Zpos m) e loc_Exact = S754_zero s
  \/ binary_round_aux pr em s (Zpos m) e loc_Exact = S754_infinity s
  \/ exists m' e', binary_round_aux pr em s (Zpos m) e loc_Exact = S754_finite s m' e'.
Proof.
  unfold binary_round_aux.
  pose proof (shr_fexp_nonneg pr em (Zpos m) e loc_Exact ltac:(lia)) as H1.
  destruct (shr_fexp pr em (Zpos m) e loc_Exact) as [mrs1 e1]. cbn [fst] in H1.
  pose proof (shr_fexp_nonneg pr em _ e1 loc_Exact
                (round_nearest_even_nonneg _ (loc_of_shr_record mrs1) H1)) as H2.
  destruct (shr_fexp pr em _ e1 loc_Exact) as [mrs2 e2]. cbn [fst] in H2.
  destruct (shr_m mrs2) as [|p|p]; [now left| |lia].
  destruct (_ <=? _)%Z; right; [right; eauto|now left].
Qed.

Lemma binary_round_aux_not_nan (pr em : Z) (s : bool) (m : positive) (e : Z) :
  binary_round_aux pr em s (Zpos m) e loc_Exact <> S754_nan.
Proof.
  destruct (binary_round_aux_shape pr em s m e) as [H|[H|(m' & e' & H)]];
    rewrite H; discriminate.
Qed.

Lemma binary_round_aux_nonneg (pr em : Z) (m : positive) (e : Z) :
  sf_nonneg (binary_round_aux pr em false (Zpos m) e loc_Exact).
Proof.
  destruct (binary_round_aux_shape pr em false m e) as [H|[H|(m' & e' & H)]];
    rewrite H; reflexivity.
Qed.

(** Multiplying by a finite non-zero constant keeps a product away from NaN. *)
Lemma mul_not_nan (x w : float) :
  not_nan x ->
  (exists s m e, Prim2SF w = S754_finite s m e) ->
  not_nan (x * w).
Proof.
  intros Hx%not_nan_spec (s & m & e & Hw). apply not_nan_spec.
  rewrite mul_spec, Hw. unfold SF64mul.
  destruct (Prim2SF x) as [sx|sx| |sx mx ex]; try congruence; cbn [SFmul]; try discriminate.
  apply binary_round_aux_not_nan.
Qed.

(** Floats that are zero or more. *)

Lemma nonneg_spec (x : float) : nonneg x <-> sf_nonneg (Prim2SF x).
Proof.
  unfold nonneg. rewrite leb_spec.
  change (Prim2SF 0) with (S754_zero false).
  destruct (Prim2SF x) as [s|s| |s m e]; cbn; try destruct s; cbn;
    split; intros; try discriminate; try reflexivity; try contradiction; trivial.
Qed.

Lemma nonneg_not_nan (x : float) : nonneg x -> not_nan x.
Proof.
  intros H%nonneg_spec. apply not_nan_spec. intros E. now rewrite E in H.
Qed.

Lemma add_nonneg (x y : float) : nonneg x -> nonneg y -> nonneg (x + y).
Proof.
  intros Hx%nonneg_spec Hy%nonneg_spec. apply nonneg_spec.
  rewrite add_spec. unfold SF64add.
  destruct (Prim2SF x) as [sx|sx| |sx mx ex], (Prim2SF y) as [sy|sy| |sy my ey];
    cbn in Hx, Hy; try contradiction; subst; cbn [SFadd sf_nonneg]; trivial;
    try (destruct sx; reflexivity); try (destruct sy; reflexivity).
  - destruct sx, sy; reflexivity.
  - cbn [cond_Zopp Z.add binary_normalize]. unfold binary_round.
    destruct (shl_align _ _ _) as [mz ez]. apply binary_round_aux_nonneg.
Qed.

Lemma mul_nonneg (x w : float) : nonneg x -> positive_constant w -> nonneg (x * w).
Proof.
  intros Hx%nonneg_spec (m & e & Hw). apply nonneg_spec.
  rewrite mul_spec, Hw. unfold SF64mul.
  destruct (Prim2SF x) as [sx|sx| |sx mx ex]; cbn in Hx; try contradiction;
    subst; cbn [SFmul sf_nonneg xorb]; trivial.
  apply binary_round_aux_nonneg.
Qed.

End FloatFacts.

(** ** Stable sorting *)

Section StableSortFacts.

Context {A : Type} (after : A -> A -> bool).

Lemma insert_sorted_perm (x : A) (l : list A) :
  Permutation (insert_sorted after x l) (x :: l).
Proof.
  induction l as [|y r IH]; cbn; [reflexivity|].
  destruct (after x y); [|reflexivity].
  rewrite IH. apply perm_swap.
Qed.

Lemma stable_sort_perm (l : list A) : Permutation (stable_sort after l) l.
Proof.
  induction l as [|x r IH]; cbn; [reflexivity|].
  rewrite insert_sorted_perm. now constructor.
Qed.

(** Elements are ordered as soon as [after] is a strict weak order on them. *)
Variable ok : A -> Prop.
Hypothesis after_asym : forall x y, after x y = true -> after y x = false.
Hypothesis after_trans :
  forall x y z, ok x -> ok y -> ok z ->
                after x y = false -> after y z = false -> after x z = false.

Lemma insert_sorted_ordered (x : A) (l : list A) :
  ok x -> Forall ok l ->
  StronglySorted (in_order after) l -> StronglySorted (in_order after) (insert_sorted after x l).
Proof.
  intros Hx Hl Hs. induction Hs as [|y r Hs IH Hy]; cbn.
  - repeat constructor.
  - inversion Hl as [|? ? Oy Or]; subst.
    destruct (after x y) eqn:E.
    + constructor; [now apply IH|].
      eapply Permutation_Forall; [symmetry; apply insert_sorted_perm|].
      constructor; [now apply after_asym | exact Hy].
    + constructor; [now constructor|].
      constructor; [exact E|].
      rewrite Forall_forall in *. intros z Hz.
      apply (after_trans x y z); auto. now apply Hy.
Qed.

Lemma stable_sort_ordered (l : list A) :
  Forall ok l -> StronglySorted (in_order after) (stable_sort after l).
Proof.
  induction 1 as [|x r Hx Hr IH]; cbn; [constructor|].
  apply insert_sorted_ordered; trivial.
  eapply Permutation_Forall; [symmetry; apply stable_sort_perm|exact Hr].
Qed.

(** Elements of one class that never move past each other keep their order. *)
Lemma insert_sorted_stable (same : A -> bool) (x : A) (l : list A) :
  (forall a b, same a = true -> same b = true -> after a b = false) ->
  filter same (insert_sorted after x l) = filter same (x :: l).
Proof.
  intros Hsame. induction l as [|y r IH]; [reflexivity|].
  cbn [insert_sorted]. destruct (after x y) eqn:E; [|reflexivity].
  cbn [filter] in *. rewrite IH.
  destruct (same x) eqn:Sx, (same y) eqn:Sy; trivial.
  rewrite (Hsame x y Sx Sy) in E. discriminate.
Qed.

Lemma stable_sort_stable (same : A -> bool) (l : list A) :
  (forall a b, same a = true -> same b = true -> after a b = false) ->
  filter same (stable_sort after l) = filter same l.
Proof.
  intros Hsame. induction l as [|x r IH]; [reflexivity|].
  cbn [stable_sort fold_right]. rewrite insert_sorted_stable by exact Hsame.
  cbn [filter]. fold (stable_sort after r). now rewrite IH.
Qed.

End StableSortFacts.

(** ** Strings and integers *)

Module StrFacts.

Import PyStr.

Lemma digit_not_space (a : ascii) : is_digit a = true -> is_space a = false.
Proof.
  unfold is_digit, is_space. cbv zeta.
  destruct (N.leb_spec 48 (N_of_ascii a)), (N.leb_spec (N_of_ascii a) 57);
    try discriminate; intros _.
  destruct (N.leb_spec 9 (N_of_ascii a)), (N.leb_spec (N_of_ascii a) 13),
    (N.leb_spec 28 (N_of_ascii a)), (N.leb_spec (N_of_ascii a) 32);
    try reflexivity; lia.
Qed.

Lemma digit_value_nonneg (a : ascii) : is_digit a = true -> (0 <= digit_value a)%Z.
Proof.
  unfold is_digit, digit_value. cbv zeta.
  destruct (N.leb_spec 48 (N_of_ascii a)); [|discriminate]. lia.
Qed.

Lemma rstrip_digits (s : string) : all_chars is_digit s = true -> rstrip s = s.
Proof.
  induction s as [|a r IH]; [reflexivity|]. cbn.
  intros [Ha Hr]%andb_prop. rewrite (IH Hr).
  destruct r; [|reflexivity]. now rewrite (digit_not_space a Ha).
Qed.

Lemma strip_digits (s : string) : all_chars is_digit s = true -> strip s = s.
Proof.
  intros H. unfold strip. destruct s as [|a r]; [reflexivity|].
  cbn [lstrip]. pose proof H as [Ha _]%andb_prop.
  rewrite (digit_not_space a Ha). now apply rstrip_digits.
Qed.

Lemma int_body_digits (s : string) (acc : Z) :
  all_chars is_digit s = true -> (0 <= acc)%Z ->
  exists n, int_body acc true s = Some n /\ (0 <= n)%Z.
Proof.
  revert acc. induction s as [|a r IH]; intros acc H Hacc; cbn [int_body].
  - eauto.
  - cbn [all_chars] in H. apply andb_prop in H as [Ha Hr]. rewrite Ha.
    apply IH; trivial. pose proof (digit_value_nonneg a Ha). lia.
Qed.

(** [int] never fails on the text captured by [(\d+)], and the result is
    not negative. *)
Lemma int_digit_string (s : string) :
  digit_string s -> exists n, int s = Some n /\ (0 <= n)%Z.
Proof.
  intros [Hne H]. unfold int. rewrite (strip_digits s H).
  destruct s as [|a r]; [congruence|].
  pose proof H as [Ha Hr]%andb_prop.
  destruct (Ascii.eqb_spec a "+") as [->|_]; [discriminate|].
  destruct (Ascii.eqb_spec a "-") as [->|_]; [discriminate|].
  cbn [int_body]. rewrite Ha.
  apply int_body_digits; trivial. pose proof (digit_value_nonneg a Ha). lia.
Qed.

Lemma all_chars_of_list (P : ascii -> bool) (l : list ascii) :
  all_chars P (string_of_list_ascii l) = forallb P l.
Proof.
  induction l as [|a r IH]; [reflexivity|]. cbn. now rewrite IH.
Qed.

End StrFacts.

(** ** Patterns *)

Module ReFacts.

Import Re.

(** Whatever greedy repetition returns comes from its continuation, run on a
    state reached by pushing matching characters. *)
Lemma greedy_inv (c : cls) (k : string -> capture -> option capture)
      (Inv : capture -> Prop) :
  (forall a st, cls_match c a = true -> Inv st -> Inv (cap_push a st)) ->
  forall s st res, Inv st -> greedy c k s st = Some res ->
                   exists s1 st1, Inv st1 /\ k s1 st1 = Some res.
Proof.
  intros Hpush. induction s as [|a r IH]; intros st res Hst H; cbn in H.
  - eauto.
  - destruct (cls_match c a) eqn:E; [|eauto].
    destruct (greedy c k r (cap_push a st)) eqn:G; [|eauto].
    injection H as <-. eapply IH; [|exact G]. auto.
Qed.

Lemma digit_run_push (a : ascii) (st : capture) :
  cls_match CDigit a = true -> digit_run st -> digit_run (cap_push a st).
Proof.
  intros Ha (Ho & ds & Ht & Hne & Hd). unfold cap_push. rewrite Ho, Ht.
  split; [reflexivity|]. exists (a :: ds). cbn in *. rewrite Ha, Hd.
  repeat split; congruence.
Qed.

Lemma match_here_price (r : regex) :
  price_regex r ->
  forall s st res, match_here r s st = Some res ->
                   exists g, group1 (mk_match res) = Some g /\ digit_string g.
Proof.
  induction 1 as [|c q r Hr IH]; intros s st res H.
  - cbn in H. destruct s as [|a t]; [discriminate|].
    destruct (PyStr.is_digit a) eqn:Ha; [|discriminate].
    apply (greedy_inv CDigit _ digit_run digit_run_push) in H.
    + destruct H as (s1 & st1 & (Ho & ds & Ht & Hne & Hd) & Hk).
      injection Hk as <-. unfold mk_match, cap_stop. cbn. rewrite Ht. cbn.
      eexists; split; [reflexivity|]. split.
      * destruct ds as [|d ds']; [congruence|]. cbn.
        destruct (rev ds'); discriminate.
      * rewrite StrFacts.all_chars_of_list, forallb_forall.
        rewrite forallb_forall in Hd. intros x Hx%in_rev. auto.
    + split; [reflexivity|]. exists [a]. cbn. rewrite Ha.
      repeat split; congruence.
  - destruct q; cbn in H.
    + destruct s as [|a t]; [discriminate|].
      destruct (cls_match c a); [eauto|discriminate].
    + apply (greedy_inv c _ (fun _ => True)) in H; auto.
      destruct H as (s1 & st1 & _ & Hk). eauto.
    + destruct s as [|a t]; [discriminate|].
      destruct (cls_match c a); [|discriminate].
      apply (greedy_inv c _ (fun _ => True)) in H; auto.
      destruct H as (s1 & st1 & _ & Hk). eauto.
Qed.

Lemma search_compiled_price (r : regex) (s : string) (m : rmatch) :
  price_regex r -> search_compiled r s = Some m ->
  exists g, group1 m = Some g /\ digit_string g.
Proof.
  intros Hr. induction s as [|a t IH]; cbn; intros H.
  - destruct (match_here r "" cap_init) eqn:E; [|discriminate].
    injection H as <-. eapply match_here_price; eauto.
  - destruct (match_here r (String a t) cap_init) eqn:E; [|auto].
    injection H as <-. eapply match_here_price; eauto.
Qed.

(** Patterns with an interpolated text. *)

Lemma parse_plain (t : string) :
  plain_text t = true ->
  forall pending, parse pending false t = Some (literal pending t).
Proof.
  induction t as [|a r IH]; cbn [plain_text]; intros H pending; [reflexivity|].
  apply andb_prop in H as [Ha%negb_true_iff Hr].
  cbn [parse literal].
  destruct (Ascii.eqb_spec a "\") as [->|_]; [discriminate|].
  destruct (Ascii.eqb_spec a "+") as [->|_]; [discriminate|].
  destruct (Ascii.eqb_spec a "*") as [->|_]; [discriminate|].
  destruct (Ascii.eqb_spec a "(") as [->|_]; [discriminate|].
  destruct (Ascii.eqb_spec a ")") as [->|_]; [discriminate|].
  rewrite Ha, (IH Hr). reflexivity.
Qed.

Lemma grouping_literal (state : nat) (pending : option cls) (t : string) :
  grouping state (literal pending t) = grouping state [].
Proof.
  revert pending. induction t as [|a r IH]; intros pending; cbn [literal].
  - destruct pending; reflexivity.
  - destruct pending; cbn [grouping]; apply IH.
Qed.

Lemma compile_cardinal (pre t : string) :
  In pre cardinal_prefixes -> plain_text t = true ->
  exists r, compile (pre ++ t) = Some r.
Proof.
  intros Hin Ht. unfold compile, cardinal_prefixes in *.
  repeat (destruct Hin as [<-|Hin];
          [simpl; rewrite (parse_plain t Ht); simpl;
           rewrite grouping_literal; simpl; eauto|]).
  contradiction.
Qed.

End ReFacts.

(** ** Price extraction *)

(** A list of price patterns always yields an answer, and a bound it yields
    is not negative. *)
Lemma first_price_total (patterns : list string) (s : string) :
  Forall price_pattern patterns ->
  exists r, first_price patterns s = Some r
            /\ (forall n, r = Some n -> (0 <= n)%Z).
Proof.
  induction 1 as [|p ps (r & Hc & Hr) _ IH]; cbn.
  - eexists; split; [reflexivity|discriminate].
  - unfold Re.search. rewrite Hc. cbn.
    destruct (Re.search_compiled r s) as [m|] eqn:E; [|exact IH].
    destruct (ReFacts.search_compiled_price r s m Hr E) as (g & Hg & Hd).
    rewrite Hg. destruct (StrFacts.int_digit_string g Hd) as (n & Hn & Hpos).
    rewrite Hn. eexists; split; [reflexivity|].
    intros n' [= <-]. exact Hpos.
Qed.

Ltac price_patterns :=
  repeat (constructor; [eexists; split; [vm_compute; reflexivity|repeat constructor]|]);
  constructor.

Lemma fallback_under_patterns_ok : Forall price_pattern Fallback.under_patterns.
Proof. price_patterns. Qed.

Lemma fallback_over_patterns_ok : Forall price_pattern Fallback.over_patterns.
Proof. price_patterns. Qed.

Lemma annotated_under_patterns_ok : Forall price_pattern Annotated.under_patterns.
Proof. price_patterns. Qed.

Lemma annotated_over_patterns_ok : Forall price_pattern Annotated.over_patterns.
Proof. price_patterns. Qed.

Lemma regex_prices_total (under over : list string) (q : string)
      (bounds : option Z * option Z) :
  Forall price_pattern under -> Forall price_pattern over ->
  exists r, regex_prices under over q bounds = Some r.
Proof.
  intros Hu Ho. unfold regex_prices.
  destruct (first_price_total under q Hu) as (u & -> & _).
  destruct (first_price_total over q Ho) as (o & -> & _).
  destruct (negb _); eauto.
Qed.

(** The degraded algorithm returns a filter set for every text. *)
Lemma parse_query_fallback_total (query_lower : string) :
  exists f, Fallback.parse_query_fallback query_lower = Some f.
Proof.
  unfold Fallback.parse_query_fallback.
  destruct (regex_prices_total Fallback.under_patterns Fallback.over_patterns
              query_lower (None, None)
              fallback_under_patterns_ok fallback_over_patterns_ok) as (b & ->).
  eauto.
Qed.

(** What the degraded algorithm puts into each field. *)
Lemma parse_query_fallback_fields (ql : string) (f : Filters) :
  Fallback.parse_query_fallback ql = Some f ->
  category f = Fallback.resolve Fallback.category_synonyms ql None
  /\ brand f = Fallback.resolve Fallback.brand_synonyms ql None
  /\ color f = Fallback.resolve Fallback.color_synonyms ql None
  /\ gender f = Fallback.resolve Fallback.gender_synonyms ql None
  /\ keywords f = Fallback.words ql
  /\ entities f = None
  /\ semantic_analysis f = None
  /\ regex_prices Fallback.under_patterns Fallback.over_patterns ql (None, None)
     = Some (price_max f, price_min f).
Proof.
  unfold Fallback.parse_query_fallback.
  destruct (regex_prices Fallback.under_patterns Fallback.over_patterns ql (None, None))
    as [[pmax pmin]|]; [|discriminate].
  intros H. inversion H. repeat split.
Qed.

(** What the annotated algorithm puts into each field. *)
Lemma parse_annotated_fields (doc : Doc) (query : string) (f : Filters) :
  Annotated.parse_annotated doc query = Some f ->
  let ql := PyStr.lower query in
  let scan := Annotated.scan_tokens doc in
  let sem :=
    {| noun_phrases := Annotated.scan_noun_phrases scan;
       adjective_modifiers := Annotated.scan_adjective_modifiers scan;
       brand_confidence :=
         Annotated.accumulate (Annotated.brand_score ql) Annotated.brand_entities ql;
       color_confidence :=
         Annotated.accumulate
           (Annotated.color_score (Annotated.scan_adjective_modifiers scan))
           Annotated.color_entities ql;
       category_confidence :=
         Annotated.accumulate
           (Annotated.category_score (Annotated.scan_noun_phrases scan))
           Annotated.category_entities ql |} in
  semantic_analysis f = Some sem
  /\ category f = Py.argmax (category_confidence sem)
  /\ brand f = Py.argmax (brand_confidence sem)
  /\ color f = Py.argmax (color_confidence sem)
  /\ gender f = Annotated.gender_of ql
  /\ keywords f = Annotated.scan_keywords scan
  /\ entities f = Some (Annotated.entities_of doc)
  /\ Annotated.price_bounds (Annotated.entities_of doc) ql
     = Some (price_max f, price_min f).
Proof.
  unfold Annotated.parse_annotated.
  destruct (Annotated.price_bounds (Annotated.entities_of doc) (PyStr.lower query))
    as [[pmax pmin]|]; [|discriminate].
  intros H. inversion H. repeat split.
Qed.

(** The loops of the CARDINAL branch answer whenever their patterns
    compile. *)
Lemma cardinal_price_total (patterns : list string) (q c : string) :
  Forall (fun p => exists r, Re.compile p = Some r) patterns ->
  exists r, cardinal_price patterns q c = Some r.
Proof.
  induction 1 as [|p ps (r & Hc) _ IH]; cbn [cardinal_price]; [eauto|].
  unfold Re.search. rewrite Hc. cbn [option_map].
  destruct (Re.search_compiled r q), (PyStr.int c); eauto.
Qed.

Lemma cardinal_patterns_compile (c : string) :
  plain_text c = true ->
  Forall (fun p => exists r, Re.compile p = Some r)
         (Annotated.cardinal_under_patterns c)
  /\ Forall (fun p => exists r, Re.compile p = Some r)
            (Annotated.cardinal_over_patterns c).
Proof.
  intros Hc. split; repeat constructor;
    apply ReFacts.compile_cardinal; trivial; cbn; tauto.
Qed.

Lemma entity_prices_total (ef : Py.dict string) (q : string) :
  plain_text (Py.get_default "CARDINAL" "" ef) = true ->
  exists b, Annotated.entity_prices ef q = Some b.
Proof.
  intros Hc. unfold Annotated.entity_prices.
  destruct (PyStr.truthy (Py.get "MONEY" ef)).
  - destruct (first_price_total ["(\d+)"] (Py.get_default "MONEY" "" ef))
      as (r & Hr & _).
    { price_patterns. }
    cbn [first_price] in Hr.
    destruct (Re.search "(\d+)" (Py.get_default "MONEY" "" ef)) as [[mt|]|];
      [|eauto|discriminate].
    destruct (Re.group1 mt) as [g|]; [|discriminate].
    destruct (PyStr.int g); [eauto|discriminate].
  - destruct (PyStr.truthy (Py.get "CARDINAL" ef)); [|eauto].
    destruct (cardinal_patterns_compile _ Hc) as [Hu Ho].
    destruct (cardinal_price_total _ q (Py.get_default "CARDINAL" "" ef) Hu) as (u & ->).
    destruct u; [eauto|].
    destruct (cardinal_price_total _ q (Py.get_default "CARDINAL" "" ef) Ho) as (o & ->).
    eauto.
Qed.

(** The annotated algorithm returns a filter set whenever the text of the
    CARDINAL entity, if there is one, holds no pattern metacharacter. *)
Lemma parse_annotated_total (doc : Doc) (query : string) :
  plain_text (Py.get_default "CARDINAL" "" (Annotated.entities_of doc)) = true ->
  exists f, Annotated.parse_annotated doc query = Some f.
Proof.
  intros Hc. unfold Annotated.parse_annotated, Annotated.price_bounds.
  destruct (entity_prices_total _ (PyStr.lower query) Hc) as (b & ->).
  destruct (regex_prices_total Annotated.under_patterns Annotated.over_patterns
              (PyStr.lower query) b
              annotated_under_patterns_ok annotated_over_patterns_ok) as (r & ->).
  destruct (_ && _); eauto.
Qed.

(** ** Dicts *)

Module DictFacts.

Lemma get_set {V : Type} (k k' : string) (v : V) (d : Py.dict V) :
  Py.get k (Py.set k' v d) = if String.eqb k' k then Some v else Py.get k d.
Proof.
  induction d as [|[k0 v0] r IH]; cbn.
  - reflexivity.
  - destruct (String.eqb_spec k0 k') as [->|N]; cbn.
    + destruct (String.eqb k' k); reflexivity.
    + rewrite IH. destruct (String.eqb_spec k' k) as [->|N'].
      * apply String.eqb_neq in N. now rewrite N.
      * reflexivity.
Qed.

Lemma keys_set {V : Type} (k : string) (v : V) (d : Py.dict V) :
  forall x, In x (map fst (Py.set k v d)) -> x = k \/ In x (map fst d).
Proof.
  induction d as [|[k0 v0] r IH]; cbn; intros x H.
  - destruct H as [<-|[]]. now left.
  - destruct (String.eqb k0 k); cbn in H.
    + destruct H as [<-|H]; auto.
    + destruct H as [<-|H]; auto. destruct (IH x H); auto.
Qed.

Lemma get_in_keys {V : Type} (k : string) (d : Py.dict V) :
  In k (map fst d) -> exists v, Py.get k d = Some v.
Proof.
  induction d as [|[k0 v0] r IH]; cbn; [tauto|].
  intros H. destruct (String.eqb_spec k0 k) as [->|N]; [eauto|].
  destruct H as [->|H]; [congruence|auto].
Qed.

End DictFacts.

(** ** What the entity dict holds *)

Lemma entities_of_get (doc : Doc) (k v : string) :
  Py.get k (Annotated.entities_of doc) = Some v ->
  exists e, In e (ents doc) /\ label_ e = k /\ v = PyStr.lower (ent_text e).
Proof.
  unfold Annotated.entities_of.
  assert (G : forall l d,
             Py.get k (fold_left (fun d ent =>
                                    Py.set (label_ ent) (PyStr.lower (ent_text ent)) d) l d)
             = Some v ->
             Py.get k d = Some v \/
             exists e, In e l /\ label_ e = k /\ v = PyStr.lower (ent_text e)).
  { induction l as [|e r IH]; cbn; intros d H; [now left|].
    destruct (IH _ H) as [H1|(e' & Hin & Hl & Hv)].
    - rewrite DictFacts.get_set in H1.
      destruct (String.eqb_spec (label_ e) k) as [E|_]; [|now left].
      injection H1 as <-. right. exists e. auto.
    - right. exists e'. auto. }
  intros H. destruct (G _ _ H) as [H1|H1]; [discriminate|exact H1].
Qed.

Lemma entities_of_span (doc : Doc) (query k v : string) :
  entities_are_spans doc query ->
  Py.get k (Annotated.entities_of doc) = Some v -> In v (word_spans query).
Proof.
  intros Hs H. destruct (entities_of_get doc k v H) as (e & Hin & _ & ->).
  unfold entities_are_spans in Hs. rewrite Forall_forall in Hs. auto.
Qed.

Lemma entities_of_none (doc : Doc) (label : string) :
  no_entity label doc -> Py.get label (Annotated.entities_of doc) = None.
Proof.
  intros Hn. destruct (Py.get label (Annotated.entities_of doc)) as [v|] eqn:E; trivial.
  destruct (entities_of_get doc label v E) as (e & Hin & Hl & _).
  unfold no_entity in Hn. rewrite Forall_forall in Hn. now destruct (Hn e Hin).
Qed.

(** ** The two sample queries *)

Ltac span_cases H :=
  vm_compute in H;
  repeat (destruct H as [<-|H]; [vm_compute; reflexivity|]);
  contradiction.

Lemma price_bounds_red_nike (ef : Py.dict string) :
  (forall k v, Py.get k ef = Some v -> In v (word_spans "red nike sneakers under 80")) ->
  Annotated.price_bounds ef "red nike sneakers under 80" = Some (Some 80%Z, None).
Proof.
  intros H. unfold Annotated.price_bounds, Annotated.entity_prices, Py.get_default.
  destruct (Py.get "MONEY" ef) as [m|] eqn:EM.
  - apply H in EM. span_cases EM.
  - destruct (Py.get "CARDINAL" ef) as [c|] eqn:EC.
    + apply H in EC. span_cases EC.
    + vm_compute. reflexivity.
Qed.

Lemma price_bounds_running_shoes (ef : Py.dict string) :
  Py.get "MONEY" ef = None ->
  (forall k v, Py.get k ef = Some v -> In v (word_spans "running shoes over 50")) ->
  Annotated.price_bounds ef "running shoes over 50" = Some (None, Some 50%Z).
Proof.
  intros HM H. unfold Annotated.price_bounds, Annotated.entity_prices, Py.get_default.
  rewrite HM.
  destruct (Py.get "CARDINAL" ef) as [c|] eqn:EC.
  - apply H in EC. span_cases EC.
  - vm_compute. reflexivity.
Qed.

(** C3.  The query "red nike sneakers under 80" resolves to brand nike,
    color red, category sneakers and price_max 80 with price_min unset: on
    the degraded path, and on the annotated path whatever tokens the
    annotator reports, as long as its entities are word spans of the query. *)
Theorem red_nike_sneakers_under_80 (annotate : string -> Doc) :
  entities_are_spans (annotate "red nike sneakers under 80")
                     "red nike sneakers under 80" ->
  (exists f, parse_query_with_nlp None "red nike sneakers under 80" = Some f
             /\ resolved f (Some "nike") (Some "red") (Some "sneakers")
                         (Some 80%Z) None)
  /\ (exists f, parse_query_with_nlp (Some annotate) "red nike sneakers under 80" = Some f
                /\ resolved f (Some "nike") (Some "red") (Some "sneakers")
                            (Some 80%Z) None).
Proof.
  intros Hs. split.
  - eexists. split; [vm_compute; reflexivity|]. repeat split.
  - unfold parse_query_with_nlp, Annotated.parse_annotated.
    change (PyStr.lower "red nike sneakers under 80") with "red nike sneakers under 80".
    rewrite price_bounds_red_nike
      by (intros k v; apply entities_of_span; exact Hs).
    eexists. split; [reflexivity|].
    generalize (Annotated.scan_tokens (annotate "red nike sneakers under 80")).
    intros scan. unfold resolved. cbn [brand color category price_max price_min fst snd].
    generalize (Annotated.color_score (Annotated.scan_adjective_modifiers scan)).
    generalize (Annotated.category_score (Annotated.scan_noun_phrases scan)).
    intros sc1 sc2. repeat split; vm_compute; reflexivity.
Qed.

Lemma red_nike_sneakers_under_80_witness :
  entities_are_spans Sample.red_nike "red nike sneakers under 80"
  /\ (exists f, parse_query_with_nlp None "red nike sneakers under 80" = Some f
                /\ resolved f (Some "nike") (Some "red") (Some "sneakers")
                            (Some 80%Z) None)
  /\ (exists f, parse_query_with_nlp (Some (fun _ => Sample.red_nike))
                                     "red nike sneakers under 80" = Some f
                /\ resolved f (Some "nike") (Some "red") (Some "sneakers")
                            (Some 80%Z) None).
Proof.
  assert (H : entities_are_spans Sample.red_nike "red nike sneakers under 80").
  { constructor; [|constructor]. vm_compute. tauto. }
  split; [exact H|].
  exact (red_nike_sneakers_under_80 (fun _ => Sample.red_nike) H).
Defined.

(** C4.  The query "running shoes over 50" resolves to category sneakers
    and price_min 50 with price_max unset, on the degraded path and on the
    annotated path when the annotator reports no MONEY entity.  No pattern
    of the under-lists matches the query, and the first pattern of the
    over-lists matches with the number 50. *)
Theorem running_shoes_over_50 (annotate : string -> Doc) :
  no_entity "MONEY" (annotate "running shoes over 50") ->
  entities_are_spans (annotate "running shoes over 50") "running shoes over 50" ->
  (exists f, parse_query_with_nlp None "running shoes over 50" = Some f
             /\ category f = Some "sneakers"
             /\ price_min f = Some 50%Z /\ price_max f = None)
  /\ (exists f, parse_query_with_nlp (Some annotate) "running shoes over 50" = Some f
                /\ category f = Some "sneakers"
                /\ price_min f = Some 50%Z /\ price_max f = None)
  /\ Forall (fun p => Re.search p "running shoes over 50" = Some None)
            (Fallback.under_patterns ++ Annotated.under_patterns
             ++ Annotated.cardinal_under_patterns "50")
  /\ Forall (fun ps => exists rest,
                 ps = "over\s+(\d+)" :: rest
                 /\ first_price ps "running shoes over 50" = Some (Some 50%Z))
            [Fallback.over_patterns; Annotated.over_patterns]
  /\ (exists rest, Annotated.cardinal_over_patterns "50" = "over\s+50" :: rest)
  /\ Re.search "over\s+(\d+)" "running shoes over 50"
     = Some (Some {| Re.group1 := Some "50" |})
  /\ (exists m, Re.search "over\s+50" "running shoes over 50" = Some (Some m)).
Proof.
  intros Hm Hs. split; [|split; [|split; [|split; [|split; [|split]]]]].
  - eexists. split; [vm_compute; reflexivity|]. repeat split.
  - unfold parse_query_with_nlp, Annotated.parse_annotated.
    change (PyStr.lower "running shoes over 50") with "running shoes over 50".
    rewrite price_bounds_running_shoes;
      [|apply entities_of_none; exact Hm
       |intros k v; apply entities_of_span; exact Hs].
    eexists. split; [reflexivity|].
    generalize (Annotated.scan_tokens (annotate "running shoes over 50")).
    intros scan. cbn [category price_max price_min fst snd].
    generalize (Annotated.category_score (Annotated.scan_noun_phrases scan)).
    intros sc. repeat split; vm_compute; reflexivity.
  - repeat constructor.
  - repeat constructor; eexists; split; reflexivity.
  - eexists. reflexivity.
  - reflexivity.
  - eexists. reflexivity.
Qed.

Lemma running_shoes_over_50_witness :
  no_entity "MONEY" Sample.running_shoes
  /\ entities_are_spans Sample.running_shoes "running shoes over 50"
  /\ exists f, parse_query_with_nlp (Some (fun _ => Sample.running_shoes))
                                    "running shoes over 50" = Some f
               /\ category f = Some "sneakers"
               /\ price_min f = Some 50%Z /\ price_max f = None.
Proof.
  assert (Hm : no_entity "MONEY" Sample.running_shoes).
  { repeat constructor. discriminate. }
  assert (Hs : entities_are_spans Sample.running_shoes "running shoes over 50").
  { constructor; [|constructor]. vm_compute. tauto. }
  split; [exact Hm|]. split; [exact Hs|].
  exact (proj1 (proj2 (running_shoes_over_50 (fun _ => Sample.running_shoes) Hm Hs))).
Defined.

(** ** Price bounds *)

(** The entity branches set at most one bound. *)
Lemma entity_prices_one (ef : Py.dict string) (q : string) (b : option Z * option Z) :
  Annotated.entity_prices ef q = Some b -> fst b = None \/ snd b = None.
Proof.
  unfold Annotated.entity_prices.
  destruct (PyStr.truthy (Py.get "MONEY" ef)).
  - destruct (Re.search _ _) as [[mt|]|]; try discriminate.
    + destruct (Re.group1 mt) as [g|]; [|discriminate].
      destruct (PyStr.int g); [|discriminate]. intros [= <-]. now right.
    + intros [= <-]. now left.
  - destruct (PyStr.truthy (Py.get "CARDINAL" ef)).
    + destruct (cardinal_price _ _ _) as [[n|]|]; try discriminate.
      * intros [= <-]. now right.
      * destruct (cardinal_price _ _ _); [|discriminate]. intros [= <-]. now left.
    + intros [= <-]. now left.
Qed.

(** The plain patterns never leave two non-zero bounds when they start from
    bounds that are both falsy. *)
Lemma regex_prices_exclusive (under over : list string) (q : string)
      (b r : option Z * option Z) :
  price_truthy (fst b) = false -> price_truthy (snd b) = false ->
  regex_prices under over q b = Some r ->
  price_truthy (fst r) && price_truthy (snd r) = false.
Proof.
  intros H1 H2. unfold regex_prices.
  destruct (first_price under q) as [u|]; [|discriminate].
  destruct (price_truthy (match u with Some n => Some n | None => fst b end)) eqn:E; cbn.
  - intros [= <-]. cbn. rewrite H2. apply andb_false_r.
  - destruct (first_price over q); [|discriminate]. intros [= <-]. cbn. now rewrite E.
Qed.

(** Whichever algorithm ran, at most one bound of the filter set is a
    non-zero number. *)
Lemma bounds_not_both_truthy (nlp : option (string -> Doc)) (query : string) (f : Filters) :
  parse_query_with_nlp nlp query = Some f ->
  price_truthy (price_max f) && price_truthy (price_min f) = false.
Proof.
  unfold parse_query_with_nlp. destruct nlp as [annotate|].
  - unfold Annotated.parse_annotated, Annotated.price_bounds.
    destruct (Annotated.entity_prices _ _) as [b|] eqn:E; [|discriminate].
    destruct (negb (price_truthy (fst b)) && negb (price_truthy (snd b))) eqn:T.
    + destruct (regex_prices _ _ _ b) as [r|] eqn:R; [|discriminate].
      intros [= <-]. cbn.
      apply andb_prop in T as [T1%negb_true_iff T2%negb_true_iff].
      eapply regex_prices_exclusive; eauto.
    + intros [= <-]. cbn.
      destruct (entity_prices_one _ _ _ E) as [-> | ->]; cbn; trivial.
      apply andb_false_r.
  - unfold Fallback.parse_query_fallback.
    destruct (regex_prices _ _ _ _) as [r|] eqn:R; [|discriminate].
    intros [= <-]. cbn. eapply regex_prices_exclusive; [| |exact R]; reflexivity.
Qed.

(** C1.  The claim that the two bounds are never both set fails at the
    query "under 0 over 50": the under-pattern sets price_max to 0, the test
    that guards the over-patterns takes 0 for "unset", and price_min is set
    to 50 as well.  This happens on the degraded path and on the annotated
    path (here with an annotation that reports no entity). *)
Theorem both_bounds_set_under_0_over_50 :
  (exists f, parse_query_with_nlp None "under 0 over 50" = Some f
             /\ price_max f = Some 0%Z /\ price_min f = Some 50%Z)
  /\ (exists f, parse_query_with_nlp (Some (fun _ => Sample.bare)) "under 0 over 50"
                = Some f
                /\ price_max f = Some 0%Z /\ price_min f = Some 50%Z).
Proof.
  split; (eexists; split; [vm_compute; reflexivity|split; reflexivity]).
Qed.

(** C10.  A bound of 0 counts as unset.  (1) When the entity branches leave a
    bound of 0, the plain patterns still run, starting from those bounds.
    (2) When an under-pattern yields 0 the over-patterns still run.  (3) The
    clause builder of the rich backend emits no range filter, and that of
    the simple backend no price predicate, for a bound of 0. *)
Theorem zero_bound_counts_as_unset :
  (forall ef q b,
      Annotated.entity_prices ef q = Some b ->
      fst b = Some 0%Z \/ snd b = Some 0%Z ->
      Annotated.price_bounds ef q
      = regex_prices Annotated.under_patterns Annotated.over_patterns q b)
  /\ (forall under over q o,
         first_price under q = Some (Some 0%Z) ->
         first_price over q = Some o ->
         regex_prices under over q (None, None) = Some (Some 0%Z, o))
  /\ (forall f query,
         price_max f = Some 0%Z ->
         existsb is_range_lte (filter_clauses f) = false
         /\ existsb is_lte (mongo_conditions f query) = false)
  /\ (forall f query,
         price_min f = Some 0%Z ->
         existsb is_range_gte (filter_clauses f) = false
         /\ existsb is_gte (mongo_conditions f query) = false).
Proof.
  split; [|split; [|split]].
  - intros ef q b E H. unfold Annotated.price_bounds. rewrite E.
    destruct (entity_prices_one _ _ _ E) as [H1|H1], H as [H|H];
      rewrite H in *; try discriminate; rewrite H1; reflexivity.
  - intros under over q o Hu Ho. unfold regex_prices. rewrite Hu. cbn.
    rewrite Ho. destruct o; reflexivity.
  - intros f query H.
    assert (A : forall fld v,
               existsb is_lte (attribute_condition fld v) = false)
      by (intros fld [v|]; cbn; [destruct (negb _)|]; reflexivity).
    unfold filter_clauses, mongo_conditions, price_conditions, text_conditions.
    rewrite !existsb_app, !A, H. cbn.
    split.
    + destruct (price_min f) as [n|]; [destruct (price_truthy _)|]; reflexivity.
    + destruct (price_min f) as [n|]; [destruct (price_truthy _)|]; cbn;
        (destruct (_ || _); [|reflexivity];
         destruct (map _ _) as [|c [|c' cs]] eqn:M; try reflexivity;
         destruct (filter _ _) as [|t ts]; try discriminate;
         injection M as <- _; reflexivity).
  - intros f query H.
    assert (A : forall fld v,
               existsb is_gte (attribute_condition fld v) = false)
      by (intros fld [v|]; cbn; [destruct (negb _)|]; reflexivity).
    unfold filter_clauses, mongo_conditions, price_conditions, text_conditions.
    rewrite !existsb_app, !A, H. cbn.
    split.
    + destruct (price_max f) as [n|]; [destruct (price_truthy _)|]; reflexivity.
    + destruct (price_max f) as [n|]; [destruct (price_truthy _)|]; cbn;
        (destruct (_ || _); [|reflexivity];
         destruct (map _ _) as [|c [|c' cs]] eqn:M; try reflexivity;
         destruct (filter _ _) as [|t ts]; try discriminate;
         injection M as <- _; reflexivity).
Qed.

(** ** Clauses of the rich backend *)

Lemma exact_on_app (field : string) (cs ds : list clause) :
  exact_on field (cs ++ ds) = exact_on field cs ++ exact_on field ds.
Proof. apply filter_app. Qed.

Lemma exact_on_keyword_clauses (field : string) (kws : list string) :
  exact_on field (keyword_clauses kws) = [].
Proof.
  unfold keyword_clauses. induction (filter _ kws) as [|k r IH]; [reflexivity|exact IH].
Qed.

Lemma exact_on_phrase_clauses (field : string) (phrases : list string) :
  exact_on field (phrase_clauses phrases) = [].
Proof.
  unfold phrase_clauses. induction (filter _ phrases) as [|k r IH]; [reflexivity|exact IH].
Qed.

Lemma exact_on_boosted_terms (field fld : string) (w cl : float) (conf : Py.dict float) :
  exact_on field (boosted_terms fld w cl conf)
  = if String.eqb fld field then boosted_terms fld w cl conf else [].
Proof.
  unfold boosted_terms, exact_on.
  induction conf as [|[v c] r IH]; cbn [map filter];
    destruct (String.eqb fld field) eqn:E; try reflexivity.
  - now rewrite IH.
  - exact IH.
Qed.

Lemma exact_on_fixed_term (field fld : string) (v : option string) :
  exact_on field (fixed_term fld v)
  = if String.eqb fld field then fixed_term fld v else [].
Proof.
  destruct v as [t|]; cbn; [|now destruct (String.eqb fld field)].
  destruct (negb (String.eqb t "")); cbn; now destruct (String.eqb fld field).
Qed.

Lemma exact_on_gender_clauses (field : string) (f : Filters) :
  String.eqb "gender.keyword" field = false ->
  exact_on field (gender_clauses f) = [].
Proof.
  intros H. unfold gender_clauses.
  destruct (gender f) as [g|]; [|reflexivity].
  destruct (PyStr.truthy (Some g)); [|reflexivity].
  unfold exact_on.
  induction (gender_should g) as [|t r IH]; [reflexivity|].
  cbn [map filter]. now rewrite H.
Qed.

(** The words the degraded algorithm keeps are all longer than two
    characters, so the clause builder turns each into a clause. *)
Lemma keyword_clauses_words (query_lower : string) :
  keyword_clauses (Fallback.words query_lower)
  = map keyword_clause (Fallback.words query_lower).
Proof.
  unfold keyword_clauses, Fallback.words. f_equal.
  induction (PyStr.split query_lower) as [|w r IH]; [reflexivity|].
  cbn [filter]. destruct (2 <? PyStr.len (PyStr.strip w))%nat eqn:E; [|exact IH].
  cbn [map filter]. rewrite E. now rewrite IH.
Qed.

Lemma boosted_terms_not_fuzzy (fld : string) (w cl : float) (conf : Py.dict float) :
  existsb is_fuzzy (boosted_terms fld w cl conf) = false.
Proof.
  unfold boosted_terms. induction conf as [|[v c] r IH]; [reflexivity|exact IH].
Qed.

Lemma phrase_clauses_not_fuzzy (phrases : list string) :
  existsb is_fuzzy (phrase_clauses phrases) = false.
Proof.
  unfold phrase_clauses. induction (filter _ phrases) as [|ph r IH]; [reflexivity|exact IH].
Qed.

Lemma fixed_term_not_fuzzy (fld : string) (v : option string) :
  existsb is_fuzzy (fixed_term fld v) = false.
Proof.
  destruct v as [t|]; [|reflexivity]. unfold fixed_term.
  destruct (PyStr.truthy (Some t)); reflexivity.
Qed.

Lemma gender_clauses_not_fuzzy (f : Filters) :
  existsb is_fuzzy (gender_clauses f) = false.
Proof.
  unfold gender_clauses. destruct (gender f) as [g|]; [|reflexivity].
  destruct (PyStr.truthy (Some g)); [|reflexivity].
  induction (gender_should g) as [|t r IH]; [reflexivity|exact IH].
Qed.

(** C5, as the code has it.  The degraded algorithm keeps every word of the
    query longer than two characters as a keyword, and the clause builder
    adds one fuzzy clause per keyword whichever algorithm ran.  For a
    degraded filter set the clause over the full query is followed by one
    clause per such word, then by the exact-match and the gender clauses;
    for every filter set it is followed by one clause per keyword longer
    than two characters, and no other clause is fuzzy. *)
Theorem degraded_keywords_get_clauses (query : string) :
  (exists f, parse_query_with_nlp None query = Some f
             /\ keywords f = Fallback.words (PyStr.lower query)
             /\ forall text,
                 should_clauses f text
                 = full_query_clause text
                   :: map keyword_clause (Fallback.words (PyStr.lower query))
                   ++ plain_clauses f ++ gender_clauses f)
  /\ (forall f text,
         exists rest,
           should_clauses f text
           = full_query_clause text
             :: map keyword_clause
                    (filter (fun keyword => (2 <? PyStr.len keyword)%nat) (keywords f))
             ++ rest
           /\ existsb is_fuzzy rest = false).
Proof.
  split.
  - destruct (parse_query_fallback_total (PyStr.lower query)) as (f & Hf).
    exists f. split; [exact Hf|].
    apply parse_query_fallback_fields in Hf.
    destruct Hf as (_ & _ & _ & _ & Hk & _ & Hs & _).
    split; [exact Hk|].
    intros text. unfold should_clauses. rewrite Hk, Hs, keyword_clauses_words.
    reflexivity.
  - intros f text. eexists. split; [reflexivity|].
    rewrite existsb_app, gender_clauses_not_fuzzy, orb_false_r.
    destruct (semantic_analysis f) as [sem|].
    + unfold semantic_clauses.
      now rewrite !existsb_app, !boosted_terms_not_fuzzy, phrase_clauses_not_fuzzy.
    + unfold plain_clauses. now rewrite !existsb_app, !fixed_term_not_fuzzy.
Qed.

(** C5, as stated, fails: the degraded filter set of "red nike sneakers
    under 80" brings four per-keyword clauses into the request, so five of
    its clauses are fuzzy and not one. *)
Lemma degraded_keywords_counterexample :
  exists f, parse_query_with_nlp None "red nike sneakers under 80" = Some f
            /\ semantic_analysis f = None
            /\ should_clauses f "red nike sneakers under 80"
               = [ full_query_clause "red nike sneakers under 80";
                   keyword_clause "red"; keyword_clause "nike";
                   keyword_clause "sneakers"; keyword_clause "under";
                   term "category.keyword" "sneakers" 2.0;
                   term "brand.keyword" "nike" 2.0;
                   term "color.keyword" "red" 2.0 ]
            /\ List.length (filter is_fuzzy
                                   (should_clauses f "red nike sneakers under 80"))
               = 5%nat.
Proof.
  eexists. split; [vm_compute; reflexivity|]. repeat split.
Qed.

(** ** Attribute resolution of the degraded algorithm *)

Lemma resolve_truthy (tbl : table) (q : string) (cur : option string) :
  keys_nonempty tbl = true ->
  cur = None \/ PyStr.truthy cur = true ->
  resolve_result_ok (Fallback.resolve tbl q cur).
Proof.
  unfold resolve_result_ok.
  revert cur. induction tbl as [|[k vs] r IH]; cbn; intros cur Hk Hc; [exact Hc|].
  apply andb_prop in Hk as [Hk Hr].
  destruct (any_in vs q).
  - cbn. rewrite Hk. right. cbn. exact Hk.
  - destruct (PyStr.truthy cur) eqn:T; [now right|].
    apply IH; trivial. destruct Hc as [->|Hc]; [now left|congruence].
Qed.

Lemma fixed_term_resolved (fld : string) (tbl : table) (q : string) :
  keys_nonempty tbl = true ->
  fixed_term fld (Fallback.resolve tbl q None)
  = match Fallback.resolve tbl q None with
    | Some v => [term fld v 2.0]
    | None => []
    end.
Proof.
  intros Hk. destruct (resolve_truthy tbl q None Hk (or_introl eq_refl)) as [E|E].
  - now rewrite E.
  - unfold fixed_term. destruct (Fallback.resolve tbl q None); [now rewrite E|reflexivity].
Qed.

(** C6.  The degraded algorithm returns, for every query, a filter set
    without semantic analysis (no confidence maps, no noun phrases); for such
    a filter set the clause builder emits, per attribute, the single
    exact-match clause with boost 2.0 when the attribute is resolved and none
    otherwise; and the semantic analysis is present exactly when the
    annotated algorithm ran. *)
Theorem degraded_has_no_semantic_analysis
        (nlp : option (string -> Doc)) (query : string) (f : Filters) :
  parse_query_with_nlp nlp query = Some f ->
  (exists f0, parse_query_with_nlp None query = Some f0
              /\ semantic_analysis f0 = None /\ entities f0 = None)
  /\ (nlp = None ->
      semantic_analysis f = None
      /\ forall text,
          exact_on "category.keyword" (should_clauses f text)
          = match category f with
            | Some v => [term "category.keyword" v 2.0]
            | None => []
            end
          /\ exact_on "brand.keyword" (should_clauses f text)
             = match brand f with
               | Some v => [term "brand.keyword" v 2.0]
               | None => []
               end
          /\ exact_on "color.keyword" (should_clauses f text)
             = match color f with
               | Some v => [term "color.keyword" v 2.0]
               | None => []
               end)
  /\ (semantic_analysis f <> None <-> nlp <> None).
Proof.
  intros Hf. split; [|split].
  - destruct (parse_query_fallback_total (PyStr.lower query)) as (f0 & H0).
    exists f0. split; [exact H0|].
    apply parse_query_fallback_fields in H0. tauto.
  - intros ->. unfold parse_query_with_nlp in Hf.
    apply parse_query_fallback_fields in Hf.
    destruct Hf as (Hc & Hb & Hcol & _ & _ & _ & Hs & _).
    split; [exact Hs|].
    intros text. unfold should_clauses, plain_clauses. rewrite Hs, Hc, Hb, Hcol.
    rewrite !exact_on_app, !exact_on_keyword_clauses, !exact_on_fixed_term.
    rewrite !exact_on_gender_clauses by reflexivity.
    rewrite !fixed_term_resolved by reflexivity.
    change (exact_on "category.keyword" [full_query_clause text]) with (@nil clause).
    change (exact_on "brand.keyword" [full_query_clause text]) with (@nil clause).
    change (exact_on "color.keyword" [full_query_clause text]) with (@nil clause).
    change (String.eqb "category.keyword" "category.keyword") with true.
    change (String.eqb "brand.keyword" "brand.keyword") with true.
    change (String.eqb "color.keyword" "color.keyword") with true.
    change (String.eqb "category.keyword" "brand.keyword") with false.
    change (String.eqb "category.keyword" "color.keyword") with false.
    change (String.eqb "brand.keyword" "category.keyword") with false.
    change (String.eqb "brand.keyword" "color.keyword") with false.
    change (String.eqb "color.keyword" "category.keyword") with false.
    change (String.eqb "color.keyword" "brand.keyword") with false.
    cbv iota. rewrite !app_nil_r. repeat split.
  - destruct nlp as [annotate|]; unfold parse_query_with_nlp in Hf.
    + apply parse_annotated_fields in Hf. destruct Hf as (Hs & _).
      rewrite Hs. split; congruence.
    + apply parse_query_fallback_fields in Hf.
      destruct Hf as (_ & _ & _ & _ & _ & _ & Hs & _).
      rewrite Hs. split; congruence.
Qed.

Lemma degraded_has_no_semantic_analysis_witness :
  exists f,
    parse_query_with_nlp None "red nike sneakers under 80" = Some f
    /\ semantic_analysis f = None
    /\ exact_on "brand.keyword" (should_clauses f "red nike sneakers under 80")
       = [term "brand.keyword" "nike" 2.0].
Proof.
  eexists. split; [vm_compute; reflexivity|].
  pose proof (degraded_has_no_semantic_analysis
                None "red nike sneakers under 80" _ eq_refl) as (_ & H & _).
  destruct (H eq_refl) as (Hs & Hc). split; [exact Hs|].
  exact (proj1 (proj2 (Hc "red nike sneakers under 80"))).
Defined.

(** ** Boosts *)

(** [min] never returns more than its second argument. *)
Lemma min_not_above (a b : float) : PrimFloat.ltb b (Py.min a b) = false.
Proof.
  unfold Py.min. destruct (PrimFloat.ltb b a) eqn:E; [|exact E].
  destruct (PrimFloat.ltb b b) eqn:E'; trivial.
  now rewrite (FloatFacts.ltb_asym _ _ E') in E'.
Qed.

Lemma min_le_clamp (a b : float) :
  not_nan a -> not_nan b -> PrimFloat.leb (Py.min a b) b = true.
Proof.
  intros Ha Hb. apply FloatFacts.ltb_false_leb; trivial.
  - unfold Py.min. now destruct (PrimFloat.ltb b a).
  - apply min_not_above.
Qed.

(** C2.  With the semantic analysis present, the exact-match clauses on the
    brand, color and category fields are exactly one clause per entry of the
    matching confidence map, with boost [min(confidence * weight, clamp)]:
    weight 2.0 and clamp 5.0 for brand, 1.8 and 4.0 for color, 1.5 and 3.0
    for category.  For every confidence that is a number, however large and
    plus infinity included, the boost is at most the clamp. *)
Theorem boosts_are_clamped (f : Filters) (sem : Semantic) (text : string) :
  semantic_analysis f = Some sem ->
  exact_on "brand.keyword" (should_clauses f text)
  = map (fun '(v, c) => term "brand.keyword" v (Py.min (c * 2.0) 5.0))
        (brand_confidence sem)
  /\ exact_on "color.keyword" (should_clauses f text)
     = map (fun '(v, c) => term "color.keyword" v (Py.min (c * 1.8) 4.0))
           (color_confidence sem)
  /\ exact_on "category.keyword" (should_clauses f text)
     = map (fun '(v, c) => term "category.keyword" v (Py.min (c * 1.5) 3.0))
           (category_confidence sem)
  /\ (forall c, not_nan c ->
                PrimFloat.leb (Py.min (c * 2.0) 5.0) 5.0 = true
                /\ PrimFloat.leb (Py.min (c * 1.8) 4.0) 4.0 = true
                /\ PrimFloat.leb (Py.min (c * 1.5) 3.0) 3.0 = true)
  /\ (forall c, PrimFloat.ltb 5.0 (Py.min (c * 2.0) 5.0) = false
                /\ PrimFloat.ltb 4.0 (Py.min (c * 1.8) 4.0) = false
                /\ PrimFloat.ltb 3.0 (Py.min (c * 1.5) 3.0) = false).
Proof.
  intros Hs.
  assert (E : forall fld, String.eqb "gender.keyword" fld = false ->
              exact_on fld (should_clauses f text)
              = exact_on fld (semantic_clauses sem)).
  { intros fld Hg. unfold should_clauses. rewrite Hs.
    rewrite !exact_on_app, exact_on_keyword_clauses, exact_on_gender_clauses by exact Hg.
    cbn. now rewrite app_nil_r. }
  split; [|split; [|split; [|split]]].
  - rewrite E by reflexivity. unfold semantic_clauses.
    rewrite !exact_on_app, !exact_on_boosted_terms, exact_on_phrase_clauses.
    cbn. now rewrite app_nil_r.
  - rewrite E by reflexivity. unfold semantic_clauses.
    rewrite !exact_on_app, !exact_on_boosted_terms, exact_on_phrase_clauses.
    cbn. now rewrite app_nil_r.
  - rewrite E by reflexivity. unfold semantic_clauses.
    rewrite !exact_on_app, !exact_on_boosted_terms, exact_on_phrase_clauses.
    cbn. now rewrite app_nil_r.
  - intros c Hc. repeat split; apply min_le_clamp; try reflexivity;
      apply FloatFacts.mul_not_nan; trivial;
      do 3 eexists; vm_compute; reflexivity.
  - intros c. repeat split; apply min_not_above.
Qed.

Lemma boosts_are_clamped_witness :
  semantic_analysis red_nike_filters = Some red_nike_semantic
  /\ exact_on "brand.keyword" (should_clauses red_nike_filters "red nike sneakers under 80")
     = [term "brand.keyword" "nike" 3.6]
  /\ PrimFloat.leb (Py.min (1.8 * 2.0) 5.0) 5.0 = true
  /\ PrimFloat.leb (Py.min (infinity * 2.0) 5.0) 5.0 = true.
Proof.
  destruct (boosts_are_clamped red_nike_filters red_nike_semantic
              "red nike sneakers under 80" eq_refl) as (Hb & _ & _ & Hle & _).
  split; [reflexivity|]. split; [exact Hb|].
  split; [exact (proj1 (Hle 1.8 eq_refl))|exact (proj1 (Hle infinity eq_refl))].
Defined.

Lemma red_nike_filters_parsed :
  parse_query_with_nlp (Some (fun _ => Sample.red_nike)) "red nike sneakers under 80"
  = Some red_nike_filters.
Proof. vm_compute. reflexivity. Qed.

(** ** Well-formed filter sets *)

Lemma argmax_from_in (best : string * float) (d : Py.dict float) :
  In (Py.argmax_from best d) (fst best :: map fst d).
Proof.
  revert best. induction d as [|item r IH]; intros best; cbn [Py.argmax_from map].
  - now left.
  - destruct (IH (if PrimFloat.ltb (snd best) (snd item) then item else best)) as [H|H].
    + destruct (PrimFloat.ltb (snd best) (snd item)); rewrite <- H; cbn; auto.
    + right. now right.
Qed.

Lemma argmax_in_keys (d : Py.dict float) (k : string) :
  Py.argmax d = Some k -> In k (map fst d).
Proof.
  destruct d as [|item r]; [discriminate|]. cbn. intros [= <-].
  apply argmax_from_in.
Qed.

Lemma accumulate_keys (score : string -> float) (tbl : table) (q : string) (k : string) :
  In k (map fst (Annotated.accumulate score tbl q)) -> In k (map fst tbl).
Proof.
  unfold Annotated.accumulate.
  assert (G : forall tbl d,
             In k (map fst (fold_left
                              (fun conf '(canon, variants) =>
                                 fold_left
                                   (fun conf variant =>
                                      if PyStr.contains variant q
                                      then Py.set canon (Py.get_default canon 0 conf
                                                         + score variant) conf
                                      else conf)
                                   variants conf) tbl d)) ->
             In k (map fst d) \/ In k (map fst tbl)).
  { clear tbl. induction tbl as [|[canon variants] r IH]; cbn [fold_left map]; intros d H.
    - now left.
    - destruct (IH _ H) as [H1|H1]; [|right; now right].
      assert (I : forall vs d0,
                 In k (map fst (fold_left
                                  (fun conf variant =>
                                     if PyStr.contains variant q
                                     then Py.set canon (Py.get_default canon 0 conf
                                                        + score variant) conf
                                     else conf) vs d0)) ->
                 k = canon \/ In k (map fst d0)).
      { clear. induction vs as [|v vs IHv]; cbn [fold_left]; intros d0 H; [now right|].
        destruct (IHv _ H) as [E|H1]; [now left|].
        destruct (PyStr.contains v q); [|now right].
        apply DictFacts.keys_set in H1. exact H1. }
      destruct (I _ _ H1) as [->|H2]; [right; now left|now left]. }
  intros H. destruct (G _ _ H) as [[]|H1]. exact H1.
Qed.

Lemma resolve_in_keys (tbl : table) (q : string) (k : string) :
  Fallback.resolve tbl q None = Some k -> In k (map fst tbl).
Proof.
  assert (G : forall tbl cur,
             Fallback.resolve tbl q cur = Some k ->
             cur = Some k \/ In k (map fst tbl)).
  { clear tbl. induction tbl as [|[main vs] r IH]; cbn [Fallback.resolve map];
      intros cur H; [now left|].
    destruct (any_in vs q).
    - destruct (PyStr.truthy (Some main)).
      + injection H as <-. right. now left.
      + destruct (IH _ H) as [[= <-]|H1]; right; [now left|now right].
    - destruct (PyStr.truthy cur); [now left|].
      destruct (IH _ H) as [H1|H1]; [now left|right; now right]. }
  intros H. destruct (G _ _ H) as [H1|H1]; [discriminate|exact H1].
Qed.

Lemma key_canonical (tbl : table) (k : string) :
  keys_canonical tbl = true -> In k (map fst tbl) -> canonical_value (Some k) = true.
Proof.
  unfold keys_canonical. rewrite forallb_forall. intros H Hin.
  apply in_map_iff in Hin as ([k' vs] & <- & Hin). exact (H _ Hin).
Qed.

Lemma gender_of_in_keys (q k : string) :
  Annotated.gender_of q = Some k -> In k (map fst Annotated.gender_entities).
Proof.
  unfold Annotated.gender_of.
  destruct (find _ Annotated.gender_entities) as [[k' vs]|] eqn:E; [|discriminate].
  intros [= <-]. apply find_some in E as [Hin _].
  apply in_map_iff. now exists (k', vs).
Qed.

Lemma canonical_option (tbl : table) (o : option string) :
  keys_canonical tbl = true ->
  (forall k, o = Some k -> In k (map fst tbl)) ->
  canonical_value o = true.
Proof.
  intros Hk H. destruct o as [k|]; [|reflexivity].
  eapply key_canonical; eauto.
Qed.

Lemma has_confidence_argmax (sel : Semantic -> Py.dict float) (f : Filters) (sem : Semantic) :
  semantic_analysis f = Some sem ->
  has_confidence (Py.argmax (sel sem)) sel f = true.
Proof.
  intros Hs. unfold has_confidence. rewrite Hs.
  destruct (Py.argmax (sel sem)) as [k|] eqn:E; [|reflexivity].
  apply argmax_in_keys, DictFacts.get_in_keys in E as (v & ->). reflexivity.
Qed.

(** X12.  Every filter set the interpreter returns is well formed: each
    resolved attribute is a non-empty lower-case text, and under the annotated
    algorithm it has an entry in its confidence map. *)
Lemma parse_well_formed (nlp : option (string -> Doc)) (query : string) (f : Filters) :
  parse_query_with_nlp nlp query = Some f -> well_formed f = true.
Proof.
  unfold parse_query_with_nlp, well_formed. destruct nlp as [annotate|]; intros H.
  - apply parse_annotated_fields in H. cbv zeta in H.
    destruct H as (Hs & Hc & Hb & Hcol & Hg & _).
    rewrite Hb at 2. rewrite Hcol at 2. rewrite Hc at 2.
    rewrite (has_confidence_argmax brand_confidence f _ Hs).
    rewrite (has_confidence_argmax color_confidence f _ Hs).
    rewrite (has_confidence_argmax category_confidence f _ Hs).
    rewrite (canonical_option Annotated.brand_entities (brand f)); [|reflexivity|].
    2:{ intros k E. rewrite Hb in E. apply argmax_in_keys in E.
        eapply accumulate_keys; exact E. }
    rewrite (canonical_option Annotated.color_entities (color f)); [|reflexivity|].
    2:{ intros k E. rewrite Hcol in E. apply argmax_in_keys in E.
        eapply accumulate_keys; exact E. }
    rewrite (canonical_option Annotated.category_entities (category f)); [|reflexivity|].
    2:{ intros k E. rewrite Hc in E. apply argmax_in_keys in E.
        eapply accumulate_keys; exact E. }
    rewrite (canonical_option Annotated.gender_entities (gender f)); [reflexivity|reflexivity|].
    intros k E. rewrite Hg in E. now apply gender_of_in_keys in E.
  - apply parse_query_fallback_fields in H.
    destruct H as (Hc & Hb & Hcol & Hg & _ & _ & Hs & _).
    unfold has_confidence. rewrite Hs.
    rewrite (canonical_option Fallback.brand_synonyms (brand f)); [|reflexivity|].
    2:{ intros k E. rewrite Hb in E. now apply resolve_in_keys in E. }
    rewrite (canonical_option Fallback.color_synonyms (color f)); [|reflexivity|].
    2:{ intros k E. rewrite Hcol in E. now apply resolve_in_keys in E. }
    rewrite (canonical_option Fallback.category_synonyms (category f)); [|reflexivity|].
    2:{ intros k E. rewrite Hc in E. now apply resolve_in_keys in E. }
    rewrite (canonical_option Fallback.gender_synonyms (gender f)); [|reflexivity|].
    2:{ intros k E. rewrite Hg in E. now apply resolve_in_keys in E. }
    destruct (brand f), (color f), (category f); reflexivity.
Qed.

(** ** The rescorer against its rule *)

Lemma get_some_nonempty {V : Type} (k : string) (d : Py.dict V) (v : V) :
  Py.get k d = Some v -> nonempty d = true.
Proof. destruct d; [discriminate|reflexivity]. Qed.

Lemma field_lower_canonical (v : option string) : field_lower v = Spec.canonical v.
Proof. now destruct v. Qed.

(** Steps 1 to 3: the guarded match of the code is the attribute step of the
    rule on a well-formed filter set. *)
Lemma attribute_step_agrees (target : option string) (sel : Semantic -> Py.dict float)
      (f : Filters) (candidate : option string) (weight : float)
      (miss : float -> float) (s : float) :
  canonical_value target = true ->
  has_confidence target sel f = true ->
  (if PyStr.truthy target && nonempty (semantic_map sel f)
   then if String.eqb (field_lower candidate) (target_of target)
        then s + Py.get_default (target_of target) 1.0 (semantic_map sel f) * weight
        else miss s
   else s)
  = Spec.attribute_step target (option_map sel (semantic_analysis f))
                        candidate weight miss s.
Proof.
  unfold canonical_value, has_confidence, semantic_map, Spec.attribute_step.
  destruct target as [t|]; [|reflexivity].
  intros [Hne Hlow%String.eqb_eq]%andb_prop Hc.
  unfold PyStr.truthy, target_of. rewrite Hne, Hlow.
  destruct (semantic_analysis f) as [sem|]; [|reflexivity].
  cbn [option_map]. unfold Py.get_default.
  destruct (Py.get t (sel sem)) as [c|] eqn:G; [|discriminate].
  rewrite (get_some_nonempty _ _ _ G), field_lower_canonical. reflexivity.
Qed.

Lemma score_brand_agrees (p : Product) (f : Filters) (s : float) :
  canonical_value (brand f) = true ->
  has_confidence (brand f) brand_confidence f = true ->
  score_brand p f s = Spec.step_brand f p s.
Proof.
  intros. unfold score_brand, Spec.step_brand.
  now apply (attribute_step_agrees (brand f) brand_confidence f (product_brand p)
               3.0 (fun s => s * 0.3) s).
Qed.

Lemma score_color_agrees (p : Product) (f : Filters) (s : float) :
  canonical_value (color f) = true ->
  has_confidence (color f) color_confidence f = true ->
  score_color p f s = Spec.step_color f p s.
Proof.
  intros. unfold score_color, Spec.step_color.
  now apply (attribute_step_agrees (color f) color_confidence f (product_color p)
               2.0 (fun s => s * 0.4) s).
Qed.

Lemma score_category_agrees (p : Product) (f : Filters) (query : string) (s : float) :
  canonical_value (category f) = true ->
  has_confidence (category f) category_confidence f = true ->
  score_category p f query s = Spec.step_category f query p s.
Proof.
  intros. unfold score_category, Spec.step_category.
  rewrite <- attribute_step_agrees by assumption.
  now rewrite field_lower_canonical.
Qed.

Lemma score_gender_agrees (p : Product) (f : Filters) (s : float) :
  canonical_value (gender f) = true ->
  score_gender p f s = Spec.step_gender f p s.
Proof.
  unfold score_gender, Spec.step_gender, canonical_value.
  destruct (gender f) as [g|]; [|reflexivity].
  intros [Hne Hlow%String.eqb_eq]%andb_prop.
  unfold PyStr.truthy, target_of. rewrite Hne, Hlow.
  rewrite field_lower_canonical.
  generalize (Spec.canonical (product_gender p)). intros pg.
  unfold gender_should.
  destruct (String.eqb_spec g "women") as [->|Nw].
  - cbn [andb]. destruct (PyStr.mem pg ["women"; "girls"; "female"]) eqn:M; [reflexivity|].
    change (String.eqb "women" "men") with false. cbn [andb].
    destruct (String.eqb_spec "women" pg) as [<-|_]; [discriminate|reflexivity].
  - cbn [andb]. destruct (String.eqb_spec g "men") as [->|Nm].
    + cbn [andb]. destruct (PyStr.mem pg ["men"; "boys"; "male"]) eqn:M; [reflexivity|].
      destruct (String.eqb_spec "men" pg) as [<-|_]; [discriminate|reflexivity].
    + cbn [andb]. unfold PyStr.mem. cbn [existsb]. rewrite orb_false_r.
      rewrite (String.eqb_sym pg g). now destruct (String.eqb g pg).
Qed.

Lemma score_phrases_agrees (p : Product) (f : Filters) (s : float) :
  score_phrases p f s = Spec.step_phrases f p s.
Proof.
  unfold score_phrases, Spec.step_phrases, semantic_phrases.
  rewrite field_lower_canonical.
  generalize (Spec.canonical (title p)). intros t.
  generalize (match semantic_analysis f with
              | Some sem => noun_phrases sem
              | None => []
              end).
  intros phrases. revert s.
  induction phrases as [|ph r IH]; intros s; [reflexivity|].
  cbn [fold_left filter]. destruct (PyStr.contains ph t); cbn [fold_left]; apply IH.
Qed.

(** C7.  On a well-formed filter set (every filter set the interpreter
    returns is one) the score the rescorer stores is the backend relevance
    score taken through the five steps of the rule in their order: brand,
    color, category, gender, noun phrases. *)
Theorem rescoring_follows_the_rule
        (f : Filters) (query : string) (p : Product) (backend_score : float) :
  well_formed f = true ->
  _score p = Some backend_score ->
  nlp_score_of f query p = Spec.rescore f query p backend_score.
Proof.
  unfold well_formed. intros W Hs.
  repeat (apply andb_prop in W as [W ?]).
  unfold nlp_score_of, Spec.rescore, base_score. rewrite Hs. cbn [fold_left].
  rewrite score_phrases_agrees, score_gender_agrees by assumption.
  rewrite score_category_agrees, score_color_agrees, score_brand_agrees by assumption.
  reflexivity.
Qed.

Lemma rescoring_follows_the_rule_witness :
  well_formed red_nike_filters = true
  /\ _score nike_air_max = Some 2.5
  /\ nlp_score_of red_nike_filters "red nike sneakers under 80" nike_air_max
     = Spec.rescore red_nike_filters "red nike sneakers under 80" nike_air_max 2.5
  /\ Spec.rescore red_nike_filters "red nike sneakers under 80" nike_air_max 2.5
     = 13.200000000000001.
Proof.
  split; [reflexivity|]. split; [reflexivity|]. split.
  - exact (rescoring_follows_the_rule red_nike_filters "red nike sneakers under 80"
             nike_air_max 2.5 eq_refl eq_refl).
  - vm_compute. reflexivity.
Defined.

(** ** Scores are numbers *)

Ltac solve_positive := do 2 eexists; vm_compute; reflexivity.

Lemma get_default_nonneg (k : string) (d : Py.dict float) (default : float) :
  nonneg default -> Forall (fun kv => nonneg (snd kv)) d ->
  nonneg (Py.get_default k default d).
Proof.
  intros Hd Hall. unfold Py.get_default.
  induction Hall as [|[k' v] r Hv Hr IH]; cbn; [exact Hd|].
  destruct (String.eqb k' k); [exact Hv|exact IH].
Qed.

Lemma set_nonneg (k : string) (v : float) (d : Py.dict float) :
  nonneg v -> Forall (fun kv => nonneg (snd kv)) d ->
  Forall (fun kv => nonneg (snd kv)) (Py.set k v d).
Proof.
  intros Hv Hall. induction Hall as [|[k' v'] r Hv' Hr IH]; cbn.
  - now repeat constructor.
  - destruct (String.eqb k' k); constructor; trivial.
Qed.

Lemma accumulate_nonneg (score : string -> float) (tbl : table) (q : string) :
  (forall variant, nonneg (score variant)) ->
  Forall (fun kv => nonneg (snd kv)) (Annotated.accumulate score tbl q).
Proof.
  intros Hscore. unfold Annotated.accumulate.
  assert (G : forall (tbl : table) d,
             Forall (fun kv => nonneg (snd kv)) d ->
             Forall (fun kv => nonneg (snd kv))
                    (fold_left
                       (fun conf '(canon, variants) =>
                          fold_left
                            (fun conf variant =>
                               if PyStr.contains variant q
                               then Py.set canon (Py.get_default canon 0 conf
                                                  + score variant) conf
                               else conf)
                            variants conf) tbl d)).
  { clear tbl. induction tbl as [|[canon variants] r IH]; cbn [fold_left]; intros d Hd;
      [exact Hd|].
    apply IH. revert d Hd.
    induction variants as [|v vs IHv]; cbn [fold_left]; intros d Hd; [exact Hd|].
    apply IHv. destruct (PyStr.contains v q); [|exact Hd].
    apply set_nonneg; [|exact Hd].
    apply FloatFacts.add_nonneg; [|apply Hscore].
    apply get_default_nonneg; [reflexivity|exact Hd]. }
  apply G. constructor.
Qed.

Lemma brand_score_nonneg (q variant : string) : nonneg (Annotated.brand_score q variant).
Proof.
  unfold Annotated.brand_score.
  destruct (any_in Annotated.shoe_terms q), (_ || _); reflexivity.
Qed.

Lemma color_score_nonneg (mods : list (string * string)) (variant : string) :
  nonneg (Annotated.color_score mods variant).
Proof.
  unfold Annotated.color_score.
  assert (G : forall s, nonneg s ->
              nonneg (fold_left
                        (fun confidence '(adj, noun) =>
                           if PyStr.contains variant adj
                              && existsb (fun shoe_word => PyStr.contains shoe_word noun)
                                         ["shoe"; "sneaker"; "boot"]
                           then confidence + 0.5 else confidence) mods s)).
  { induction mods as [|[adj noun] r IH]; cbn [fold_left]; intros s Hs; [exact Hs|].
    apply IH. destruct (_ && _); [|exact Hs].
    apply FloatFacts.add_nonneg; [exact Hs|reflexivity]. }
  apply G. reflexivity.
Qed.

Lemma category_score_nonneg (phrases : list string) (variant : string) :
  nonneg (Annotated.category_score phrases variant).
Proof.
  unfold Annotated.category_score. destruct (PyStr.mem variant phrases); reflexivity.
Qed.

(** The confidences the interpreter accumulates are zero or more (and so
    never NaN). *)
Lemma parse_confidences_nonneg (nlp : option (string -> Doc)) (query : string) (f : Filters) :
  parse_query_with_nlp nlp query = Some f -> confidences_nonneg f.
Proof.
  unfold parse_query_with_nlp, confidences_nonneg. destruct nlp as [annotate|]; intros H sem Hs.
  - apply parse_annotated_fields in H. cbv zeta in H. destruct H as (Hs' & _).
    rewrite Hs' in Hs. injection Hs as <-. cbn [brand_confidence color_confidence category_confidence].
    rewrite !Forall_app. repeat split; apply accumulate_nonneg.
    + apply brand_score_nonneg.
    + apply color_score_nonneg.
    + apply category_score_nonneg.
  - apply parse_query_fallback_fields in H.
    destruct H as (_ & _ & _ & _ & _ & _ & Hs' & _). congruence.
Qed.

Lemma semantic_map_nonneg (f : Filters) :
  confidences_nonneg f ->
  Forall (fun kv => nonneg (snd kv)) (semantic_map brand_confidence f)
  /\ Forall (fun kv => nonneg (snd kv)) (semantic_map color_confidence f)
  /\ Forall (fun kv => nonneg (snd kv)) (semantic_map category_confidence f).
Proof.
  unfold confidences_nonneg, semantic_map. intros H.
  destruct (semantic_analysis f) as [sem|]; [|repeat split; constructor].
  specialize (H sem eq_refl). rewrite !Forall_app in H. tauto.
Qed.

(** A backend score of zero or more stays zero or more through the five
    steps. *)
Lemma nlp_score_nonneg (f : Filters) (query : string) (p : Product) :
  confidences_nonneg f -> nonneg (base_score p) ->
  nonneg (nlp_score_of f query p).
Proof.
  intros Hc Hb. destruct (semantic_map_nonneg f Hc) as (Cb & Cc & Ccat).
  unfold nlp_score_of.
  assert (S1 : nonneg (score_brand p f (base_score p))).
  { unfold score_brand. destruct (_ && _); [|exact Hb].
    destruct (String.eqb _ _).
    - apply FloatFacts.add_nonneg; [exact Hb|].
      apply FloatFacts.mul_nonneg; [|solve_positive].
      apply get_default_nonneg; [reflexivity|exact Cb].
    - apply FloatFacts.mul_nonneg; [exact Hb|solve_positive]. }
  revert S1. generalize (score_brand p f (base_score p)). intros s1 S1.
  assert (S2 : nonneg (score_color p f s1)).
  { unfold score_color. destruct (_ && _); [|exact S1].
    destruct (String.eqb _ _).
    - apply FloatFacts.add_nonneg; [exact S1|].
      apply FloatFacts.mul_nonneg; [|solve_positive].
      apply get_default_nonneg; [reflexivity|exact Cc].
    - apply FloatFacts.mul_nonneg; [exact S1|solve_positive]. }
  revert S2. generalize (score_color p f s1). intros s2 S2.
  assert (S3 : nonneg (score_category p f query s2)).
  { unfold score_category. destruct (_ && nonempty _); [|exact S2].
    destruct (String.eqb _ _).
    - apply FloatFacts.add_nonneg; [exact S2|].
      apply FloatFacts.mul_nonneg; [|solve_positive].
      apply get_default_nonneg; [reflexivity|exact Ccat].
    - destruct (_ && _).
      + apply FloatFacts.add_nonneg; [exact S2|reflexivity].
      + apply FloatFacts.mul_nonneg; [exact S2|solve_positive]. }
  revert S3. generalize (score_category p f query s2). intros s3 S3.
  assert (S4 : nonneg (score_gender p f s3)).
  { unfold score_gender. destruct (PyStr.truthy _); [|exact S3].
    match goal with |- nonneg (if ?c then _ else _) => destruct c end.
    - apply FloatFacts.add_nonneg; [exact S3|reflexivity].
    - apply FloatFacts.mul_nonneg; [exact S3|solve_positive]. }
  revert S4. generalize (score_gender p f s3). intros s4 S4.
  unfold score_phrases. revert s4 S4.
  induction (semantic_phrases f) as [|ph r IH]; cbn [fold_left]; intros s4 S4; [exact S4|].
  apply IH. destruct (PyStr.contains _ _); [|exact S4].
  apply FloatFacts.add_nonneg; [exact S4|reflexivity].
Qed.

(** X13.  The boosts of the clauses built from an interpreted query never exceed
    their clamps. *)
Lemma interpreter_boosts_clamped (nlp : option (string -> Doc)) (query : string)
      (f : Filters) (sem : Semantic) :
  parse_query_with_nlp nlp query = Some f ->
  semantic_analysis f = Some sem ->
  Forall (fun kv => PrimFloat.leb (Py.min (snd kv * 2.0) 5.0) 5.0 = true)
         (brand_confidence sem)
  /\ Forall (fun kv => PrimFloat.leb (Py.min (snd kv * 1.8) 4.0) 4.0 = true)
            (color_confidence sem)
  /\ Forall (fun kv => PrimFloat.leb (Py.min (snd kv * 1.5) 3.0) 3.0 = true)
            (category_confidence sem).
Proof.
  intros Hf Hs. pose proof (parse_confidences_nonneg nlp query f Hf sem Hs) as H.
  rewrite !Forall_app in H. destruct H as (Hb & Hc & Hcat).
  repeat split; (eapply Forall_impl; [|eassumption]); intros [v c] Hn; cbn [snd] in *;
    apply min_le_clamp; try reflexivity;
    apply FloatFacts.nonneg_not_nan, FloatFacts.mul_nonneg; trivial; solve_positive.
Qed.

(** ** The rescorer's ordering *)

(** C8.  The rescorer returns the candidates it was given, each with its
    adjusted score, none dropped and none added; candidates with equal
    adjusted scores keep their retrieval order; and when the backend scores
    and the confidences are zero or more (as those of the backend and of the
    interpreter are) every candidate's adjusted score is at least that of
    each candidate after it. *)
Theorem rescoring_sorts_stably (products : list Product) (f : Filters) (query : string) :
  Permutation (apply_nlp_scoring products f query)
              (map (score_product f query) products)
  /\ Permutation (map product (apply_nlp_scoring products f query)) products
  /\ (forall k,
         filter (fun s => PrimFloat.eqb (_nlp_score s) k)
                (apply_nlp_scoring products f query)
         = filter (fun s => PrimFloat.eqb (_nlp_score s) k)
                  (map (score_product f query) products))
  /\ (confidences_nonneg f ->
      Forall (fun p => nonneg (base_score p)) products ->
      StronglySorted (fun a b => PrimFloat.leb (_nlp_score b) (_nlp_score a) = true)
                     (apply_nlp_scoring products f query)).
Proof.
  assert (E : apply_nlp_scoring products f query
              = sort_by_nlp_score (map (score_product f query) products))
    by (destruct products; reflexivity).
  rewrite E. unfold sort_by_nlp_score.
  split; [apply stable_sort_perm|]. split; [|split].
  - rewrite (Permutation_map product (stable_sort_perm _ _)).
    rewrite map_map. cbn [product score_product]. now rewrite map_id.
  - intros k. apply stable_sort_stable.
    intros a b Ha Hb. exact (FloatFacts.equal_keys_ltb_false k _ _ Ha Hb).
  - intros Hc Hp.
    pose (ok := fun s : Scored => not_nan (_nlp_score s)).
    assert (Hok : Forall ok (map (score_product f query) products)).
    { rewrite Forall_map. eapply Forall_impl; [|exact Hp].
      intros p Hb. unfold ok. cbn [_nlp_score score_product].
      apply FloatFacts.nonneg_not_nan, nlp_score_nonneg; assumption. }
    pose proof (stable_sort_ordered
                  (fun x y => PrimFloat.ltb (_nlp_score x) (_nlp_score y)) ok
                  (fun x y => FloatFacts.ltb_asym _ _)
                  (fun x y z Hx Hy Hz => FloatFacts.ltb_false_trans _ _ _ Hx Hy Hz)
                  _ Hok) as Hsorted.
    assert (Hall : Forall ok (stable_sort
                                (fun x y => PrimFloat.ltb (_nlp_score x) (_nlp_score y))
                                (map (score_product f query) products)))
      by (eapply Permutation_Forall; [symmetry; apply stable_sort_perm|exact Hok]).
    revert Hall. induction Hsorted as [|a l Hs IH Ha]; intros Hall; constructor.
    + apply IH. now inversion Hall.
    + inversion Hall as [|? ? Oa Ol]; subst.
      rewrite Forall_forall in *. intros b Hb.
      apply FloatFacts.ltb_false_leb; [apply Ol, Hb|exact Oa|exact (Ha b Hb)].
Qed.

Lemma rescoring_sorts_stably_witness :
  confidences_nonneg red_nike_filters
  /\ Forall (fun p => nonneg (base_score p)) [adidas_runner; nike_air_max; adidas_runner]
  /\ map (fun s => (title (product s), _nlp_score s))
         (apply_nlp_scoring [adidas_runner; nike_air_max; adidas_runner]
                            red_nike_filters "red nike sneakers under 80")
     = [ (Some "Nike Air Max Red Sneakers", 13.200000000000001);
         (Some "Adidas Runner", 1.9199999999999999);
         (Some "Adidas Runner", 1.9199999999999999) ]
  /\ StronglySorted (fun a b => PrimFloat.leb (_nlp_score b) (_nlp_score a) = true)
                    (apply_nlp_scoring [adidas_runner; nike_air_max; adidas_runner]
                                       red_nike_filters "red nike sneakers under 80").
Proof.
  assert (Hc : confidences_nonneg red_nike_filters).
  { intros sem [= <-]. repeat constructor. }
  assert (Hp : Forall (fun p => nonneg (base_score p))
                      [adidas_runner; nike_air_max; adidas_runner]).
  { repeat constructor. }
  split; [exact Hc|]. split; [exact Hp|]. split; [vm_compute; reflexivity|].
  exact (proj2 (proj2 (proj2 (rescoring_sorts_stably
                                [adidas_runner; nike_air_max; adidas_runner]
                                red_nike_filters "red nike sneakers under 80")))
               Hc Hp).
Defined.

(** ** Simple backend: score and order *)

Module MongoFacts.

Import Mongo.

Local Open Scope Q_scope.

Lemma eval_score (d : Item) :
  0 <= price d ->
  exists s, eval score_expr d = Some (VNum s) /\ s == composite d.
Proof.
  intros Hp. unfold score_expr, composite.
  cbn -[Qplus Qmult Qdiv Qeq_bool Qle_bool].
  destruct (Qeq_bool (price d + (1 + 0)) 0) eqn:E.
  - apply Qeq_bool_eq in E. lra.
  - destruct (Qle_bool (stock d) 0); cbn -[Qplus Qmult Qdiv];
      (eexists; split; [reflexivity|]).
    + assert (H1 : price d + (1 + 0) == price d + 1) by lra.
      rewrite H1. lra.
    + assert (H1 : price d + (1 + 0) == price d + 1) by lra.
      rewrite H1. lra.
Qed.

Lemma add_fields_total (d : Item) :
  0 <= price d ->
  exists r, add_fields d = Some r /\ item r = d /\ score r == composite d.
Proof.
  intros Hp. unfold add_fields.
  destruct (eval_score d Hp) as (s & -> & Hs). cbn [as_num].
  eexists. split; [reflexivity|]. split; [reflexivity|exact Hs].
Qed.

Lemma add_fields_all_total (ds : list Item) :
  Forall (fun d => 0 <= price d) ds ->
  exists rs, add_fields_all ds = Some rs
             /\ map item rs = ds
             /\ Forall (fun r => score r == composite (item r)) rs.
Proof.
  induction 1 as [|d r Hd Hr (rs & E & Hm & Hs)]; cbn [add_fields_all].
  - exists []. repeat split. constructor.
  - destruct (add_fields_total d Hd) as (x & -> & Hx & Hsx). rewrite E.
    exists (x :: rs). split; [reflexivity|]. split.
    + cbn. now rewrite Hx, Hm.
    + constructor; trivial. now rewrite Hx.
Qed.

Lemma sorts_after_spec (x y : Ranked) :
  sorts_after sort_spec x y = true <-> strictly_after x y.
Proof.
  unfold strictly_after.
  cbn -[Qeq_bool Qle_bool].
  destruct (Qeq_bool (score x) (score y)) eqn:E1;
    [apply Qeq_bool_iff in E1|apply Qeq_bool_neq in E1].
  - destruct (Qeq_bool (price (item x)) (price (item y))) eqn:E2;
      [apply Qeq_bool_iff in E2|apply Qeq_bool_neq in E2].
    + destruct (Qeq_bool (rating (item x)) (rating (item y))) eqn:E3;
        [apply Qeq_bool_iff in E3|apply Qeq_bool_neq in E3].
      * split; [discriminate|]. lra.
      * destruct (Qle_bool (rating (item y)) (rating (item x))) eqn:L;
          [apply Qle_bool_iff in L|]; cbn; split; try discriminate; try reflexivity;
          try lra.
        intros _. right. split; [exact E1|]. right. split; [exact E2|].
        apply Qnot_le_lt. intros C. apply Qle_bool_iff in C. congruence.
    + destruct (Qle_bool (price (item x)) (price (item y))) eqn:L;
        [apply Qle_bool_iff in L|]; cbn; split; try discriminate; try reflexivity;
        try lra.
      intros _. right. split; [exact E1|]. left.
      apply Qnot_le_lt. intros C. apply Qle_bool_iff in C. congruence.
  - destruct (Qle_bool (score y) (score x)) eqn:L;
      [apply Qle_bool_iff in L|]; cbn; split; try discriminate; try reflexivity;
      try lra.
    intros _. left. apply Qnot_le_lt. intros C. apply Qle_bool_iff in C. congruence.
Qed.

Lemma sorts_after_false (x y : Ranked) :
  sorts_after sort_spec x y = false <-> ranked_before x y.
Proof.
  rewrite <- not_true_iff_false, sorts_after_spec.
  unfold strictly_after, ranked_before. lra.
Qed.

Lemma sorts_after_asym (x y : Ranked) :
  sorts_after sort_spec x y = true -> sorts_after sort_spec y x = false.
Proof.
  rewrite sorts_after_spec, <- not_true_iff_false, sorts_after_spec.
  unfold strictly_after. lra.
Qed.

Lemma sorts_after_trans (x y z : Ranked) :
  sorts_after sort_spec x y = false -> sorts_after sort_spec y z = false ->
  sorts_after sort_spec x z = false.
Proof.
  rewrite !sorts_after_false. unfold ranked_before. lra.
Qed.

Lemma StronglySorted_impl {A : Type} (R R' : A -> A -> Prop) (l : list A) :
  (forall a b, R a b -> R' a b) -> StronglySorted R l -> StronglySorted R' l.
Proof.
  intros HR. induction 1 as [|a l Hs IH Ha]; constructor; trivial.
  eapply Forall_impl; [|exact Ha]. intros b. apply HR.
Qed.

Lemma StronglySorted_firstn {A : Type} (R : A -> A -> Prop) (n : nat) (l : list A) :
  StronglySorted R l -> StronglySorted R (firstn n l).
Proof.
  intros H. revert n. induction H as [|a l Hs IH Ha]; intros [|n]; cbn; try constructor.
  - apply IH.
  - rewrite Forall_forall in *. intros b Hb. apply Ha.
    rewrite <- (firstn_skipn n l). apply in_or_app. now left.
Qed.

End MongoFacts.

(** C9.  For a stored product whose price is zero or more, the divisor
    [price + 1] of the composite score is not zero, and the score evaluates
    to [rating * 2 + (5 if stock > 0 else 0) + 100 / (price + 1)].  On such
    products the pipeline succeeds and returns at most 50 of them, the first
    50 of the matched products in the order: score descending, then price
    ascending, then rating descending. *)
Theorem composite_score_is_defined (matched : list Mongo.Item) :
  Forall (fun d => 0 <= Mongo.price d)%Q matched ->
  Forall (fun d => ~ (Mongo.price d + 1 == 0)%Q
                   /\ exists s, Mongo.eval Mongo.score_expr d = Some (Mongo.VNum s)
                                /\ (s == Mongo.composite d)%Q) matched
  /\ exists ranked,
      Mongo.pipeline matched = Some (firstn 50 ranked)
      /\ Permutation (map Mongo.item ranked) matched
      /\ Forall (fun r => (Mongo.score r == Mongo.composite (Mongo.item r))%Q) ranked
      /\ StronglySorted Mongo.ranked_before ranked
      /\ StronglySorted Mongo.ranked_before (firstn 50 ranked)
      /\ (List.length (firstn 50 ranked) <= 50)%nat.
Proof.
  intros Hp. split.
  - eapply Forall_impl; [|exact Hp]. intros d Hd. cbv beta in Hd.
    split; [intros C; lra|]. now apply MongoFacts.eval_score.
  - destruct (MongoFacts.add_fields_all_total matched Hp) as (rs & E & Hm & Hs).
    exists (stable_sort (Mongo.sorts_after Mongo.sort_spec) rs).
    unfold Mongo.pipeline. rewrite E.
    assert (Hperm := stable_sort_perm (Mongo.sorts_after Mongo.sort_spec) rs).
    assert (Hsorted : StronglySorted Mongo.ranked_before
                        (stable_sort (Mongo.sorts_after Mongo.sort_spec) rs)).
    { pose proof (stable_sort_ordered
                    (Mongo.sorts_after Mongo.sort_spec) (fun _ => True)
                    MongoFacts.sorts_after_asym
                    (fun x y z _ _ _ => MongoFacts.sorts_after_trans x y z)
                    rs (proj2 (Forall_forall _ rs) (fun _ _ => I))) as H.
      eapply MongoFacts.StronglySorted_impl; [|exact H].
      intros a b Hab. now apply MongoFacts.sorts_after_false. }
    split; [reflexivity|]. split; [|split; [|split; [|split]]].
    + rewrite (Permutation_map Mongo.item Hperm). now rewrite Hm.
    + eapply Permutation_Forall; [symmetry; exact Hperm|exact Hs].
    + exact Hsorted.
    + now apply MongoFacts.StronglySorted_firstn.
    + apply firstn_le_length.
Qed.

Lemma composite_score_is_defined_witness :
  Forall (fun d => 0 <= Mongo.price d)%Q Mongo.sample_items
  /\ Forall (fun d => ~ (Mongo.price d + 1 == 0)%Q
                      /\ exists s, Mongo.eval Mongo.score_expr d = Some (Mongo.VNum s)
                                   /\ (s == Mongo.composite d)%Q) Mongo.sample_items
  /\ option_map (map Mongo.item) (Mongo.pipeline Mongo.sample_items)
     = Some (rev Mongo.sample_items).
Proof.
  assert (H : Forall (fun d => 0 <= Mongo.price d)%Q Mongo.sample_items).
  { repeat constructor; vm_compute; discriminate. }
  split; [exact H|]. split; [|vm_compute; reflexivity].
  exact (proj1 (composite_score_is_defined Mongo.sample_items H)).
Defined.

Lemma zero_bound_counts_as_unset_witness :
  Annotated.entity_prices [("MONEY", "$0")] "boots for $0 over 50"
  = Some (Some 0%Z, None)
  /\ Annotated.price_bounds [("MONEY", "$0")] "boots for $0 over 50"
     = regex_prices Annotated.under_patterns Annotated.over_patterns
                    "boots for $0 over 50" (Some 0%Z, None)
  /\ regex_prices Annotated.under_patterns Annotated.over_patterns
                  "boots for $0 over 50" (Some 0%Z, None)
     = Some (Some 0%Z, Some 50%Z).
Proof.
  split; [vm_compute; reflexivity|]. split; [|vm_compute; reflexivity].
  exact (proj1 zero_bound_counts_as_unset
               [("MONEY", "$0")] "boots for $0 over 50" (Some 0%Z, None)
               eq_refl (or_introl eq_refl)).
Defined.

(** * Further properties *)

(** ** Price bounds: sign, digits *)

Lemma first_price_nonneg (patterns : list string) (s : string) (n : Z) :
  Forall price_pattern patterns ->
  first_price patterns s = Some (Some n) -> (0 <= n)%Z.
Proof.
  intros Hp H. destruct (first_price_total patterns s Hp) as (r & Hr & Hn).
  rewrite Hr in H. injection H as ->. now apply Hn.
Qed.

(** X2.  A bound the degraded algorithm sets is never negative. *)
Lemma degraded_bounds_nonneg (query : string) (f : Filters) (n : Z) :
  parse_query_with_nlp None query = Some f ->
  price_max f = Some n \/ price_min f = Some n ->
  (0 <= n)%Z.
Proof.
  unfold parse_query_with_nlp. intros Hf%parse_query_fallback_fields.
  destruct Hf as (_ & _ & _ & _ & _ & _ & _ & Hb). unfold regex_prices in Hb.
  destruct (first_price Fallback.under_patterns (PyStr.lower query)) as [u|] eqn:Eu;
    [|discriminate].
  cbn [fst snd] in Hb.
  destruct (negb (price_truthy match u with Some m => Some m | None => None end)).
  - destruct (first_price Fallback.over_patterns (PyStr.lower query)) as [o|] eqn:Eo;
      [|discriminate].
    injection Hb as Hmax Hmin. intros [H|H].
    + rewrite H in Hmax. destruct u as [m|]; [|discriminate]. injection Hmax as ->.
      exact (first_price_nonneg _ _ _ fallback_under_patterns_ok Eu).
    + rewrite H in Hmin. destruct o as [m|]; [|discriminate]. injection Hmin as ->.
      exact (first_price_nonneg _ _ _ fallback_over_patterns_ok Eo).
  - injection Hb as Hmax Hmin. intros [H|H]; [|congruence].
    rewrite H in Hmax. destruct u as [m|]; [|discriminate]. injection Hmax as ->.
    exact (first_price_nonneg _ _ _ fallback_under_patterns_ok Eu).
Qed.

Lemma degraded_bounds_nonneg_witness :
  exists f, parse_query_with_nlp None "red nike sneakers under 80" = Some f
            /\ price_max f = Some 80%Z /\ (0 <= 80)%Z.
Proof.
  eexists. split; [vm_compute; reflexivity|]. split; [reflexivity|].
  exact (degraded_bounds_nonneg "red nike sneakers under 80" _ 80 eq_refl
                                (or_introl eq_refl)).
Defined.

(** Every pattern of the price lists and the MONEY pattern. *)
Lemma all_price_patterns_ok :
  Forall price_pattern
         (Fallback.under_patterns ++ Fallback.over_patterns
          ++ Annotated.under_patterns ++ Annotated.over_patterns ++ ["(\d+)"]).
Proof. price_patterns. Qed.

(** X4.  Whenever a price pattern matches, its group 1 is there and is a
    non-empty run of decimal digits, which [int] reads as a number that is
    not negative. *)
Lemma price_match_is_a_number (p s : string) (m : Re.rmatch) :
  In p (Fallback.under_patterns ++ Fallback.over_patterns
        ++ Annotated.under_patterns ++ Annotated.over_patterns ++ ["(\d+)"]) ->
  Re.search p s = Some (Some m) ->
  exists g n, Re.group1 m = Some g /\ digit_string g
              /\ PyStr.int g = Some n /\ (0 <= n)%Z.
Proof.
  intros Hin Hs.
  pose proof all_price_patterns_ok as Hall. rewrite Forall_forall in Hall.
  destruct (Hall p Hin) as (r & Hc & Hr).
  unfold Re.search in Hs. rewrite Hc in Hs. cbn [option_map] in Hs.
  injection Hs as Hs.
  destruct (ReFacts.search_compiled_price r s m Hr Hs) as (g & Hg & Hd).
  destruct (StrFacts.int_digit_string g Hd) as (n & Hn & Hpos).
  exists g, n. auto.
Qed.

Lemma price_match_is_a_number_witness :
  exists g n,
    Re.search "less\s+than\s+(\d+)" "boots for less than  120 dollars"
    = Some (Some {| Re.group1 := Some g |})
    /\ digit_string g /\ PyStr.int g = Some n /\ n = 120%Z.
Proof.
  destruct (price_match_is_a_number
              "less\s+than\s+(\d+)" "boots for less than  120 dollars"
              {| Re.group1 := Some "120" |}) as (g & n & Hg & Hd & Hn & _).
  - vm_compute. tauto.
  - vm_compute. reflexivity.
  - exists g, n. cbn in Hg. injection Hg as <-.
    split; [vm_compute; reflexivity|]. split; [exact Hd|]. split; [exact Hn|].
    vm_compute in Hn. now injection Hn.
Defined.

(** *** A bound needs a digit *)

Lemma is_suffix_refl (s : string) : is_suffix s s.
Proof. destruct s; now left. Qed.

Lemma is_suffix_tail (t : string) (a : ascii) (s : string) :
  is_suffix t s -> is_suffix t (String a s).
Proof. intros H. now right. Qed.

Lemma is_suffix_digit (t s : string) :
  is_suffix t s -> has_digit t = true -> has_digit s = true.
Proof.
  unfold has_digit. induction s as [|a r IH]; cbn [is_suffix]; intros [->|H] Ht; trivial.
  - contradiction.
  - cbn [any_char]. rewrite (IH H Ht). apply orb_true_r.
Qed.

Lemma greedy_suffix (c : Re.cls) (k : string -> Re.capture -> option Re.capture) :
  forall s st res, Re.greedy c k s st = Some res ->
                   exists s1 st1, is_suffix s1 s /\ k s1 st1 = Some res.
Proof.
  induction s as [|a r IH]; intros st res H; cbn [Re.greedy] in H.
  - exists "", st. split; [apply is_suffix_refl|exact H].
  - destruct (Re.cls_match c a).
    + destruct (Re.greedy c k r (Re.cap_push a st)) as [res'|] eqn:G.
      * injection H as <-. destruct (IH _ _ G) as (s1 & st1 & Hs & Hk).
        exists s1, st1. split; [now apply is_suffix_tail|exact Hk].
      * exists (String a r), st. split; [apply is_suffix_refl|exact H].
    + exists (String a r), st. split; [apply is_suffix_refl|exact H].
Qed.

Lemma match_here_digit (r : Re.regex) :
  price_regex r ->
  forall s st res, Re.match_here r s st = Some res -> has_digit s = true.
Proof.
  induction 1 as [|c q r Hr IH]; intros s st res H.
  - cbn in H. destruct s as [|a t]; [discriminate|].
    unfold has_digit. cbn [any_char].
    destruct (PyStr.is_digit a); [reflexivity|discriminate].
  - destruct q; cbn [Re.match_here] in H.
    + destruct s as [|a t]; [discriminate|].
      destruct (Re.cls_match c a); [|discriminate].
      apply (is_suffix_digit t); [apply is_suffix_tail, is_suffix_refl|eauto].
    + apply greedy_suffix in H as (s1 & st1 & Hs & Hk).
      apply (is_suffix_digit s1); eauto.
    + destruct s as [|a t]; [discriminate|].
      destruct (Re.cls_match c a); [|discriminate].
      apply greedy_suffix in H as (s1 & st1 & Hs & Hk).
      apply (is_suffix_digit s1); [now apply is_suffix_tail|eauto].
Qed.

Lemma search_compiled_digit (r : Re.regex) (s : string) (m : Re.rmatch) :
  price_regex r -> Re.search_compiled r s = Some m -> has_digit s = true.
Proof.
  intros Hr. induction s as [|a t IH]; cbn [Re.search_compiled]; intros H.
  - destruct (Re.match_here r "" Re.cap_init) eqn:E; [|discriminate].
    eapply match_here_digit; eauto.
  - destruct (Re.match_here r (String a t) Re.cap_init) eqn:E.
    + eapply match_here_digit; eauto.
    + apply (is_suffix_digit t); [apply is_suffix_tail, is_suffix_refl|auto].
Qed.

Lemma first_price_no_digit (patterns : list string) (s : string) :
  Forall price_pattern patterns -> has_digit s = false ->
  first_price patterns s = Some None.
Proof.
  intros Hp Hs. induction Hp as [|p ps (r & Hc & Hr) _ IH]; cbn [first_price];
    [reflexivity|].
  unfold Re.search. rewrite Hc. cbn [option_map].
  destruct (Re.search_compiled r s) as [m|] eqn:E; [|exact IH].
  apply search_compiled_digit in E; [congruence|exact Hr].
Qed.

Lemma regex_prices_no_digit (under over : list string) (s : string) :
  Forall price_pattern under -> Forall price_pattern over ->
  has_digit s = false ->
  regex_prices under over s (None, None) = Some (None, None).
Proof.
  intros Hu Ho Hs. unfold regex_prices.
  rewrite (first_price_no_digit under s Hu Hs). cbn.
  now rewrite (first_price_no_digit over s Ho Hs).
Qed.

Lemma lower_char_digit (a : ascii) :
  PyStr.is_digit (PyStr.lower_char a) = PyStr.is_digit a.
Proof. destruct a as [[] [] [] [] [] [] [] []]; reflexivity. Qed.

Lemma has_digit_lower (s : string) : has_digit (PyStr.lower s) = has_digit s.
Proof.
  unfold has_digit. induction s as [|a r IH]; [reflexivity|].
  cbn [PyStr.lower any_char]. now rewrite lower_char_digit, IH.
Qed.

Lemma rstrip_digit (s : string) :
  has_digit (PyStr.rstrip s) = true -> has_digit s = true.
Proof.
  unfold has_digit. induction s as [|a r IH]; [trivial|].
  cbn [PyStr.rstrip any_char].
  destruct (PyStr.rstrip r) as [|b t] eqn:E.
  - destruct (PyStr.is_space a); cbn [any_char]; [discriminate|].
    rewrite orb_false_r. intros ->. reflexivity.
  - cbn [any_char]. intros H. apply orb_prop in H as [->|H]; [reflexivity|].
    rewrite IH; [apply orb_true_r|exact H].
Qed.

Lemma lstrip_suffix (s : string) : is_suffix (PyStr.lstrip s) s.
Proof.
  induction s as [|a r IH]; cbn [PyStr.lstrip]; [now left|].
  destruct (PyStr.is_space a); [now right|now left].
Qed.

Lemma int_body_digit (s : string) (acc n : Z) :
  PyStr.int_body acc false s = Some n -> has_digit s = true.
Proof.
  unfold has_digit. destruct s as [|a r]; cbn [PyStr.int_body any_char];
    [discriminate|].
  destruct (PyStr.is_digit a); [reflexivity|].
  rewrite andb_false_r. discriminate.
Qed.

(** [int] accepts no text without a digit. *)
Lemma int_digit (s : string) (n : Z) : PyStr.int s = Some n -> has_digit s = true.
Proof.
  unfold PyStr.int, PyStr.strip. intros H.
  apply (is_suffix_digit (PyStr.lstrip s)); [apply lstrip_suffix|].
  apply rstrip_digit.
  destruct (PyStr.rstrip (PyStr.lstrip s)) as [|a r]; [discriminate|].
  destruct (Ascii.eqb a "+"); [|destruct (Ascii.eqb a "-")].
  - apply int_body_digit in H. unfold has_digit in *. cbn [any_char].
    rewrite H. apply orb_true_r.
  - destruct (PyStr.int_body 0 false r) eqn:E; [|discriminate].
    apply int_body_digit in E. unfold has_digit in *. cbn [any_char].
    rewrite E. apply orb_true_r.
  - now apply int_body_digit in H.
Qed.

Lemma cardinal_price_no_int (patterns : list string) (q c : string) (r : option Z) :
  PyStr.int c = None -> cardinal_price patterns q c = Some r -> r = None.
Proof.
  intros Hc. induction patterns as [|p ps IH]; cbn [cardinal_price].
  - now intros [= <-].
  - destruct (Re.search p q) as [[m|]|]; [|exact IH|discriminate].
    rewrite Hc. exact IH.
Qed.

Lemma entity_prices_no_digit (ef : Py.dict string) (q : string) (b : option Z * option Z) :
  (forall k v, Py.get k ef = Some v -> has_digit v = false) ->
  Annotated.entity_prices ef q = Some b -> b = (None, None).
Proof.
  intros Hef. unfold Annotated.entity_prices, Py.get_default.
  destruct (Py.get "MONEY" ef) as [m|] eqn:Em.
  - destruct (PyStr.truthy (Some m)).
    + pose proof (first_price_no_digit ["(\d+)"] m
                    ltac:(price_patterns) (Hef _ _ Em)) as H.
      cbn [first_price] in H.
      destruct (Re.search "(\d+)" m) as [[mt|]|]; try discriminate.
      * destruct (Re.group1 mt) as [g|]; [|discriminate].
        destruct (PyStr.int g); discriminate.
      * now intros [= <-].
    + destruct (Py.get "CARDINAL" ef) as [c|] eqn:Ec; [|now intros [= <-]].
      destruct (PyStr.truthy (Some c)); [|now intros [= <-]].
      assert (Hc : PyStr.int c = None).
      { destruct (PyStr.int c) as [n|] eqn:E; trivial.
        apply int_digit in E. rewrite (Hef _ _ Ec) in E. discriminate. }
      destruct (cardinal_price (Annotated.cardinal_under_patterns c) q c)
        as [u|] eqn:Eu; [|discriminate].
      apply (cardinal_price_no_int _ _ _ _ Hc) in Eu. subst u.
      destruct (cardinal_price (Annotated.cardinal_over_patterns c) q c)
        as [o|] eqn:Eo; [|discriminate].
      apply (cardinal_price_no_int _ _ _ _ Hc) in Eo. subst o. now intros [= <-].
  - cbn [PyStr.truthy].
    destruct (Py.get "CARDINAL" ef) as [c|] eqn:Ec; [|now intros [= <-]].
    destruct (PyStr.truthy (Some c)); [|now intros [= <-]].
    assert (Hc : PyStr.int c = None).
    { destruct (PyStr.int c) as [n|] eqn:E; trivial.
      apply int_digit in E. rewrite (Hef _ _ Ec) in E. discriminate. }
    destruct (cardinal_price (Annotated.cardinal_under_patterns c) q c)
      as [u|] eqn:Eu; [|discriminate].
    apply (cardinal_price_no_int _ _ _ _ Hc) in Eu. subst u.
    destruct (cardinal_price (Annotated.cardinal_over_patterns c) q c)
      as [o|] eqn:Eo; [|discriminate].
    apply (cardinal_price_no_int _ _ _ _ Hc) in Eo. subst o. now intros [= <-].
Qed.

(** X5.  Without a decimal digit in the query and in the entity texts, neither
    algorithm sets a price bound. *)
Lemma no_digit_no_bound (nlp : option (string -> Doc)) (query : string) (f : Filters) :
  has_digit query = false ->
  (forall annotate, nlp = Some annotate ->
                    Forall (fun e => has_digit (ent_text e) = false)
                           (ents (annotate query))) ->
  parse_query_with_nlp nlp query = Some f ->
  price_max f = None /\ price_min f = None.
Proof.
  intros Hq Hents. unfold parse_query_with_nlp.
  assert (Hl : has_digit (PyStr.lower query) = false) by now rewrite has_digit_lower.
  destruct nlp as [annotate|]; intros Hf.
  - apply parse_annotated_fields in Hf. cbv zeta in Hf.
    destruct Hf as (_ & _ & _ & _ & _ & _ & _ & Hb).
    unfold Annotated.price_bounds in Hb.
    destruct (Annotated.entity_prices _ _) as [b|] eqn:Eb; [|discriminate].
    apply entity_prices_no_digit in Eb.
    + subst b. cbn [fst snd price_truthy negb andb] in Hb.
      rewrite (regex_prices_no_digit _ _ _ annotated_under_patterns_ok
                                     annotated_over_patterns_ok Hl) in Hb.
      injection Hb as <- <-. now split.
    + intros k v Hk. apply entities_of_get in Hk as (e & Hin & _ & ->).
      rewrite has_digit_lower.
      specialize (Hents annotate eq_refl). rewrite Forall_forall in Hents. auto.
  - apply parse_query_fallback_fields in Hf.
    destruct Hf as (_ & _ & _ & _ & _ & _ & _ & Hb).
    rewrite (regex_prices_no_digit _ _ _ fallback_under_patterns_ok
                                   fallback_over_patterns_ok Hl) in Hb.
    injection Hb as <- <-. now split.
Qed.

Lemma no_digit_no_bound_witness :
  has_digit "under armour max budget sneakers" = false
  /\ Forall (fun e => has_digit (ent_text e) = false) (ents nike_org)
  /\ exists f, parse_query_with_nlp (Some (fun _ => nike_org))
                                    "under armour max budget sneakers" = Some f
               /\ brand f = Some "under armour"
               /\ price_max f = None /\ price_min f = None.
Proof.
  assert (Hq : has_digit "under armour max budget sneakers" = false) by reflexivity.
  assert (He : Forall (fun e => has_digit (ent_text e) = false) (ents nike_org))
    by (repeat constructor).
  split; [exact Hq|]. split; [exact He|].
  eexists. split; [vm_compute; reflexivity|]. split; [reflexivity|].
  refine (no_digit_no_bound (Some (fun _ => nike_org))
                            "under armour max budget sneakers" _ Hq _ eq_refl).
  intros annotate [= <-]. exact He.
Defined.

(** ** Attribute resolution *)

(** *** Degraded algorithm: the first table entry with a variant in the text *)

Lemma resolve_first_match (tbl : table) (q : string) :
  keys_nonempty tbl = true -> Fallback.resolve tbl q None = first_match tbl q.
Proof.
  unfold first_match.
  induction tbl as [|[main vs] r IH]; cbn [Fallback.resolve find keys_nonempty forallb];
    intros Hk; [reflexivity|].
  apply andb_prop in Hk as [Hm Hr].
  destruct (any_in vs q).
  - cbn [PyStr.truthy]. now rewrite Hm.
  - cbn [PyStr.truthy]. exact (IH Hr).
Qed.

(** X1.  Each attribute the degraded algorithm resolves is the canonical value of
    the first entry of its table, in declared order, one of whose synonyms
    occurs in the lower-cased query; it is unset when no entry has one. *)
Lemma degraded_attributes_first_match (query : string) (f : Filters) :
  parse_query_with_nlp None query = Some f ->
  category f = first_match Fallback.category_synonyms (PyStr.lower query)
  /\ brand f = first_match Fallback.brand_synonyms (PyStr.lower query)
  /\ color f = first_match Fallback.color_synonyms (PyStr.lower query)
  /\ gender f = first_match Fallback.gender_synonyms (PyStr.lower query).
Proof.
  unfold parse_query_with_nlp. intros Hf.
  apply parse_query_fallback_fields in Hf.
  destruct Hf as (Hc & Hb & Hcol & Hg & _).
  rewrite Hc, Hb, Hcol, Hg. repeat split; apply resolve_first_match; reflexivity.
Qed.

Lemma degraded_attributes_first_match_witness :
  exists f,
    parse_query_with_nlp None "Puma or Jordan trainers in navy" = Some f
    /\ first_match Fallback.brand_synonyms "puma or jordan trainers in navy" = Some "nike"
    /\ brand f = Some "nike" /\ category f = Some "sneakers" /\ color f = Some "blue".
Proof.
  eexists. split; [vm_compute; reflexivity|]. split; [reflexivity|].
  destruct (degraded_attributes_first_match "Puma or Jordan trainers in navy" _ eq_refl)
    as (Hc & Hb & Hcol & _).
  split; [exact Hb|]. split; [exact Hc|exact Hcol].
Defined.

(** *** Annotated algorithm: the keys of a confidence map *)

Lemma mem_app (k : string) (l1 l2 : list string) :
  PyStr.mem k (l1 ++ l2) = PyStr.mem k l1 || PyStr.mem k l2.
Proof. unfold PyStr.mem. apply existsb_app. Qed.

Lemma set_keys {V : Type} (k : string) (v : V) (d : Py.dict V) :
  map fst (Py.set k v d)
  = if PyStr.mem k (map fst d) then map fst d else map fst d ++ [k].
Proof.
  unfold PyStr.mem. induction d as [|[k0 v0] r IH]; cbn [Py.set map fst existsb app].
  - reflexivity.
  - rewrite (String.eqb_sym k k0). destruct (String.eqb k0 k); cbn [orb map fst].
    + reflexivity.
    + rewrite IH. now destruct (existsb (String.eqb k) (map fst r)).
Qed.

Lemma accumulate_variants_keys (score : string -> float) (q canon : string)
      (vs : list string) (d : Py.dict float) :
  map fst (fold_left
             (fun conf variant =>
                if PyStr.contains variant q
                then Py.set canon (Py.get_default canon 0 conf + score variant) conf
                else conf) vs d)
  = if any_in vs q
    then (if PyStr.mem canon (map fst d) then map fst d else map fst d ++ [canon])
    else map fst d.
Proof.
  unfold any_in. revert d. induction vs as [|v vs IH]; intros d; cbn [fold_left existsb].
  - reflexivity.
  - rewrite IH. destruct (PyStr.contains v q); cbn [orb]; [|reflexivity].
    rewrite set_keys. destruct (PyStr.mem canon (map fst d)) eqn:M.
    + rewrite M. now destruct (existsb _ vs).
    + rewrite mem_app, M. unfold PyStr.mem at 1. cbn [existsb].
      rewrite String.eqb_refl. cbn [orb]. now destruct (existsb _ vs).
Qed.

Lemma accumulate_from_keys (score : string -> float) (q : string) (tbl : table)
      (d : Py.dict float) :
  NoDup (map fst tbl) ->
  (forall k, In k (map fst tbl) -> PyStr.mem k (map fst d) = false) ->
  map fst (fold_left
             (fun conf '(canon, variants) =>
                fold_left
                  (fun conf variant =>
                     if PyStr.contains variant q
                     then Py.set canon (Py.get_default canon 0 conf + score variant) conf
                     else conf)
                  variants conf) tbl d)
  = map fst d ++ matching_keys tbl q.
Proof.
  unfold matching_keys. revert d.
  induction tbl as [|[canon vs] r IH]; intros d Hn Hd; cbn [fold_left filter map fst].
  - now rewrite app_nil_r.
  - inversion Hn as [|? ? Hnot Hr]; subst.
    assert (K := accumulate_variants_keys score q canon vs d).
    rewrite (Hd canon (or_introl eq_refl)) in K.
    rewrite IH; trivial.
    + rewrite K. destruct (any_in vs q); cbn [map fst]; [|reflexivity].
      now rewrite <- app_assoc.
    + intros k Hk. rewrite K.
      assert (Hkd : PyStr.mem k (map fst d) = false) by (apply Hd; now right).
      destruct (any_in vs q); [|exact Hkd].
      rewrite mem_app, Hkd. unfold PyStr.mem. cbn [existsb orb].
      rewrite orb_false_r. apply String.eqb_neq. intros ->. contradiction.
Qed.

Lemma accumulate_matching_keys (score : string -> float) (tbl : table) (q : string) :
  NoDup (map fst tbl) ->
  map fst (Annotated.accumulate score tbl q) = matching_keys tbl q.
Proof.
  intros Hn. unfold Annotated.accumulate.
  rewrite accumulate_from_keys; trivial.
Qed.

Lemma argmax_none (d : Py.dict float) : Py.argmax d = None <-> map fst d = [].
Proof. destruct d; cbn; split; congruence. Qed.

Lemma first_match_none (tbl : table) (q : string) :
  first_match tbl q = None <-> matching_keys tbl q = [].
Proof.
  unfold first_match, matching_keys.
  induction tbl as [|[k vs] r IH]; cbn [find filter map]; [tauto|].
  destruct (any_in vs q); cbn [option_map map fst]; [split; discriminate|exact IH].
Qed.

Ltac distinct_keys :=
  repeat (constructor; [vm_compute; intuition discriminate|]); constructor.

Lemma brand_entities_distinct : NoDup (map fst Annotated.brand_entities).
Proof. distinct_keys. Qed.

Lemma color_entities_distinct : NoDup (map fst Annotated.color_entities).
Proof. distinct_keys. Qed.

Lemma category_entities_distinct : NoDup (map fst Annotated.category_entities).
Proof. distinct_keys. Qed.

(** X10.  The keys of each confidence map of the annotated algorithm are the
    canonical values of the table entries one of whose variants occurs in the
    lower-cased query, each once and in the table's order, whatever the
    annotator reports; and an attribute is left unset exactly when no entry
    of its table has a variant in the query. *)
Lemma confidence_keys_are_matches (annotate : string -> Doc) (query : string)
      (f : Filters) (sem : Semantic) :
  parse_query_with_nlp (Some annotate) query = Some f ->
  semantic_analysis f = Some sem ->
  map fst (brand_confidence sem)
  = matching_keys Annotated.brand_entities (PyStr.lower query)
  /\ map fst (color_confidence sem)
     = matching_keys Annotated.color_entities (PyStr.lower query)
  /\ map fst (category_confidence sem)
     = matching_keys Annotated.category_entities (PyStr.lower query)
  /\ (brand f = None
      <-> first_match Annotated.brand_entities (PyStr.lower query) = None)
  /\ (color f = None
      <-> first_match Annotated.color_entities (PyStr.lower query) = None)
  /\ (category f = None
      <-> first_match Annotated.category_entities (PyStr.lower query) = None).
Proof.
  unfold parse_query_with_nlp. intros Hf Hs.
  apply parse_annotated_fields in Hf. cbv zeta in Hf.
  destruct Hf as (Hs' & Hc & Hb & Hcol & _).
  rewrite Hb, Hcol, Hc, !argmax_none, !first_match_none.
  rewrite Hs' in Hs. injection Hs as <-.
  cbn [brand_confidence color_confidence category_confidence].
  rewrite (accumulate_matching_keys _ _ _ brand_entities_distinct).
  rewrite (accumulate_matching_keys _ _ _ color_entities_distinct).
  rewrite (accumulate_matching_keys _ _ _ category_entities_distinct).
  repeat split; trivial.
Qed.

Lemma confidence_keys_are_matches_witness :
  exists f sem,
    parse_query_with_nlp (Some (fun _ => Sample.bare)) "gold adidas or nike kicks" = Some f
    /\ semantic_analysis f = Some sem
    /\ map fst (brand_confidence sem) = ["nike"; "adidas"]
    /\ map fst (color_confidence sem) = ["yellow"]
    /\ map fst (category_confidence sem) = ["sneakers"].
Proof.
  do 2 eexists. split; [vm_compute; reflexivity|]. split; [reflexivity|].
  destruct (confidence_keys_are_matches (fun _ => Sample.bare)
              "gold adidas or nike kicks" _ _ eq_refl eq_refl)
    as (Hb & Hc & Hcat & _).
  split; [exact Hb|]. split; [exact Hc|exact Hcat].
Defined.

(** *** Annotated algorithm: the winner of a confidence map *)

Lemma ltb_trans (x y z : float) :
  PrimFloat.ltb x y = true -> PrimFloat.ltb y z = true -> PrimFloat.ltb x z = true.
Proof.
  intros Hxy Hyz.
  destruct (FloatFacts.ltb_true_not_nan _ _ Hxy) as [Hx Hy].
  destruct (FloatFacts.ltb_true_not_nan _ _ Hyz) as [_ Hz].
  apply FloatFacts.ltb_rank in Hxy, Hyz; trivial. apply FloatFacts.ltb_rank; trivial.
  destruct (FloatOrder.frank x) as [[a1 a2] a3], (FloatOrder.frank y) as [[b1 b2] b3],
           (FloatOrder.frank z) as [[c1 c2] c3].
  unfold FloatOrder.lex_lt in *. lia.
Qed.

Lemma not_above_ltb (x b c : float) :
  not_nan x -> PrimFloat.ltb b x = false -> PrimFloat.ltb b c = true ->
  PrimFloat.ltb x c = true.
Proof.
  intros Hx Hbx Hbc.
  destruct (FloatFacts.ltb_true_not_nan _ _ Hbc) as [Hb Hc].
  assert (N : ~ FloatOrder.lex_lt (FloatOrder.frank b) (FloatOrder.frank x))
    by (intros H; apply FloatFacts.ltb_rank in H; trivial; congruence).
  apply FloatFacts.ltb_rank in Hbc; trivial. apply FloatFacts.ltb_rank; trivial.
  destruct (FloatOrder.frank x) as [[a1 a2] a3], (FloatOrder.frank b) as [[b1 b2] b3],
           (FloatOrder.frank c) as [[c1 c2] c3].
  unfold FloatOrder.lex_lt in *. lia.
Qed.

Lemma argmax_from_first_maximum (d pre : Py.dict float) (best : string * float)
      (mid : Py.dict float) :
  Forall (fun kv => not_nan (snd kv)) (pre ++ best :: mid ++ d) ->
  Forall (fun kv => PrimFloat.ltb (snd kv) (snd best) = true) pre ->
  Forall (fun kv => PrimFloat.ltb (snd best) (snd kv) = false) mid ->
  first_maximum (pre ++ best :: mid ++ d) (Py.argmax_from best d).
Proof.
  revert pre best mid.
  induction d as [|item r IH]; intros pre best mid Hn Hpre Hmid; cbn [Py.argmax_from].
  - exists pre, (snd best), mid. rewrite app_nil_r in *. destruct best as [k v].
    split; [reflexivity|]. split; [exact Hpre|].
    apply Forall_app in Hn as [_ Hn]. inversion Hn as [|? ? Hb Hm]; subst.
    rewrite Forall_forall in *. intros kv Hin.
    apply FloatFacts.ltb_false_leb; auto.
  - assert (Hi : not_nan (snd item)).
    { rewrite !Forall_app in Hn. destruct Hn as [_ Hn].
      inversion Hn as [|? ? _ Hn']; subst.
      apply Forall_app in Hn' as [_ Hn']. now inversion Hn'. }
    assert (Hm : Forall (fun kv => not_nan (snd kv)) mid).
    { rewrite !Forall_app in Hn. destruct Hn as [_ Hn].
      inversion Hn as [|? ? _ Hn']; subst.
      now apply Forall_app in Hn' as [Hn' _]. }
    destruct (PrimFloat.ltb (snd best) (snd item)) eqn:E.
    + replace (pre ++ best :: mid ++ item :: r)
        with ((pre ++ best :: mid) ++ item :: [] ++ r)
        by (now rewrite <- app_assoc).
      apply IH.
      * cbn [app]. now rewrite <- app_assoc.
      * apply Forall_app. split; [|constructor].
        -- eapply Forall_impl; [|exact Hpre]. intros kv H. cbv beta in H.
           eapply ltb_trans; eassumption.
        -- exact E.
        -- rewrite Forall_forall in *. intros kv Hin.
           eapply not_above_ltb; [apply Hm, Hin|apply Hmid, Hin|exact E].
      * constructor.
    + replace (pre ++ best :: mid ++ item :: r)
        with (pre ++ best :: (mid ++ [item]) ++ r)
        by (now rewrite <- (app_assoc mid)).
      apply IH; trivial.
      * now rewrite <- (app_assoc mid).
      * apply Forall_app. split; [exact Hmid|]. constructor; [exact E|constructor].
Qed.

Lemma argmax_first_maximum (d : Py.dict float) (k : string) :
  Forall (fun kv => not_nan (snd kv)) d ->
  Py.argmax d = Some k -> first_maximum d k.
Proof.
  destruct d as [|item r]; [discriminate|]. cbn [Py.argmax]. intros Hn [= <-].
  exact (argmax_from_first_maximum r [] item [] Hn (Forall_nil _) (Forall_nil _)).
Qed.

(** X11.  The attribute the annotated algorithm resolves holds the greatest
    confidence of its map, and among equal confidences it is the one whose
    table entry comes first. *)
Lemma resolved_attribute_is_first_maximum (annotate : string -> Doc) (query : string)
      (f : Filters) (sem : Semantic) :
  parse_query_with_nlp (Some annotate) query = Some f ->
  semantic_analysis f = Some sem ->
  (forall k, brand f = Some k -> first_maximum (brand_confidence sem) k)
  /\ (forall k, color f = Some k -> first_maximum (color_confidence sem) k)
  /\ (forall k, category f = Some k -> first_maximum (category_confidence sem) k).
Proof.
  intros Hf Hs.
  pose proof (parse_confidences_nonneg _ _ _ Hf sem Hs) as Hn.
  rewrite !Forall_app in Hn. destruct Hn as (Nb & Nc & Ncat).
  unfold parse_query_with_nlp in Hf.
  apply parse_annotated_fields in Hf. cbv zeta in Hf.
  destruct Hf as (Hs' & Hc & Hb & Hcol & _).
  rewrite Hs' in Hs. injection Hs as Hs. rewrite Hb, Hcol, Hc.
  rewrite <- Hs in Nb, Nc, Ncat |- *.
  cbn [brand_confidence color_confidence category_confidence] in *.
  repeat split; intros k Hk; apply argmax_first_maximum; trivial;
    (eapply Forall_impl; [|eassumption]);
    intros kv H; apply FloatFacts.nonneg_not_nan; exact H.
Qed.

Lemma resolved_attribute_is_first_maximum_witness :
  exists f sem,
    parse_query_with_nlp (Some (fun _ => Sample.bare)) "adidas or nike or swoosh" = Some f
    /\ semantic_analysis f = Some sem
    /\ brand_confidence sem = [("nike", 2.6000000000000001); ("adidas", 2.2999999999999998)]
    /\ brand f = Some "nike"
    /\ first_maximum (brand_confidence sem) "nike".
Proof.
  do 2 eexists. split; [vm_compute; reflexivity|]. split; [reflexivity|].
  split; [vm_compute; reflexivity|]. split; [reflexivity|].
  exact (proj1 (resolved_attribute_is_first_maximum (fun _ => Sample.bare)
                  "adidas or nike or swoosh" _ _ eq_refl eq_refl) "nike" eq_refl).
Defined.

(** *** Gender: women before men *)

(** X6.  A query that holds "women" resolves to the gender women under both
    algorithms, although "men" occurs in it too: the entry of women comes
    first in both tables. *)
Lemma women_before_men (nlp : option (string -> Doc)) (query : string) (f : Filters) :
  PyStr.contains "women" (PyStr.lower query) = true ->
  parse_query_with_nlp nlp query = Some f ->
  gender f = Some "women"
  /\ PyStr.contains "men" (PyStr.lower query) = true.
Proof.
  intros Hw Hf. split.
  - unfold parse_query_with_nlp in Hf. destruct nlp as [annotate|].
    + apply parse_annotated_fields in Hf. cbv zeta in Hf.
      destruct Hf as (_ & _ & _ & _ & Hg & _). rewrite Hg.
      unfold Annotated.gender_of, Annotated.gender_entities. cbn [find].
      unfold any_in at 1. cbn [existsb]. now rewrite Hw.
    + apply parse_query_fallback_fields in Hf.
      destruct Hf as (_ & _ & _ & Hg & _). rewrite Hg.
      rewrite resolve_first_match by reflexivity.
      unfold first_match, Fallback.gender_synonyms. cbn [find].
      unfold any_in at 1. cbn [existsb]. now rewrite Hw.
  - revert Hw. generalize (PyStr.lower query). intros s.
    induction s as [|a r IH]; [discriminate|].
    cbn [PyStr.contains]. intros H. apply orb_prop in H as [H|H].
    + apply orb_true_iff. right.
      destruct r as [|b [|c r']]; cbn [PyStr.startswith] in H.
      * now rewrite andb_false_r in H.
      * rewrite andb_false_r in H. now rewrite andb_false_r in H.
      * apply andb_prop in H as [_ H]. apply andb_prop in H as [_ H].
        cbn [PyStr.contains]. apply orb_true_iff. right.
        cbn [PyStr.contains]. apply orb_true_iff. left. exact H.
    + apply orb_true_iff. right. exact (IH H).
Qed.

Lemma women_before_men_witness :
  PyStr.contains "women" (PyStr.lower "Women running shoes") = true
  /\ exists f, parse_query_with_nlp None "Women running shoes" = Some f
               /\ gender f = Some "women".
Proof.
  split; [reflexivity|]. eexists. split; [vm_compute; reflexivity|].
  exact (proj1 (women_before_men None "Women running shoes" _ eq_refl eq_refl)).
Defined.

(** ** What the annotated algorithm takes from the annotation *)

(** *** Entities: the last one under a label *)

Lemma find_app {A : Type} (p : A -> bool) (l1 l2 : list A) :
  find p (l1 ++ l2) = match find p l1 with
                      | Some x => Some x
                      | None => find p l2
                      end.
Proof.
  induction l1 as [|x r IH]; cbn [app find]; [reflexivity|].
  now destruct (p x).
Qed.

Lemma entities_from (label : string) (l : list Ent) (d : Py.dict string) :
  Py.get label (fold_left (fun d ent => Py.set (label_ ent) (PyStr.lower (ent_text ent)) d)
                          l d)
  = match find (fun e => String.eqb (label_ e) label) (rev l) with
    | Some e => Some (PyStr.lower (ent_text e))
    | None => Py.get label d
    end.
Proof.
  revert d. induction l as [|e r IH]; intros d; cbn [fold_left rev find]; [reflexivity|].
  rewrite IH, find_app. destruct (find _ (rev r)); [reflexivity|].
  cbn [find]. rewrite DictFacts.get_set. now destruct (String.eqb (label_ e) label).
Qed.

Lemma entities_of_last (doc : Doc) (label : string) :
  Py.get label (Annotated.entities_of doc)
  = option_map (fun e => PyStr.lower (ent_text e)) (last_entity label doc).
Proof.
  unfold Annotated.entities_of, last_entity. rewrite entities_from.
  now destruct (find _ (rev (ents doc))).
Qed.

(** X7.  The entity dict keeps, under each label, the lower-cased text of the
    last entity the annotator reports under it; earlier ones are lost. *)
Lemma last_entity_wins (annotate : string -> Doc) (query : string) (f : Filters)
      (label : string) :
  parse_query_with_nlp (Some annotate) query = Some f ->
  exists found,
    entities f = Some found
    /\ Py.get label found
       = option_map (fun e => PyStr.lower (ent_text e))
                    (last_entity label (annotate query)).
Proof.
  unfold parse_query_with_nlp. intros Hf.
  apply parse_annotated_fields in Hf. cbv zeta in Hf.
  destruct Hf as (_ & _ & _ & _ & _ & _ & He & _).
  exists (Annotated.entities_of (annotate query)). split; [exact He|].
  apply entities_of_last.
Qed.

Lemma last_entity_wins_witness :
  exists f found,
    parse_query_with_nlp (Some (fun _ => two_cardinals)) "3 pairs under 80" = Some f
    /\ entities f = Some found
    /\ Py.get "CARDINAL" found = Some "80"
    /\ price_max f = Some 80%Z.
Proof.
  destruct (last_entity_wins (fun _ => two_cardinals) "3 pairs under 80" _ "CARDINAL"
                             eq_refl) as (found & He & Hg).
  eexists. exists found. split; [vm_compute; reflexivity|].
  split; [exact He|]. split; [exact Hg|reflexivity].
Defined.

(** *** A MONEY entity is an upper bound *)

(** X8.  When the last MONEY entity holds a number that is not zero, that number
    is the upper price bound and no lower bound is set, whatever the query
    says around it ("over", "above", "min"): the plain patterns are not
    consulted. *)
Lemma money_entity_is_upper_bound (annotate : string -> Doc) (query : string)
      (f : Filters) (e : Ent) (n : Z) :
  last_entity "MONEY" (annotate query) = Some e ->
  first_price ["(\d+)"] (PyStr.lower (ent_text e)) = Some (Some n) ->
  n <> 0%Z ->
  parse_query_with_nlp (Some annotate) query = Some f ->
  price_max f = Some n /\ price_min f = None.
Proof.
  intros He Hn Hz Hf.
  pose proof (entities_of_last (annotate query) "MONEY") as Hg.
  rewrite He in Hg. cbn [option_map] in Hg.
  unfold parse_query_with_nlp in Hf.
  apply parse_annotated_fields in Hf. cbv zeta in Hf.
  destruct Hf as (_ & _ & _ & _ & _ & _ & _ & Hb).
  unfold Annotated.price_bounds, Annotated.entity_prices, Py.get_default in Hb.
  rewrite Hg in Hb.
  assert (T : PyStr.truthy (Some (PyStr.lower (ent_text e))) = true).
  { destruct (PyStr.lower (ent_text e)); [vm_compute in Hn; discriminate|reflexivity]. }
  rewrite T in Hb. cbn [first_price] in Hn.
  destruct (Re.search "(\d+)" (PyStr.lower (ent_text e))) as [[mt|]|];
    try discriminate.
  destruct (Re.group1 mt) as [g|]; [|discriminate].
  destruct (PyStr.int g) as [k|]; [|discriminate].
  injection Hn as ->. cbn [fst snd price_truthy] in Hb.
  apply Z.eqb_neq in Hz. rewrite Hz in Hb. cbn [negb andb] in Hb.
  injection Hb as <- <-. now split.
Qed.

Lemma money_entity_is_upper_bound_witness :
  exists f,
    parse_query_with_nlp (Some (fun _ => boots_over_money)) "boots over $50" = Some f
    /\ price_max f = Some 50%Z /\ price_min f = None.
Proof.
  eexists. split; [vm_compute; reflexivity|].
  refine (money_entity_is_upper_bound (fun _ => boots_over_money) "boots over $50" _
            {| label_ := "MONEY"; ent_text := "$50" |} 50 eq_refl _ _ eq_refl).
  - vm_compute. reflexivity.
  - discriminate.
Defined.

(** *** Keywords and noun phrases *)

Lemma scan_children_phrase (cs : list Child) (mods : list (string * string))
      (noun_phrase : string) :
  snd (Annotated.scan_children cs (mods, noun_phrase))
  = fold_left
      (fun noun_phrase child =>
         match child_pos child with
         | ADJ => (PyStr.lower (child_text child) ++ " " ++ noun_phrase)%string
         | _ => noun_phrase
         end) cs noun_phrase.
Proof.
  unfold Annotated.scan_children. revert mods noun_phrase.
  induction cs as [|c r IH]; intros mods noun_phrase; cbn [fold_left]; [reflexivity|].
  destruct (child_pos c); apply IH.
Qed.

Lemma scan_token_keywords (st : Annotated.Scan) (token : Token) :
  Annotated.scan_keywords (Annotated.scan_token st token)
  = Annotated.scan_keywords st
    ++ (if keyword_token token then [PyStr.lower (lemma_ token)] else []).
Proof.
  unfold Annotated.scan_token, keyword_token.
  destruct (match pos_ token with
            | NOUN => _
            | _ => _
            end) as [phrases mods].
  cbn [Annotated.scan_keywords].
  destruct (_ && _); [reflexivity|now rewrite app_nil_r].
Qed.

Lemma scan_token_phrases (st : Annotated.Scan) (token : Token) :
  Annotated.scan_noun_phrases (Annotated.scan_token st token)
  = Annotated.scan_noun_phrases st
    ++ (if is_noun token then [noun_phrase_of token] else []).
Proof.
  unfold Annotated.scan_token, is_noun, noun_phrase_of.
  destruct (pos_ token); cbn [Annotated.scan_noun_phrases];
    try now rewrite app_nil_r.
  rewrite <- (scan_children_phrase _ (Annotated.scan_adjective_modifiers st)).
  now destruct (Annotated.scan_children _ _).
Qed.

Lemma scan_from (ts : list Token) (st : Annotated.Scan) :
  Annotated.scan_keywords (fold_left Annotated.scan_token ts st)
  = Annotated.scan_keywords st
    ++ map (fun token => PyStr.lower (lemma_ token)) (filter keyword_token ts)
  /\ Annotated.scan_noun_phrases (fold_left Annotated.scan_token ts st)
     = Annotated.scan_noun_phrases st ++ map noun_phrase_of (filter is_noun ts).
Proof.
  revert st. induction ts as [|t r IH]; intros st; cbn [fold_left filter map].
  - now rewrite !app_nil_r.
  - destruct (IH (Annotated.scan_token st t)) as [-> ->].
    rewrite scan_token_keywords, scan_token_phrases.
    destruct (keyword_token t), (is_noun t); cbn [map];
      rewrite <- ?app_assoc; cbn [app]; rewrite ?app_nil_r; now split.
Qed.

(** X9.  The keywords of the annotated algorithm are the lower-cased lemmas of
    the tokens that are nouns, adjectives or proper nouns, are no stop words
    and whose text is longer than two characters, in token order; its noun
    phrases are one per noun token, in token order, each noun with its
    adjective children before it, the last child first. *)
Lemma keywords_and_phrases_of_tokens (annotate : string -> Doc) (query : string)
      (f : Filters) (sem : Semantic) :
  parse_query_with_nlp (Some annotate) query = Some f ->
  semantic_analysis f = Some sem ->
  keywords f = map (fun token => PyStr.lower (lemma_ token))
                   (filter keyword_token (tokens (annotate query)))
  /\ noun_phrases sem = map noun_phrase_of (filter is_noun (tokens (annotate query))).
Proof.
  unfold parse_query_with_nlp. intros Hf Hs.
  apply parse_annotated_fields in Hf. cbv zeta in Hf.
  destruct Hf as (Hs' & _ & _ & _ & _ & Hk & _).
  rewrite Hs' in Hs. injection Hs as <-. rewrite Hk. cbn [noun_phrases].
  unfold Annotated.scan_tokens.
  destruct (scan_from (tokens (annotate query))
                      {| Annotated.scan_noun_phrases := [];
                         Annotated.scan_adjective_modifiers := [];
                         Annotated.scan_keywords := [] |}) as [-> ->].
  now split.
Qed.

Lemma keywords_and_phrases_of_tokens_witness :
  exists f sem,
    parse_query_with_nlp (Some (fun _ => big_red_shoes)) "big red shoes for me" = Some f
    /\ semantic_analysis f = Some sem
    /\ keywords f = ["big"; "red"; "shoe"]
    /\ noun_phrases sem = ["red big shoes"].
Proof.
  do 2 eexists. split; [vm_compute; reflexivity|]. split; [reflexivity|].
  exact (keywords_and_phrases_of_tokens (fun _ => big_red_shoes) "big red shoes for me"
                                        _ _ eq_refl eq_refl).
Defined.

(** ** The requests built from an interpreted query *)

(** *** At most one price bound *)

(** X14.  The request of either backend carries at most one price bound: none
    when both bounds of the filter set are unset or zero, else the upper
    bound alone or the lower bound alone; and the rich backend's request has
    a [filter] key exactly when it carries one. *)
Lemma one_price_bound_per_request (nlp : option (string -> Doc)) (query : string)
      (f : Filters) :
  parse_query_with_nlp nlp query = Some f ->
  (price_truthy (price_max f) = false /\ price_truthy (price_min f) = false
   /\ es_filter (es_query f query) = None
   /\ price_conditions f = [])
  \/ (exists n, n <> 0%Z /\ price_max f = Some n
                /\ es_filter (es_query f query) = Some [range_lte "price" n]
                /\ price_conditions f = [lte "price" n])
  \/ (exists n, n <> 0%Z /\ price_min f = Some n
                /\ es_filter (es_query f query) = Some [range_gte "price" n]
                /\ price_conditions f = [gte "price" n]).
Proof.
  intros Hf. pose proof (bounds_not_both_truthy nlp query f Hf) as H.
  unfold es_query, filter_clauses, price_conditions. cbn [es_filter].
  destruct (price_max f) as [a|], (price_min f) as [b|]; cbn [price_truthy] in *.
  - destruct (Z.eqb_spec a 0) as [Ea|Ea], (Z.eqb_spec b 0) as [Eb|Eb];
      cbn [negb andb app] in *; try discriminate.
    + left. repeat split.
    + right. right. exists b. repeat split; trivial.
    + right. left. exists a. repeat split; trivial.
  - destruct (Z.eqb_spec a 0) as [Ea|Ea]; cbn [negb app].
    + left. repeat split.
    + right. left. exists a. repeat split; trivial.
  - destruct (Z.eqb_spec b 0) as [Eb|Eb]; cbn [negb app].
    + left. repeat split.
    + right. right. exists b. repeat split; trivial.
  - left. repeat split.
Qed.

Lemma one_price_bound_per_request_witness :
  exists f,
    parse_query_with_nlp None "boots under 0 over 50" = Some f
    /\ price_max f = Some 0%Z
    /\ es_filter (es_query f "boots under 0 over 50") = Some [range_gte "price" 50%Z]
    /\ price_conditions f = [gte "price" 50%Z].
Proof.
  eexists. split; [vm_compute; reflexivity|]. split; [reflexivity|].
  destruct (one_price_bound_per_request None "boots under 0 over 50" _ eq_refl)
    as [(_ & H & _)|[(n & Hz & H & _)|(n & _ & Hn & He & Hc)]].
  - vm_compute in H. discriminate.
  - vm_compute in H. injection H as <-. now destruct Hz.
  - vm_compute in Hn. injection Hn as <-. split; [exact He|exact Hc].
Defined.

(** *** Gender clauses *)

Lemma parsed_gender_in_table (nlp : option (string -> Doc)) (query : string)
      (f : Filters) (g : string) :
  parse_query_with_nlp nlp query = Some f -> gender f = Some g ->
  In g ["women"; "men"; "unisex"].
Proof.
  unfold parse_query_with_nlp. destruct nlp as [annotate|]; intros Hf Hg.
  - apply parse_annotated_fields in Hf. cbv zeta in Hf.
    destruct Hf as (_ & _ & _ & _ & Hg' & _). rewrite Hg' in Hg.
    exact (gender_of_in_keys _ _ Hg).
  - apply parse_query_fallback_fields in Hf.
    destruct Hf as (_ & _ & _ & Hg' & _). rewrite Hg' in Hg.
    exact (resolve_in_keys _ _ _ Hg).
Qed.

(** X15.  The gender of an interpreted query is unset or one of women, men and
    unisex, and the rich backend's request holds, boosted by 1.5, the three
    terms of women, the three terms of men, the single term unisex, or no
    gender clause at all. *)
Lemma gender_clauses_of_interpreted_query (nlp : option (string -> Doc))
      (query : string) (f : Filters) :
  parse_query_with_nlp nlp query = Some f ->
  (gender f = None /\ gender_clauses f = [])
  \/ (gender f = Some "women"
      /\ gender_clauses f = [ term "gender.keyword" "women" 1.5;
                              term "gender.keyword" "girls" 1.5;
                              term "gender.keyword" "female" 1.5 ])
  \/ (gender f = Some "men"
      /\ gender_clauses f = [ term "gender.keyword" "men" 1.5;
                              term "gender.keyword" "boys" 1.5;
                              term "gender.keyword" "male" 1.5 ])
  \/ (gender f = Some "unisex"
      /\ gender_clauses f = [ term "gender.keyword" "unisex" 1.5 ]).
Proof.
  intros Hf. pose proof (parsed_gender_in_table nlp query f) as H.
  unfold gender_clauses. destruct (gender f) as [g|]; [|now left].
  destruct (H g Hf eq_refl) as [<-|[<-|[<-|[]]]]; right.
  - left. now split.
  - right. left. now split.
  - right. right. now split.
Qed.

Lemma gender_clauses_of_interpreted_query_witness :
  exists f,
    parse_query_with_nlp None "Boys sandals" = Some f
    /\ gender f = Some "men"
    /\ gender_clauses f = [ term "gender.keyword" "men" 1.5;
                            term "gender.keyword" "boys" 1.5;
                            term "gender.keyword" "male" 1.5 ].
Proof.
  eexists. split; [vm_compute; reflexivity|].
  destruct (gender_clauses_of_interpreted_query None "Boys sandals" _ eq_refl)
    as [(H & _)|[(H & _)|[H|(H & _)]]]; try (vm_compute in H; discriminate).
  exact H.
Defined.

(** *** The simple backend's match-all query *)

Lemma attribute_condition_nil (fld : string) (v : option string) :
  attribute_condition fld v = [] <-> PyStr.truthy v = false.
Proof.
  unfold attribute_condition. destruct v as [t|]; [|tauto].
  destruct (PyStr.truthy (Some t)); split; congruence.
Qed.

Lemma price_conditions_nil (f : Filters) :
  price_conditions f = []
  <-> price_truthy (price_max f) = false /\ price_truthy (price_min f) = false.
Proof.
  unfold price_conditions.
  destruct (price_max f) as [a|], (price_min f) as [b|];
    try destruct (price_truthy (Some a)); try destruct (price_truthy (Some b));
    cbn; split; try tauto; try discriminate; intros [? ?]; discriminate.
Qed.

Lemma long_terms_nil (ts : list string) :
  filter (fun t => (2 <? PyStr.len t)%nat) ts = []
  <-> forallb (fun t => (PyStr.len t <=? 2)%nat) ts = true.
Proof.
  induction ts as [|t r IH]; cbn [filter forallb]; [tauto|].
  rewrite Nat.ltb_antisym.
  destruct (PyStr.len t <=? 2)%nat; cbn [negb andb]; [exact IH|split; discriminate].
Qed.

Lemma text_conditions_nil (f : Filters) (query : string) :
  PyStr.truthy (category f) = false -> PyStr.truthy (brand f) = false ->
  PyStr.truthy (color f) = false -> PyStr.truthy (gender f) = false ->
  text_conditions f query = []
  <-> forallb (fun t => (PyStr.len t <=? 2)%nat) (search_terms f query) = true.
Proof.
  intros Hc Hb Hcol Hg. unfold text_conditions, search_terms.
  rewrite Hc, Hb, Hcol, Hg. cbn [orb negb]. rewrite orb_true_r.
  assert (E : forall ts : list string,
             match map term_condition (filter (fun t => (2 <? PyStr.len t)%nat) ts) with
             | [] => []
             | [c] => [c]
             | cs => [and_ cs]
             end = []
             <-> forallb (fun t => (PyStr.len t <=? 2)%nat) ts = true).
  { intros ts. rewrite <- long_terms_nil.
    destruct (filter _ ts) as [|a [|b r]]; cbn [map]; split; congruence. }
  destruct (keywords f) as [|k ks]; apply E.
Qed.

(** X16.  The simple backend is asked for every product (the empty query) exactly
    when no attribute is resolved, no bound is a non-zero number, and no
    search term (the keywords, or the lower-cased query when there are none)
    is longer than two characters. *)
Lemma match_all_query (f : Filters) (query : string) :
  mongo_query f query = None
  <-> PyStr.truthy (category f) = false /\ PyStr.truthy (brand f) = false
      /\ PyStr.truthy (color f) = false /\ PyStr.truthy (gender f) = false
      /\ price_truthy (price_max f) = false /\ price_truthy (price_min f) = false
      /\ forallb (fun t => (PyStr.len t <=? 2)%nat) (search_terms f query) = true.
Proof.
  assert (E : mongo_query f query = None <-> mongo_conditions f query = []).
  { unfold mongo_query. destruct (mongo_conditions f query) as [|a [|b r]];
      split; congruence. }
  rewrite E. unfold mongo_conditions. split.
  - intros H.
    apply app_eq_nil in H as [Hc H]. apply app_eq_nil in H as [Hb H].
    apply app_eq_nil in H as [Hcol H]. apply app_eq_nil in H as [Hg H].
    apply app_eq_nil in H as [Hp Ht].
    apply attribute_condition_nil in Hc, Hb, Hcol, Hg.
    apply price_conditions_nil in Hp as [Hmax Hmin].
    apply text_conditions_nil in Ht; trivial. tauto.
  - intros (Hc & Hb & Hcol & Hg & Hmax & Hmin & Ht).
    rewrite (proj2 (attribute_condition_nil "category" _) Hc).
    rewrite (proj2 (attribute_condition_nil "brand" _) Hb).
    rewrite (proj2 (attribute_condition_nil "color" _) Hcol).
    rewrite (proj2 (attribute_condition_nil "gender" _) Hg).
    rewrite (proj2 (price_conditions_nil f) (conj Hmax Hmin)).
    now rewrite (proj2 (text_conditions_nil f query Hc Hb Hcol Hg) Ht).
Qed.

(** ** The simple backend's pipeline: failure and size *)

Lemma add_fields_cases (d : Mongo.Item) :
  ((Mongo.price d == -1)%Q /\ Mongo.add_fields d = None)
  \/ (~ (Mongo.price d == -1)%Q
      /\ exists r, Mongo.add_fields d = Some r /\ Mongo.item r = d).
Proof.
  unfold Mongo.add_fields, Mongo.score_expr.
  cbn -[Qplus Qmult Qdiv Qeq_bool Qle_bool].
  destruct (Qeq_bool (Mongo.price d + (1 + 0)) 0) eqn:E.
  - left. apply Qeq_bool_eq in E. split; [lra|].
    now destruct (Qle_bool (Mongo.stock d) 0).
  - right. apply Qeq_bool_neq in E. split; [intros C; apply E; lra|].
    destruct (Qle_bool (Mongo.stock d) 0); cbn -[Qplus Qmult Qdiv];
      eexists; split; reflexivity.
Qed.

Lemma add_fields_all_cases (ds : list Mongo.Item) :
  (Exists (fun d => (Mongo.price d == -1)%Q) ds /\ Mongo.add_fields_all ds = None)
  \/ (~ Exists (fun d => (Mongo.price d == -1)%Q) ds
      /\ exists rs, Mongo.add_fields_all ds = Some rs /\ map Mongo.item rs = ds).
Proof.
  induction ds as [|d r IH]; cbn [Mongo.add_fields_all].
  - right. split; [intros H; inversion H|]. now exists [].
  - destruct (add_fields_cases d) as [(Hd & ->)|(Hd & x & -> & Hx)].
    + left. split; [now left|reflexivity].
    + destruct IH as [(Hr & ->)|(Hr & rs & -> & Hrs)].
      * left. split; [now right|reflexivity].
      * right. split; [intros H; inversion H; contradiction|].
        exists (x :: rs). split; [reflexivity|]. cbn [map]. now rewrite Hx, Hrs.
Qed.

(** X18.  The pipeline fails exactly when a matched product has the price -1 (the
    divisor [price + 1] is then zero), and when it succeeds it returns 50
    products, or all the matched ones when they are fewer. *)
Lemma pipeline_fails_at_price_minus_one (matched : list Mongo.Item) :
  (Mongo.pipeline matched = None
   <-> Exists (fun d => (Mongo.price d == -1)%Q) matched)
  /\ (forall out, Mongo.pipeline matched = Some out ->
                  List.length out = Nat.min 50 (List.length matched)).
Proof.
  unfold Mongo.pipeline.
  destruct (add_fields_all_cases matched) as [(He & ->)|(He & rs & -> & Hrs)].
  - split; [tauto|discriminate].
  - split; [split; [discriminate|contradiction]|].
    intros out H.
    change (Some (firstn 50 (stable_sort (Mongo.sorts_after Mongo.sort_spec) rs))
            = Some out) in H.
    replace out with (firstn 50 (stable_sort (Mongo.sorts_after Mongo.sort_spec) rs))
      by congruence.
    rewrite length_firstn.
    rewrite (Permutation_length (stable_sort_perm _ rs)).
    now rewrite <- Hrs, length_map.
Qed.

(** ** The rescorer without semantic analysis, and on ordered hits *)

(** X19.  For a filter set of the degraded algorithm only the gender step changes
    a score: the brand, color, category and phrase steps need the semantic
    analysis.  Without a gender every hit keeps its backend score. *)
Lemma degraded_rescoring_is_gender_only (query : string) (f : Filters)
      (text : string) (p : Product) :
  parse_query_with_nlp None query = Some f ->
  nlp_score_of f text p = score_gender p f (base_score p)
  /\ (gender f = None -> nlp_score_of f text p = base_score p).
Proof.
  unfold parse_query_with_nlp. intros Hf.
  apply parse_query_fallback_fields in Hf.
  destruct Hf as (_ & _ & _ & _ & _ & _ & Hs & _).
  assert (E : nlp_score_of f text p = score_gender p f (base_score p)).
  { unfold nlp_score_of, score_brand, score_color, score_category, score_phrases,
      semantic_map, semantic_phrases.
    rewrite Hs. cbn [nonempty fold_left]. now rewrite !andb_false_r. }
  split; [exact E|]. intros Hg. rewrite E. unfold score_gender. now rewrite Hg.
Qed.

Lemma degraded_rescoring_is_gender_only_witness :
  exists f,
    parse_query_with_nlp None "Nike sneakers for women" = Some f
    /\ nlp_score_of f "Nike sneakers for women" adidas_runner = 4.5
    /\ nlp_score_of f "Nike sneakers for women" nike_air_max = 1.5.
Proof.
  eexists. split; [vm_compute; reflexivity|].
  split.
  - etransitivity.
    + exact (proj1 (degraded_rescoring_is_gender_only
                      "Nike sneakers for women" _ "Nike sneakers for women"
                      adidas_runner eq_refl)).
    + vm_compute. reflexivity.
  - etransitivity.
    + exact (proj1 (degraded_rescoring_is_gender_only
                      "Nike sneakers for women" _ "Nike sneakers for women"
                      nike_air_max eq_refl)).
    + vm_compute. reflexivity.
Defined.

Lemma stable_sort_sorted {A : Type} (after : A -> A -> bool) (l : list A) :
  Sorted (fun a b => after a b = false) l -> stable_sort after l = l.
Proof.
  induction 1 as [|a l Hl IH Ha]; [reflexivity|].
  cbn [stable_sort fold_right]. fold (stable_sort after l). rewrite IH.
  destruct Ha as [|b l' Hab]; cbn [insert_sorted]; [reflexivity|now rewrite Hab].
Qed.

(** X20.  Hits whose adjusted scores already never increase from one to the next
    leave the rescorer in the order they came in. *)
Lemma ordered_hits_keep_their_order (products : list Product) (f : Filters)
      (query : string) :
  Sorted (fun a b => PrimFloat.ltb (_nlp_score a) (_nlp_score b) = false)
         (map (score_product f query) products) ->
  apply_nlp_scoring products f query = map (score_product f query) products.
Proof.
  intros H. destruct products as [|p r]; [reflexivity|].
  unfold apply_nlp_scoring, sort_by_nlp_score.
  now apply stable_sort_sorted.
Qed.

Lemma ordered_hits_keep_their_order_witness :
  map (fun s => (title (product s), _nlp_score s))
      (apply_nlp_scoring [nike_air_max; adidas_runner; adidas_runner]
                         red_nike_filters "red nike sneakers under 80")
  = [ (Some "Nike Air Max Red Sneakers", 13.200000000000001);
      (Some "Adidas Runner", 1.9199999999999999);
      (Some "Adidas Runner", 1.9199999999999999) ].
Proof.
  rewrite (ordered_hits_keep_their_order
             [nike_air_max; adidas_runner; adidas_runner]
             red_nike_filters "red nike sneakers under 80").
  - vm_compute. reflexivity.
  - repeat constructor.
Defined.

(** ** The request handler *)

Section HandlerFacts.

Context {MongoDoc : Type} (str_id : MongoDoc -> MongoDoc).




End HandlerFacts.


(** ** Shape and boosts of interpreted queries *)

Lemma parse_well_formed_witness :
  exists f,
    parse_query_with_nlp (Some (fun _ => Sample.red_nike)) "red nike sneakers under 80"
    = Some f
    /\ brand f = Some "nike" /\ well_formed f = true.
Proof.
  eexists. split; [exact red_nike_filters_parsed|]. split; [reflexivity|].
  exact (parse_well_formed _ _ _ red_nike_filters_parsed).
Defined.

Lemma interpreter_boosts_clamped_witness :
  parse_query_with_nlp (Some (fun _ => Sample.red_nike)) "red nike sneakers under 80"
  = Some red_nike_filters
  /\ semantic_analysis red_nike_filters = Some red_nike_semantic
  /\ Forall (fun kv => PrimFloat.leb (Py.min (snd kv * 2.0) 5.0) 5.0 = true)
            [("nike", 1.8)].
Proof.
  split; [exact red_nike_filters_parsed|]. split; [reflexivity|].
  exact (proj1 (interpreter_boosts_clamped _ _ _ _ red_nike_filters_parsed eq_refl)).
Defined.

(** ** Interpreted queries end to end *)

Lemma sort_by_nlp_score_descending (l : list Scored) :
  Forall (fun s => not_nan (_nlp_score s)) l ->
  StronglySorted (fun a b => PrimFloat.leb (_nlp_score b) (_nlp_score a) = true)
                 (sort_by_nlp_score l).
Proof.
  intros Hok. unfold sort_by_nlp_score.
  pose proof (stable_sort_ordered
                (fun x y => PrimFloat.ltb (_nlp_score x) (_nlp_score y))
                (fun s => not_nan (_nlp_score s))
                (fun x y => FloatFacts.ltb_asym _ _)
                (fun x y z Hx Hy Hz => FloatFacts.ltb_false_trans _ _ _ Hx Hy Hz)
                _ Hok) as Hsorted.
  assert (Hall : Forall (fun s => not_nan (_nlp_score s))
                        (stable_sort
                           (fun x y => PrimFloat.ltb (_nlp_score x) (_nlp_score y)) l))
    by (eapply Permutation_Forall; [symmetry; apply stable_sort_perm|exact Hok]).
  revert Hall. induction Hsorted as [|a r Hs IH Ha]; intros Hall; constructor.
  - apply IH. now inversion Hall.
  - inversion Hall as [|? ? Oa Ol]; subst.
    rewrite Forall_forall in *. intros b Hb.
    apply FloatFacts.ltb_false_leb; [apply Ol, Hb|exact Oa|exact (Ha b Hb)].
Qed.



(** ** The degraded algorithm's keywords in the simple backend's query *)

Lemma long_words (query_lower : string) :
  filter (fun t => (2 <? PyStr.len t)%nat) (Fallback.words query_lower)
  = Fallback.words query_lower.
Proof.
  unfold Fallback.words.
  induction (PyStr.split query_lower) as [|w r IH]; [reflexivity|].
  cbn [filter]. destruct (2 <? PyStr.len (PyStr.strip w))%nat eqn:E; [|exact IH].
  cbn [map filter]. rewrite E. now rewrite IH.
Qed.

(** X17.  In the simple backend's query every keyword of the degraded algorithm is
    a condition of its own that a product has to meet in one of its text
    fields: the conditions are joined by [$and], none is left out, and the
    attributes resolved from the same words do not replace them. *)
Lemma degraded_keywords_are_conjuncts (query : string) (f : Filters) (text : string) :
  parse_query_with_nlp None query = Some f ->
  keywords f <> [] ->
  text_conditions f text
  = match keywords f with
    | [w] => [term_condition w]
    | ws => [and_ (map term_condition ws)]
    end.
Proof.
  unfold parse_query_with_nlp. intros Hf Hne.
  apply parse_query_fallback_fields in Hf.
  destruct Hf as (_ & _ & _ & _ & Hk & _).
  unfold text_conditions.
  destruct (keywords f) as [|k ks] eqn:E; [congruence|].
  cbn [orb]. rewrite Hk, long_words, <- Hk.
  destruct ks as [|k' ks']; reflexivity.
Qed.

Lemma degraded_keywords_are_conjuncts_witness :
  exists f,
    parse_query_with_nlp None "Nike sneakers under 80" = Some f
    /\ keywords f = ["nike"; "sneakers"; "under"]
    /\ text_conditions f "Nike sneakers under 80"
       = [and_ [term_condition "nike"; term_condition "sneakers"; term_condition "under"]].
Proof.
  eexists. split; [vm_compute; reflexivity|]. split; [reflexivity|].
  refine (degraded_keywords_are_conjuncts "Nike sneakers under 80" _
                                          "Nike sneakers under 80" eq_refl _).
  discriminate.
Defined.

(** ** Letter case *)

Lemma lower_char_idempotent (a : ascii) :
  PyStr.lower_char (PyStr.lower_char a) = PyStr.lower_char a.
Proof. destruct a as [[] [] [] [] [] [] [] []]; reflexivity. Qed.

Lemma lower_idempotent (s : string) : PyStr.lower (PyStr.lower s) = PyStr.lower s.
Proof.
  induction s as [|a r IH]; [reflexivity|].
  cbn [PyStr.lower]. now rewrite lower_char_idempotent, IH.
Qed.


